(** * Task reminder panel: task records mirrored as markdown checklist lines

    A shallow embedding of the synchronisation code of the plugin
    ([src/TaskModal.ts], [src/main.ts]): the line codec ([formatTaskLine],
    [parseProjectTasks]), the line matcher built from the escaped task name,
    the three project-file mutators of the edit modal, the whole-document
    updater of the list view, and the create / edit / delete flows that
    drive them.

    Strings are [string]s of 8-bit code units, so the character classes of
    the source's regular expressions are the ones of the Latin-1 range.
    Asynchronous calls are run to completion one after the other (the host is
    single threaded); file access goes through an explicit store. *)

From Stdlib Require Import Ascii String.
From stdpp Require Import base option list strings gmap.

(** ** The string and array built-ins of the host language used by the code *)

Module JS.

Definition nl : ascii := "010"%char.
Definition NL : string := String nl "".

(** [\s], which is also what [trim] strips: white space and line
    terminators. *)
Definition isWhiteSpace (c : ascii) : bool :=
  match c with
  | "009" | "010" | "011" | "012" | "013" | " " | "160" => true
  | _ => false
  end%char.

(** The characters [.] refuses. *)
Definition isLineTerminator (c : ascii) : bool :=
  match c with
  | "010" | "013" => true
  | _ => false
  end%char.

(** [\d] *)
Definition isDigit (c : ascii) : bool :=
  match c with
  | "0" | "1" | "2" | "3" | "4" | "5" | "6" | "7" | "8" | "9" => true
  | _ => false
  end%char.

Definition isEmpty (s : string) : bool :=
  match s with "" => true | _ => false end.

Fixpoint trimStart (s : string) : string :=
  match s with
  | "" => ""
  | String c r => if isWhiteSpace c then trimStart r else s
  end.

Fixpoint trimEnd (s : string) : string :=
  match s with
  | "" => ""
  | String c r =>
      let r' := trimEnd r in
      if isWhiteSpace c && isEmpty r' then "" else String c r'
  end.

(** Every character of [s] passes the test [p]. *)
Fixpoint allChars (p : ascii → bool) (s : string) : bool :=
  match s with
  | "" => true
  | String c r => p c && allChars p r
  end.

(** [s.trim()] *)
Definition trim (s : string) : string := trimEnd (trimStart s).

(** [s.startsWith(p)] *)
Definition startsWith (p s : string) : bool := String.prefix p s.

(** [s.split('\n')]: never empty, the empty text gives one empty line. *)
Fixpoint split (s : string) : list string :=
  match s with
  | "" => [""]
  | String c r =>
      if Ascii.eqb c nl then "" :: split r
      else match split r with
           | l :: ls => String c l :: ls
           | [] => [String c ""]
           end
  end.

(** [lines.join('\n')] *)
Definition join (ls : list string) : string := String.concat NL ls.

(** [xs.findIndex(p)], with [None] for -1. *)
Fixpoint findIndex {A} (p : A → bool) (xs : list A) : option nat :=
  match xs with
  | [] => None
  | x :: r => if p x then Some 0 else S <$> findIndex p r
  end.

(** [xs.find(p)], with [None] for undefined. *)
Fixpoint find {A} (p : A → bool) (xs : list A) : option A :=
  match xs with
  | [] => None
  | x :: r => if p x then Some x else find p r
  end.

(** [xs.filter((x, index) => p x index)], scanning from index [i]. *)
Fixpoint filterFrom {A} (p : A → nat → bool) (i : nat) (xs : list A) : list A :=
  match xs with
  | [] => []
  | x :: r => if p x i then x :: filterFrom p (S i) r else filterFrom p (S i) r
  end.

(** [xs.splice(i, 0, x)] *)
Definition splice {A} (i : nat) (x : A) (xs : list A) : list A :=
  take i xs ++ x :: drop i xs.

(** ASCII part of [s.toLowerCase()]. *)
Definition lowerChar (c : ascii) : ascii :=
  let n := nat_of_ascii c in
  if (65 <=? n) && (n <=? 90) then ascii_of_nat (n + 32) else c.

Fixpoint toLowerCase (s : string) : string :=
  match s with
  | "" => ""
  | String c r => String (lowerChar c) (toLowerCase r)
  end.

End JS.

(** ** Regular expressions of the source, as matchers *)

Module Regex.
Import JS.

(** The class [[.*+?^${}()|[\]\\]] of the escaping replace. *)
Definition isSpecial (c : ascii) : bool :=
  match c with
  | "." | "*" | "+" | "?" | "^" | "$" | "{" | "}" | "(" | ")" | "|" | "["
  | "]" | "\" => true
  | _ => false
  end%char.

(** [name.replace(/[.*+?^${}()|[\]\\]/g, '\\$&')] *)
Fixpoint escapedTaskName (name : string) : string :=
  match name with
  | "" => ""
  | String c r =>
      if isSpecial c then String "\" (String c (escapedTaskName r))
      else String c (escapedTaskName r)
  end.

(** Matching a pattern made of atoms only, anchored at the start of [s]:
    a backslash followed by a character stands for that character, a dot
    for any character but a line terminator, anything else for itself.
    The result is what is left of [s] after the match. *)
Fixpoint matchAtoms (pat s : string) : option string :=
  match pat with
  | "" => Some s
  | String "\" (String c pat') =>
      match s with
      | String d s' => if Ascii.eqb d c then matchAtoms pat' s' else None
      | "" => None
      end
  | String "." pat' =>
      match s with
      | String d s' => if isLineTerminator d then None else matchAtoms pat' s'
      | "" => None
      end
  | String c pat' =>
      match s with
      | String d s' => if Ascii.eqb d c then matchAtoms pat' s' else None
      | "" => None
      end
  end.

(** The test of a line against the expression built from the template
    [^- \\[.\\] ${escapedTaskName}] followed by a non-capturing group of any
    number of characters other than a line feed. The expression is anchored
    at the start and that last group accepts the empty string, so the test
    is a match of the atoms before it. *)
Definition taskRegex (name line : string) : bool :=
  bool_decide (is_Some (matchAtoms ("- \[.\] " +:+ escapedTaskName name) line)).

(** [line.match(/^- \[([ x])\] (.+)$/)]: the two captured groups. Without
    the multiline flag [$] is the end of the text, and [.] takes no line
    terminator. *)
Definition matchTaskLine (line : string) : option (ascii * string) :=
  match line with
  | String "-" (String " " (String "[" (String c (String "]" (String " " rest))))) =>
      if (Ascii.eqb c " " || Ascii.eqb c "x")
         && negb (isEmpty rest)
         && allChars (λ d, negb (isLineTerminator d)) rest
      then Some (c, rest) else None
  | _ => None
  end.

(** Tokens of [/#[^\s]+/g], left to right. With [inTok] the scan is inside
    a token, whose remaining characters head the result. *)
Fixpoint tagTokens (inTok : bool) (s : string) : list string :=
  match s with
  | "" => if inTok then [""] else []
  | String c r =>
      if inTok then
        if isWhiteSpace c then "" :: tagTokens false r
        else match tagTokens true r with
             | t :: ts => String c t :: ts
             | [] => [String c ""]
             end
      else
        match r with
        | String d _ =>
            if Ascii.eqb c "#" && negb (isWhiteSpace d) then
              match tagTokens true r with
              | t :: ts => String c t :: ts
              | [] => [String c ""]
              end
            else tagTokens false r
        | "" => []
        end
  end.

(** [s.match(/#[^\s]+/g)], with [[]] for null. *)
Definition matchTags (s : string) : list string := tagTokens false s.

(** [s.replace(/#[^\s]+/g, '')] *)
Fixpoint stripTokens (inTok : bool) (s : string) : string :=
  match s with
  | "" => ""
  | String c r =>
      if inTok then
        if isWhiteSpace c then String c (stripTokens false r)
        else stripTokens true r
      else
        match r with
        | String d _ =>
            if Ascii.eqb c "#" && negb (isWhiteSpace d) then stripTokens true r
            else String c (stripTokens false r)
        | "" => String c ""
        end
  end.

Definition removeTags (s : string) : string := stripTokens false s.

(** A sequence of one-character classes matched at the start of [s]: the
    matched text and the rest. *)
Fixpoint matchClasses (pat : list (ascii → bool)) (s : string)
  : option (string * string) :=
  match pat with
  | [] => Some ("", s)
  | p :: pat' =>
      match s with
      | String c r =>
          if p c then
            '(m, rest) ← matchClasses pat' r; Some (String c m, rest)
          else None
      | "" => None
      end
  end.

Definition isChar (a c : ascii) : bool := Ascii.eqb c a.

(** [\d{4}-\d{2}-\d{2}] *)
Definition datePattern : list (ascii → bool) :=
  [isDigit; isDigit; isDigit; isDigit; isChar "-"; isDigit; isDigit;
   isChar "-"; isDigit; isDigit]%char.

(** [/\((\d{4}-\d{2}-\d{2})\)/] at the start of [s]: the group and the
    rest. *)
Definition dateAt (s : string) : option (string * string) :=
  match s with
  | String "(" r =>
      '(d, r') ← matchClasses datePattern r;
      match r' with
      | String ")" rest => Some (d, rest)
      | _ => None
      end
  | _ => None
  end.

(** [s.match(/\((\d{4}-\d{2}-\d{2})\)/)]: the group of the first match. *)
Fixpoint matchDate (s : string) : option string :=
  match dateAt s with
  | Some (d, _) => Some d
  | None => match s with
            | "" => None
            | String _ r => matchDate r
            end
  end.

(** [s.replace(/\(\d{4}-\d{2}-\d{2}\)/, '')]: the first match only. *)
Fixpoint removeDate (s : string) : string :=
  match dateAt s with
  | Some (_, rest) => rest
  | None => match s with
            | "" => ""
            | String c r => String c (removeDate r)
            end
  end.

End Regex.

(** ** Task records and the line codec *)

(** [interface TaskData]; an optional field is an [option]. *)
Record TaskData := mkTask {
  name : string;
  tags : list string;
  date : string;
  checklist : bool;
  project : option string;
  fileId : option string
}.

(** Truthiness of an optional string: undefined and the empty string are
    falsy. *)
Definition truthy (o : option string) : bool :=
  match o with
  | Some s => negb (JS.isEmpty s)
  | None => false
  end.

(** [formatTaskLine], the same text in [TaskModal] and in the override of
    [EditTaskModal]. *)
Definition formatTaskLine (task : TaskData) : string :=
  "- [" +:+ (if checklist task then "x" else " ") +:+ "] " +:+ name task
  +:+ (match tags task with
       | [] => ""
       | _ => " " +:+ String.concat " " ((λ tag, "#" +:+ tag) <$> tags task)
       end)
  +:+ (if JS.isEmpty (date task) then "" else " (" +:+ date task +:+ ")")
  +:+ JS.NL.

(** The line built inline by [updateTaskInProjectFile] and [updateTaskInFile]
    of the list view: the same segments, without the final line feed. *)
Definition inlineTaskLine (task : TaskData) : string :=
  let checkbox := if checklist task then "x" else " " in
  let tags := match tags task with
              | [] => ""
              | _ => " " +:+ String.concat " " ((λ tag, "#" +:+ tag) <$> tags task)
              end in
  let date := if JS.isEmpty (date task) then "" else " (" +:+ date task +:+ ")" in
  "- [" +:+ checkbox +:+ "] " +:+ name task +:+ tags +:+ date.

(** [tag.substring(1)] *)
Definition substring1 (s : string) : string :=
  match s with
  | "" => ""
  | String _ r => r
  end.

(** The body of the loop of [parseProjectTasks] for one line of the section
    that is not a heading. *)
Definition decodeLine (line : string) : option TaskData :=
  '(c, rest) ← Regex.matchTaskLine line;
  let task0 := mkTask rest [] "" (Ascii.eqb c "x") None None in
  let task1 :=
    match Regex.matchTags (name task0) with
    | [] => task0
    | found => mkTask (JS.trim (Regex.removeTags (name task0)))
                      (substring1 <$> found) "" (checklist task0) None None
    end in
  let task2 :=
    match Regex.matchDate (name task1) with
    | Some d => mkTask (JS.trim (Regex.removeDate (name task1)))
                       (tags task1) d (checklist task1) None None
    | None => task1
    end in
  Some task2.

Definition isTasksHeading (line : string) : bool :=
  String.eqb (JS.trim line) "## Tasks".

(** The loop of [parseProjectTasks] over the remaining lines. *)
Fixpoint parseLines (inTasksSection : bool) (lines : list string) : list TaskData :=
  match lines with
  | [] => []
  | line :: rest =>
      if isTasksHeading line then parseLines true rest
      else if inTasksSection then
        if JS.startsWith "#" line then []
        else match decodeLine line with
             | Some task => task :: parseLines true rest
             | None => parseLines true rest
             end
      else parseLines false rest
  end.

Definition parseProjectTasks (content : string) : list TaskData :=
  parseLines false (JS.split content).

(** ** The line-array steps of the mutators *)

(** [appendToProjectFile]: the splice after the heading; [None] when there is
    no heading. *)
Definition appendLines (task : TaskData) (lines : list string) : option (list string) :=
  tasksIndex ← JS.findIndex isTasksHeading lines;
  Some (JS.splice (tasksIndex + 1) (formatTaskLine task) lines).

(** [removeFromProjectFile]: the filter; [None] when there is no heading. *)
Definition removeLines (taskName : string) (lines : list string) : option (list string) :=
  tasksIndex ← JS.findIndex isTasksHeading lines;
  Some (JS.filterFrom
          (λ line index,
             if index <=? tasksIndex then true
             else if JS.startsWith "#" line then true
             else negb (Regex.taskRegex taskName line))
          0 lines).

(** The [for] loop of [updateInProjectFile] from index [i], [rest] being the
    lines from there on: the index of the line to replace. *)
Fixpoint sectionLoop (matchName : string) (i : nat) (rest : list string) : option nat :=
  match rest with
  | [] => None
  | line :: rest' =>
      if JS.startsWith "#" line then None
      else if Regex.taskRegex matchName line then Some i
      else sectionLoop matchName (S i) rest'
  end.

(** [updateInProjectFile]: [None] when nothing was updated. *)
Definition updateLines (matchName : string) (task : TaskData) (lines : list string)
  : option (list string) :=
  tasksIndex ← JS.findIndex isTasksHeading lines;
  i ← sectionLoop matchName (tasksIndex + 1) (drop (tasksIndex + 1) lines);
  Some (<[i := JS.trim (formatTaskLine task)]> lines).

(** The [for] loop of [updateTaskInProjectFile] and [updateTaskInFile] of the
    list view, over the whole document. *)
Definition wholeLoop (matchName : string) (lines : list string) : option nat :=
  JS.findIndex (Regex.taskRegex matchName) lines.

Definition updateWholeLines (task : TaskData) (lines : list string) : option (list string) :=
  i ← wholeLoop (name task) lines;
  Some (<[i := inlineTaskLine task]> lines).

(** [removeFromSourceFile]: the filter over the whole document. *)
Definition removeWholeLines (taskName : string) (lines : list string) : list string :=
  List.filter (λ line, negb (Regex.taskRegex taskName line)) lines.

(** What a mutator decides after reading the text of a document. *)
Inductive edit : Type :=
  | NoSection               (* no heading: tasksIndex === -1 *)
  | NoChange                (* the mutator ends without a write *)
  | Changed (text : string) (* the text handed to app.vault.modify *).

(** The text of the document after the mutator has run. *)
Definition textAfter (content : string) (e : edit) : string :=
  match e with
  | Changed text => text
  | _ => content
  end.

Definition appendStep (task : TaskData) (content : string) : edit :=
  match appendLines task (JS.split content) with
  | Some lines => Changed (JS.join lines)
  | None => NoSection
  end.

Definition removeStep (taskName : string) (content : string) : edit :=
  let lines := JS.split content in
  match removeLines taskName lines with
  | Some filteredLines =>
      if Nat.eqb (length lines) (length filteredLines) then NoChange
      else Changed (JS.join filteredLines)
  | None => NoSection
  end.

Definition updateStep (matchName : string) (task : TaskData) (content : string) : edit :=
  let lines := JS.split content in
  match JS.findIndex isTasksHeading lines with
  | Some _ =>
      match updateLines matchName task lines with
      | Some lines' => Changed (JS.join lines')
      | None => NoChange
      end
  | None => NoSection
  end.

Definition updateWholeStep (task : TaskData) (content : string) : edit :=
  match updateWholeLines task (JS.split content) with
  | Some lines => Changed (JS.join lines)
  | None => NoChange
  end.

Definition removeWholeStep (taskName : string) (content : string) : edit :=
  let lines := JS.split content in
  let filteredLines := removeWholeLines taskName lines in
  if Nat.eqb (length lines) (length filteredLines) then NoChange
  else Changed (JS.join filteredLines).

(** ** The host: files, the vault, the console, and the state of the view *)

(** A value of the frontmatter as the metadata cache reports it: a string,
    or a value of another kind (a number, a boolean, a list, an object). *)
Inductive frontmatterValue : Type :=
  | FmString (s : string)
  | FmOther.

(** A markdown file of the vault, with the [type] entry of its frontmatter;
    [None] when the file has no frontmatter, or no such entry, or the entry
    is null. *)
Record TFile := mkFile {
  path : string;
  basename : string;
  frontmatterType : option frontmatterValue
}.

Record World := mkWorld {
  markdownFiles : list TFile;          (* app.vault.getMarkdownFiles() *)
  store : gmap string string;          (* file contents, by path *)
  writes : list (string * string);     (* the calls of app.vault.modify *)
  console : list string;               (* console.error *)
  errorMessages : list (string * nat); (* inline error elements of a modal, each
                                          with the delay in ms of the timer that
                                          removes it *)
  modalClosed : bool;                  (* this.close() *)
  viewTasks : list TaskData;           (* ReminderView.tasks *)
  viewProjectFiles : option (list TFile); (* ReminderView.projectFiles, which
                                          the source declares and never assigns *)
  saved : list TaskData                (* plugin data written by saveCallback *)
}.

Definition setStore (w : World) (s : gmap string string) (ws : list (string * string)) : World :=
  mkWorld (markdownFiles w) s ws (console w) (errorMessages w) (modalClosed w)
          (viewTasks w) (viewProjectFiles w) (saved w).

Definition setConsole (w : World) (c : list string) : World :=
  mkWorld (markdownFiles w) (store w) (writes w) c (errorMessages w) (modalClosed w)
          (viewTasks w) (viewProjectFiles w) (saved w).

Definition setErrorMessages (w : World) (e : list (string * nat)) : World :=
  mkWorld (markdownFiles w) (store w) (writes w) (console w) e (modalClosed w)
          (viewTasks w) (viewProjectFiles w) (saved w).

Definition setModalClosed (w : World) (b : bool) : World :=
  mkWorld (markdownFiles w) (store w) (writes w) (console w) (errorMessages w) b
          (viewTasks w) (viewProjectFiles w) (saved w).

Definition setViewTasks (w : World) (ts : list TaskData) : World :=
  mkWorld (markdownFiles w) (store w) (writes w) (console w) (errorMessages w)
          (modalClosed w) ts (viewProjectFiles w) (saved w).

Definition setSaved (w : World) (ts : list TaskData) : World :=
  mkWorld (markdownFiles w) (store w) (writes w) (console w) (errorMessages w)
          (modalClosed w) (viewTasks w) (viewProjectFiles w) ts.

(** A computation either returns or throws, and leaves a world in both
    cases. *)
Inductive outcome (A : Type) : Type :=
  | Returned (a : A)
  | Thrown (e : string).
Arguments Returned {A} a.
Arguments Thrown {A} e.

Definition M (A : Type) : Type := World → outcome A * World.

#[global] Instance M_ret : MRet M := λ A a w, (Returned a, w).

#[global] Instance M_bind : MBind M := λ A B f m w,
  match m w with
  | (Returned a, w') => f a w'
  | (Thrown e, w') => (Thrown e, w')
  end.

Definition throw {A} (e : string) : M A := λ w, (Thrown e, w).

(** [try { body } catch (error) { handler }] *)
Definition tryCatch (body : M ()) (handler : string → M ()) : M () := λ w,
  match body w with
  | (Returned a, w') => (Returned a, w')
  | (Thrown e, w') => handler e w'
  end.

Definition gets {A} (f : World → A) : M A := λ w, (Returned (f w), w).
Definition modifyWorld (f : World → World) : M () := λ w, (Returned (), f w).

Definition consoleError (msg : string) : M () :=
  modifyWorld (λ w, setConsole w (console w ++ [msg])).

(** [app.vault.read(file)]; a file that is gone rejects. *)
Definition vaultRead (file : TFile) : M string := λ w,
  match store w !! path file with
  | Some content => (Returned content, w)
  | None => (Thrown "read failed", w)
  end.

(** [app.vault.modify(file, text)] *)
Definition vaultModify (file : TFile) (text : string) : M () :=
  modifyWorld (λ w, setStore w (<[path file := text]> (store w))
                             (writes w ++ [(path file, text)])).

(** The callback of the filter of [getProjectFiles]. The optional chaining
    stops at an absent entry only: on a value that is no string,
    [toLowerCase] is no function and the call throws a TypeError, which is
    [None] here. *)
Definition isProjectFile (file : TFile) : option bool :=
  match frontmatterType file with
  | None => Some false
  | Some (FmString ty) => Some (String.eqb (JS.toLowerCase ty) "project"
                                || String.eqb (JS.toLowerCase ty) "projects")
  | Some FmOther => None
  end.

(** [files.filter(callback)] with this callback: the files are tested in
    order, and the first call that throws ends the filter. *)
Fixpoint filterProjectFiles (files : list TFile) : option (list TFile) :=
  match files with
  | [] => Some []
  | file :: rest =>
      match isProjectFile file with
      | None => None
      | Some keep =>
          match filterProjectFiles rest with
          | None => None
          | Some kept => Some (if keep then file :: kept else kept)
          end
      end
  end.

(** [getProjectFiles(app)] *)
Definition getProjectFiles : M (list TFile) := λ w,
  match filterProjectFiles (markdownFiles w) with
  | Some files => (Returned files, w)
  | None => (Thrown "TypeError: metadata?.type?.toLowerCase is not a function", w)
  end.

Definition hasBasename (o : option string) (file : TFile) : bool :=
  bool_decide (Some (basename file) = o).

(** Read a file and act on what the mutator decided: log when the section is
    missing (if the mutator logs that), write when the mutator hands over a
    text. *)
Definition applyEdit (file : TFile) (step : string → edit) (noSection : M ()) : M () :=
  content ← vaultRead file;
  match step content with
  | NoSection => noSection
  | NoChange => mret ()
  | Changed text => vaultModify file text
  end.

(** ** The create modal *)

Module TaskModal.

(** The fields of the modal that [submitTask] reads. *)
Record t := mk {
  taskName : string;
  taskTags : list string;
  taskDate : string;
  taskChecklist : bool;
  taskProject : string;
  fileId : option string;
  projectFiles : list TFile
}.

(** The record [submitTask] builds from the fields. *)
Definition taskOf (this : t) : TaskData :=
  mkTask (taskName this) (taskTags this) (taskDate this) (taskChecklist this)
         (if JS.isEmpty (taskProject this) then None else Some (taskProject this))
         (fileId this).

(** The inline message of an empty name, removed by a timer after 3 s. *)
Definition showNameRequired : M () :=
  modifyWorld (λ w, setErrorMessages w
                      (errorMessages w ++ [("Task name is required", 3000)])).

Definition close : M () := modifyWorld (λ w, setModalClosed w true).

Definition appendToProjectFile (this : t) (task : TaskData) : M () :=
  if negb (truthy (project task)) then mret ()
  else
    match JS.find (hasBasename (project task)) (projectFiles this) with
    | None => consoleError "Project file not found"
    | Some projectFile =>
        tryCatch
          (applyEdit projectFile (appendStep task)
             (consoleError "No ## Tasks section found in project file"))
          (λ _, consoleError "Error appending task to project file")
    end.

Definition submitTask (this : t) (addTaskCallback : TaskData → M ()) : M () :=
  if JS.isEmpty (taskName this) then showNameRequired
  else
    let task := taskOf this in
    (if truthy (project task) then appendToProjectFile this task else mret ());;
    addTaskCallback task;;
    close.

(** [tag.replace('#', '')]: the first marker of the text is taken out. *)
Fixpoint withoutFirstMarker (tag : string) : string :=
  match tag with
  | "" => ""
  | String c r => if Ascii.eqb c "#" then r else String c (withoutFirstMarker r)
  end.

Definition setTaskTags (this : t) (tags : list string) : t :=
  mk (taskName this) tags (taskDate this) (taskChecklist this) (taskProject this)
     (fileId this) (projectFiles this).

(** [addTag]: the test looks for the tag as typed, the list gets the tag
    without its first marker. *)
Definition addTag (this : t) (tag : string) : t :=
  if negb (JS.isEmpty tag) && negb (bool_decide (tag ∈ taskTags this))
  then setTaskTags this (taskTags this ++ [withoutFirstMarker tag])
  else this.

(** The click handler of the remove button of a tag:
    [this.taskTags.filter(t => t !== tag)]. *)
Definition removeTag (this : t) (tag : string) : t :=
  setTaskTags this (List.filter (λ t, negb (String.eqb t tag)) (taskTags this)).

End TaskModal.

(** ** The edit modal *)

Module EditTaskModal.

Record t := mk {
  modal : TaskModal.t;       (* the inherited fields *)
  originalTask : TaskData
}.

(** The override, textually the one of [TaskModal]. *)
Definition appendToProjectFile (this : t) (task : TaskData) : M () :=
  if negb (truthy (project task)) then mret ()
  else
    match JS.find (hasBasename (project task)) (TaskModal.projectFiles (modal this)) with
    | None => consoleError "Project file not found"
    | Some projectFile =>
        tryCatch
          (applyEdit projectFile (appendStep task)
             (consoleError "No ## Tasks section found in project file"))
          (λ _, consoleError "Error appending task to project file")
    end.

Definition removeFromProjectFile (this : t) (task : TaskData) : M () :=
  if negb (truthy (project task)) then mret ()
  else
    match JS.find (hasBasename (project task)) (TaskModal.projectFiles (modal this)) with
    | None => mret ()
    | Some projectFile =>
        tryCatch
          (applyEdit projectFile (removeStep (name task)) (mret ()))
          (λ _, consoleError "Error removing task from project file")
    end.

(** The line is looked up by the name of [originalTask]. *)
Definition updateInProjectFile (this : t) (task : TaskData) : M () :=
  if negb (truthy (project task)) then mret ()
  else
    match JS.find (hasBasename (project task)) (TaskModal.projectFiles (modal this)) with
    | None => mret ()
    | Some projectFile =>
        tryCatch
          (applyEdit projectFile (updateStep (name (originalTask this)) task)
             (consoleError "No ## Tasks section found in project file"))
          (λ _, consoleError "Error updating task in project file")
    end.

(** [app.vault.getAbstractFileByPath(path)] when it is a file. *)
Definition getFileByPath (p : string) : M (option TFile) :=
  gets (λ w, JS.find (λ f, String.eqb (path f) p) (markdownFiles w)).

Definition removeFromSourceFile (task : TaskData) : M () :=
  match fileId task with
  | Some p =>
      if JS.isEmpty p then mret ()
      else
        file ← getFileByPath p;
        match file with
        | None => mret ()
        | Some file =>
            tryCatch
              (applyEdit file (removeWholeStep (name task)) (mret ()))
              (λ _, consoleError "Error removing task from source file")
        end
  | None => mret ()
  end.

Definition submitTask (this : t) (updateCallback : option TaskData → M ()) : M () :=
  if JS.isEmpty (TaskModal.taskName (modal this)) then TaskModal.showNameRequired
  else
    let updatedTask := TaskModal.taskOf (modal this) in
    tryCatch
      ((if bool_decide (project updatedTask ≠ project (originalTask this)) then
          (if truthy (project (originalTask this))
           then removeFromProjectFile this (originalTask this) else mret ());;
          (if truthy (project updatedTask)
           then appendToProjectFile this updatedTask else mret ())
        else if truthy (project updatedTask) then updateInProjectFile this updatedTask
        else mret ());;
       updateCallback (Some updatedTask);;
       TaskModal.close)
      (λ _, consoleError "Error updating task").

Definition deleteTask (this : t) (updateCallback : option TaskData → M ()) : M () :=
  tryCatch
    ((if truthy (project (originalTask this))
      then removeFromProjectFile this (originalTask this) else mret ());;
     (if truthy (fileId (originalTask this))
      then removeFromSourceFile (originalTask this) else mret ());;
     updateCallback None;;
     TaskModal.close)
    (λ _, consoleError "Error deleting task").

End EditTaskModal.

(** ** The list view *)

Module ReminderView.

(** [saveCallback(this.tasks)]: the plugin stores the list. *)
Definition saveCallback : M () :=
  modifyWorld (λ w, setSaved w (viewTasks w)).

(** [t.name === task.name && t.date === task.date] *)
Definition sameNameAndDate (task t : TaskData) : bool :=
  String.eqb (name t) (name task) && String.eqb (date t) (date task).

(** No heading is looked up: the loop runs over the whole document. *)
Definition updateTaskInProjectFile (task : TaskData) : M () :=
  if negb (truthy (project task)) then mret ()
  else
    projectFiles ← getProjectFiles;
    match JS.find (hasBasename (project task)) projectFiles with
    | None => mret ()
    | Some projectFile =>
        tryCatch
          (applyEdit projectFile (updateWholeStep task) (mret ()))
          (λ _, consoleError "Error updating task in project file")
    end.

Definition updateTaskInFile (task : TaskData) : M () :=
  match fileId task with
  | Some p =>
      if JS.isEmpty p then mret ()
      else
        file ← EditTaskModal.getFileByPath p;
        match file with
        | None => mret ()
        | Some file =>
            tryCatch
              (applyEdit file (updateWholeStep task) (mret ()))
              (λ _, consoleError "Error updating task in file")
        end
  | None => mret ()
  end.

(** [this.projectFiles.find(...)]: a field that was never assigned is
    undefined, and the call throws. *)
Definition findViewProjectFile (task : TaskData) : M (option TFile) :=
  files ← gets viewProjectFiles;
  match files with
  | Some files => mret (JS.find (hasBasename (project task)) files)
  | None => throw "TypeError: this.projectFiles is undefined"
  end.

Definition addTask (task : TaskData) : M () :=
  modifyWorld (λ w, setViewTasks w (viewTasks w ++ [task]));;
  saveCallback;;
  (if truthy (fileId task) then updateTaskInFile task else mret ());;
  (if truthy (project task) then
     projectFile ← findViewProjectFile task;
     match projectFile with
     | Some _ => updateTaskInProjectFile task
     | None => mret ()
     end
   else mret ()).

Definition handleTaskDeletion (task : TaskData) : M () :=
  modifyWorld (λ w, setViewTasks w
                      (List.filter (λ t, negb (sameNameAndDate task t)) (viewTasks w)));;
  goOn ← (if truthy (project task) then
            projectFile ← findViewProjectFile task;
            match projectFile with
            | None => mret false            (* the early return *)
            | Some _ => updateTaskInProjectFile task;; mret true
            end
          else mret true);
  if goOn : bool then saveCallback else mret ().

(** The callback the list view hands to the edit modal of [task]. *)
Definition editCallback (task : TaskData) (updatedTask : option TaskData) : M () :=
  match updatedTask with
  | None => handleTaskDeletion task
  | Some updatedTask =>
      modifyWorld (λ w,
        match JS.findIndex (sameNameAndDate task) (viewTasks w) with
        | Some taskIndex => setViewTasks w (<[taskIndex := updatedTask]> (viewTasks w))
        | None => w
        end)
  end;;
  saveCallback;;
  (if truthy (project task) then updateTaskInProjectFile task else mret ()).

(** The change handler of the checkbox of the task at index [i]. *)
Definition toggle (i : nat) (checked : bool) : M () :=
  ts ← gets viewTasks;
  match ts !! i with
  | None => mret ()
  | Some t =>
      let task := mkTask (name t) (tags t) (date t) checked (project t) (fileId t) in
      modifyWorld (λ w, setViewTasks w (<[i := task]> (viewTasks w)));;
      saveCallback;;
      (if truthy (project task) then updateTaskInProjectFile task else mret ());;
      (if truthy (fileId task) then updateTaskInFile task else mret ())
  end.

(** [a > b] on strings: the order of the code units. *)
Definition stringGt (a b : string) : bool := String.ltb b a.

(** The lists of the three tabs; [today] is the date of the day in the form
    YYYY-MM-DD, as the clock of the host gives it. *)
Definition getCompletedTasks (tasks : list TaskData) : list TaskData :=
  List.filter (λ task, checklist task) tasks.

Definition getTodayTasks (today : string) (tasks : list TaskData) : list TaskData :=
  List.filter (λ task, String.eqb (date task) today && negb (checklist task)) tasks.

Definition getScheduledTasks (today : string) (tasks : list TaskData) : list TaskData :=
  List.filter (λ task, stringGt (date task) today && negb (checklist task)) tasks.

End ReminderView.

(** The edit flow: the update button of the edit modal opened on [task] by
    the list view. *)
Definition editFlow (this : EditTaskModal.t) : M () :=
  EditTaskModal.submitTask this (ReminderView.editCallback (EditTaskModal.originalTask this)).

(** The delete flow: the delete button of that modal. *)
Definition deleteFlow (this : EditTaskModal.t) : M () :=
  EditTaskModal.deleteTask this (ReminderView.editCallback (EditTaskModal.originalTask this)).

(** The create flow: the button of the create modal opened by the list
    view. *)
Definition createFlow (this : TaskModal.t) : M () :=
  TaskModal.submitTask this ReminderView.addTask.

(** ** Vocabulary of the statements *)

(** A text is a single line when it holds no line feed. *)
Definition oneLine (s : string) : Prop := JS.split s = [s].

(** [i] is the index of the first heading line of [lines]. *)
Definition firstHeadingAt (lines : list string) (i : nat) : Prop :=
  (∃ heading, lines !! i = Some heading ∧ isTasksHeading heading = true) ∧
  (∀ j line, j < i → lines !! j = Some line → isTasksHeading line = false).

(** The text of a document after each mutator: UpdateInPlace of the edit
    modal, UpdateInPlace of the list view, and Remove. *)
Definition updateInPlace (matchName : string) (task : TaskData) (content : string) : string :=
  textAfter content (updateStep matchName task content).

Definition updateInPlaceWhole (task : TaskData) (content : string) : string :=
  textAfter content (updateWholeStep task content).

Definition remove (taskName : string) (content : string) : string :=
  textAfter content (removeStep taskName content).

(** The line at index [j] belongs to the section: it comes after the first
    heading line, and neither it nor a line between the heading and it starts
    with the heading marker. *)
Definition inSection (lines : list string) (j : nat) : Prop :=
  ∃ tasksIndex,
    firstHeadingAt lines tasksIndex ∧ tasksIndex < j ∧
    (∀ k line, tasksIndex < k ≤ j → lines !! k = Some line →
               JS.startsWith "#" line = false).

(** A computation that leaves the documents alone: no call of
    [app.vault.modify], no content changed. *)
Definition quiet {A} (m : M A) : Prop :=
  ∀ w, store (m w).2 = store w ∧ writes (m w).2 = writes w.

(** A computation that leaves the list of the view alone. *)
Definition keepsTasks {A} (m : M A) : Prop :=
  ∀ w, viewTasks (m w).2 = viewTasks w.

(** A vault with one project document, and a view that shows [tasks]. *)
Definition planFile : TFile :=
  mkFile "Projects/Plan.md" "Plan" (Some (FmString "Project")).

Definition worldWith (content : string) (tasks : list TaskData) : World :=
  mkWorld [planFile] {[ "Projects/Plan.md" := content ]} [] [] [] false tasks None tasks.

(** A document on which an update or a remove keyed by [n] has nothing to
    do: it has no heading line, or none of its lines is matched by [n]. *)
Definition nothingToDo (n : string) (content : string) : Prop :=
  JS.findIndex isTasksHeading (JS.split content) = None ∨
  Forall (λ line, Regex.taskRegex n line = false) (JS.split content).

(** A computation that never throws. *)
Definition returns {A} (m : M A) : Prop :=
  ∀ w, ∃ a w', m w = (Returned a, w').

(** The list after a computation is [f] of the list before it. *)
Definition mapsTasks {A} (f : list TaskData → list TaskData) (m : M A) : Prop :=
  ∀ w, viewTasks (m w).2 = f (viewTasks w).

(** The text of the tags in an encoded line: each tag after a space and
    the marker. *)
Fixpoint tagsText (tags : list string) : string :=
  match tags with
  | [] => ""
  | tag :: tags' => " #" +:+ tag +:+ tagsText tags'
  end.

(** The text of the date in an encoded line. *)
Definition dateText (date : string) : string :=
  if JS.isEmpty date then "" else " (" +:+ date +:+ ")".

Fixpoint spaces (n : nat) : string :=
  match n with
  | 0 => ""
  | S n' => String " " (spaces n')
  end.

(** The text is empty or starts with white space. *)
Definition spaceFirst (s : string) : bool :=
  match s with
  | "" => true
  | String c _ => JS.isWhiteSpace c
  end.

(** The conditions of the round trip. The name holds no token of the tag
    expression and no parenthesized date; a date has the form of the date
    expression. *)
Definition noTagToken (s : string) : Prop := Regex.matchTags s = [].
Definition noDateLike (s : string) : Prop := Regex.matchDate s = None.
Definition isDate (d : string) : Prop := Regex.matchClasses Regex.datePattern d = Some (d, "").
Definition noWhiteSpace (s : string) : Prop :=
  JS.allChars (λ c, negb (JS.isWhiteSpace c)) s = true.
Definition noLineTerminator (s : string) : Prop :=
  JS.allChars (λ c, negb (JS.isLineTerminator c)) s = true.

(** A character that the date expression takes. *)
Definition dateChar (c : ascii) : bool := JS.isDigit c || Regex.isChar "-" c.

(** Two lists of tags with the same elements. *)
Definition sameTags (a b : list string) : Prop := ∀ tag, tag ∈ a ↔ tag ∈ b.

(** Decoding an encoded line the way the code reads it back: as the only
    line under the heading of a document. *)
Definition decodeInDocument (line : string) : option TaskData :=
  match parseProjectTasks ("## Tasks" +:+ JS.NL +:+ line) with
  | [task] => Some task
  | _ => None
  end.

(** The round trip of the claim, for a way of decoding. *)
Definition roundTrip (decode : string → option TaskData) (t : TaskData) : Prop :=
  ∃ t', decode (formatTaskLine t) = Some t' ∧
        checklist t' = checklist t ∧ date t' = date t ∧ sameTags (tags t') (tags t).

(** The records on which the round trip holds: the conditions of the claim
    on the name, and the shape of the other fields that the expressions of
    the decoder assume. *)
Definition roundTripDomain (t : TaskData) : Prop :=
  name t ≠ "" ∧ noLineTerminator (name t) ∧
  noTagToken (name t) ∧ noDateLike (name t) ∧
  Forall (λ tag, tag ≠ "" ∧ noWhiteSpace tag) (tags t) ∧
  (date t = "" ∨ isDate (date t)).

(** The text of a document after the remove of the origin file. *)
Definition removeWhole (taskName : string) (content : string) : string :=
  textAfter content (removeWholeStep taskName content).

(** A computation that leaves the observation [f] of the world as it
    was. *)
Definition keeps {A B} (f : World → B) (m : M A) : Prop :=
  ∀ w, f (m w).2 = f w.

(** An observation of the world that depends neither on the documents nor
    on the console. *)
Definition aside {B} (f : World → B) : Prop :=
  (∀ w s ws, f (setStore w s ws) = f w) ∧ (∀ w c, f (setConsole w c) = f w).


(** The numbers of a date of the form YYYY-MM-DD. *)
Definition digitOf (c : ascii) : nat := nat_of_ascii c - 48.

Fixpoint numberOf (acc : nat) (s : string) : nat :=
  match s with
  | "" => acc
  | String c r => numberOf (10 * acc + digitOf c) r
  end.

Definition yearOf (d : string) : nat := numberOf 0 (String.substring 0 4 d).
Definition monthOf (d : string) : nat := numberOf 0 (String.substring 5 2 d).
Definition dayOf (d : string) : nat := numberOf 0 (String.substring 8 2 d).

(** The day [a] comes before the day [b]. *)
Definition earlier (a b : string) : Prop :=
  yearOf a < yearOf b ∨
  (yearOf a = yearOf b ∧
   (monthOf a < monthOf b ∨ (monthOf a = monthOf b ∧ dayOf a < dayOf b))).

(** The test of the filter of Remove on the lines after the heading. *)
Definition keptByRemove (n : string) (line : string) : bool :=
  if JS.startsWith "#" line then true else negb (Regex.taskRegex n line).

(** A token of the tag expression: the marker and at least one character,
    none of them white space. *)
Definition tagToken (token : string) : Prop :=
  ∃ tag, token = String "#" tag ∧ tag ≠ "" ∧ noWhiteSpace tag.

(** The two lists of tasks: the one the view shows and the one the plugin
    has saved. *)
Definition lists (w : World) : list TaskData * list TaskData :=
  (viewTasks w, saved w).

(** After the computation the observation [f] is [h] of what it was. *)
Definition maps {A B} (f : World → B) (h : B → B) (m : M A) : Prop :=
  ∀ w, f (m w).2 = h (f w).

(** The list of the view without the records that share the name and the
    date of [task], and with the first such record replaced by [updated]. *)
Definition withoutTask (task : TaskData) (ts : list TaskData) : list TaskData :=
  List.filter (λ t, negb (ReminderView.sameNameAndDate task t)) ts.

Definition withReplaced (task updated : TaskData) (ts : list TaskData) : list TaskData :=
  match JS.findIndex (ReminderView.sameNameAndDate task) ts with
  | Some taskIndex => <[taskIndex := updated]> ts
  | None => ts
  end.

(** What the mutators and the handlers of the view leave alone: the two
    lists, the field of the view that is never assigned, the state of the
    modal. *)
Definition besideDocuments (w : World)
  : list TaskData * list TaskData * option (list TFile) * bool :=
  (viewTasks w, saved w, viewProjectFiles w, modalClosed w).

(** Insert cannot be done: no project file has the basename, or the file
    cannot be read, or its text has no heading line. *)
Definition cannotInsert (files : list TFile) (task : TaskData) (w : World) : Prop :=
  match JS.find (hasBasename (project task)) files with
  | None => True
  | Some file =>
      match store w !! path file with
      | None => True
      | Some content => JS.findIndex isTasksHeading (JS.split content) = None
      end
  end.

(** A tag without marker. *)
Definition noMarker (tag : string) : Prop :=
  JS.allChars (λ c, negb (Ascii.eqb c "#")) tag = true.

(** An open task whose date sorts before the day: no tab shows it. *)
Definition overdue (today : string) (t : TaskData) : Prop :=
  checklist t = false ∧ ReminderView.stringGt today (date t) = true.

(** The computation [m], run in [w] on the document of [file] with text
    [content], does to the documents what the decision [e] says: the text of
    that document and of no other is replaced, by one call of
    [app.vault.modify] when [e] is a change and by none otherwise. *)
Definition editsDocument {A} (m : M A) (w : World) (file : TFile) (content : string)
    (e : edit) : Prop :=
  store (m w).2 = <[path file := textAfter content e]> (store w) ∧
  writes (m w).2 = writes w ++ match e with
                                | Changed text => [(path file, text)]
                                | _ => []
                                end.

(** [getProjectFiles] can read the frontmatter of the files: the [type]
    entry of each is absent or a string. *)
Definition typesReadable (files : list TFile) : Prop :=
  Forall (λ file, frontmatterType file ≠ Some FmOther) files.

(** The line function of a mutator hands a text to [app.vault.modify]. *)
Definition writesText (e : edit) : Prop := ∃ text, e = Changed text.

(** * Properties *)

(** ** Strings and lines *)

Section Strings.
Import JS.
#[local] Arguments String.append !_ _ / : simpl nomatch.

Lemma app_empty_r (s : string) : s +:+ "" = s.
Proof. induction s as [|c s IH]; simpl; [done | by rewrite IH]. Qed.

Lemma app_assoc' (a b c : string) : (a +:+ b) +:+ c = a +:+ b +:+ c.
Proof. induction a as [|x a IH]; simpl; [done | by rewrite IH]. Qed.

Lemma split_nonempty (s : string) : split s ≠ [].
Proof.
  induction s as [|c s IH]; simpl; [done |].
  destruct (Ascii.eqb c nl); [done |]. by destruct (split s).
Qed.

(** A line feed between two texts separates their lines. *)
Lemma split_app_cons_nl (a b : string) :
  split (a +:+ String nl b) = split a ++ split b.
Proof.
  induction a as [|c a IH]; simpl.
  - done.
  - rewrite IH. destruct (Ascii.eqb c nl); [done |].
    pose proof (split_nonempty a). by destruct (split a).
Qed.

Lemma split_app_nl (a b : string) : split (a +:+ NL +:+ b) = split a ++ split b.
Proof. apply split_app_cons_nl. Qed.

Lemma oneLine_cons (c : ascii) (s : string) :
  oneLine (String c s) ↔ c ≠ nl ∧ oneLine s.
Proof.
  unfold oneLine. simpl. destruct (Ascii.eqb_spec c nl) as [->|Hc].
  - split; [by intros [= ?] | by intros [? _]].
  - pose proof (split_nonempty s). destruct (split s) as [|l ls] eqn:E; [done|].
    split.
    + intros [= -> ->]. done.
    + intros [_ [= -> ->]]. done.
Qed.

Lemma oneLine_empty : oneLine "".
Proof. done. Qed.

Lemma oneLine_app (a b : string) : oneLine (a +:+ b) ↔ oneLine a ∧ oneLine b.
Proof.
  induction a as [|c a IH]; simpl.
  - split; [intros; split; [apply oneLine_empty | done] | by intros [_ ?]].
  - rewrite !oneLine_cons, IH. tauto.
Qed.

Lemma split_lines_oneLine (s : string) : Forall oneLine (split s).
Proof.
  induction s as [|c s IH]; simpl.
  - repeat constructor.
  - destruct (Ascii.eqb_spec c nl) as [->|Hc].
    + constructor; [apply oneLine_empty | done].
    + pose proof (split_nonempty s). destruct (split s) as [|l ls]; [done|].
      inversion IH; subst. constructor; [|done]. by apply oneLine_cons.
Qed.

Lemma join_cons (l : string) (ls : list string) :
  ls ≠ [] → join (l :: ls) = l +:+ NL +:+ join ls.
Proof. by destruct ls. Qed.

Lemma join_split (s : string) : join (split s) = s.
Proof.
  induction s as [|c s IH]; [done |].
  pose proof (split_nonempty s) as Hne. simpl split.
  destruct (Ascii.eqb_spec c nl) as [->|Hc].
  - rewrite join_cons by done. by rewrite IH.
  - destruct (split s) as [|l ls] eqn:E; [done |].
    destruct ls as [|l' ls].
    + unfold join in *. simpl in *. by rewrite IH.
    + rewrite join_cons by done. rewrite join_cons in IH by done.
      by rewrite <- IH.
Qed.

(** Splitting joined lines splits each of them. *)
Lemma split_join (ls : list string) :
  ls ≠ [] → split (join ls) = ls ≫= split.
Proof.
  induction ls as [|l ls IH]; [done |]. intros _.
  destruct ls as [|l' ls].
  - simpl. by rewrite app_nil_r.
  - rewrite join_cons by done. rewrite split_app_nl, IH by done. done.
Qed.

Lemma bind_split_oneLine (ls : list string) :
  Forall oneLine ls → ls ≫= split = ls.
Proof.
  induction 1 as [|l ls Hl _ IH]; [done |].
  change ((l :: ls) ≫= split) with (split l ++ (ls ≫= split)).
  by rewrite Hl, IH.
Qed.

Lemma split_join_oneLine (ls : list string) :
  ls ≠ [] → Forall oneLine ls → split (join ls) = ls.
Proof. intros. by rewrite split_join, bind_split_oneLine. Qed.

(** [findIndex] returns the first index whose element passes the test. *)
Lemma findIndex_Some {A} (p : A → bool) (xs : list A) (i : nat) :
  findIndex p xs = Some i ↔
  (∃ x, xs !! i = Some x ∧ p x = true) ∧
  (∀ j y, j < i → xs !! j = Some y → p y = false).
Proof.
  revert i. induction xs as [|x xs IH]; intros i; simpl.
  - split; [done | by intros [(? & ? & _) _]].
  - destruct (p x) eqn:Hx.
    + split.
      * intros [= <-]. split; [by exists x | lia].
      * intros [_ Hmin]. destruct i as [|i]; [done |].
        specialize (Hmin 0 x ltac:(lia) eq_refl). congruence.
    + destruct i as [|i].
      * split.
        -- destruct (findIndex p xs); by intros [=].
        -- intros [(y & Hy & Hpy) _]. simpl in Hy. congruence.
      * assert (S <$> findIndex p xs = Some (S i) ↔ findIndex p xs = Some i) as ->.
        { destruct (findIndex p xs); simpl; split; intros [=]; by subst. }
        rewrite IH. simpl. split; intros [Hex Hmin]; (split; [done |]).
        -- intros [|j] y Hj Hy; simpl in Hy; [congruence |].
           apply (Hmin j y); [lia | done].
        -- intros j y Hj Hy. apply (Hmin (S j) y); [lia | done].
Qed.

Lemma findIndex_None {A} (p : A → bool) (xs : list A) :
  findIndex p xs = None ↔ Forall (λ x, p x = false) xs.
Proof.
  induction xs as [|x xs IH]; simpl; [by split |].
  destruct (p x) eqn:Hx.
  - split; [done | inversion 1; congruence].
  - assert (S <$> findIndex p xs = None ↔ findIndex p xs = None) as ->
      by (by destruct (findIndex p xs)).
    rewrite IH. split; [intros; by constructor | by inversion 1].
Qed.

Lemma findIndex_lt {A} (p : A → bool) (xs : list A) (i : nat) :
  findIndex p xs = Some i → i < length xs.
Proof.
  intros [(x & Hx & _) _]%findIndex_Some. by eapply lookup_lt_Some.
Qed.

End Strings.

(** ** The encoder *)

Section Encoder.
Import JS.

(** The line of the modals is the line of the list view followed by a line
    feed. *)
Lemma formatTaskLine_inline (task : TaskData) :
  formatTaskLine task = inlineTaskLine task +:+ NL.
Proof.
  unfold formatTaskLine, inlineTaskLine. by rewrite !app_assoc'.
Qed.

Lemma split_formatTaskLine (task : TaskData) :
  split (formatTaskLine task) = split (inlineTaskLine task) ++ [""].
Proof.
  rewrite formatTaskLine_inline.
  rewrite <- (app_empty_r (inlineTaskLine task +:+ NL)), app_assoc'.
  apply split_app_nl.
Qed.

(** C6. Encoding the record named "Buy milk", tagged "home", dated
    2024-05-01 and not completed gives the line
    "- [ ] Buy milk #home (2024-05-01)" followed by one line feed, whatever
    its project and file. *)
Example formatTaskLine_scenario_A (p f : option string) :
  formatTaskLine (mkTask "Buy milk" ["home"] "2024-05-01" false p f)
  = "- [ ] Buy milk #home (2024-05-01)" +:+ NL.
Proof. reflexivity. Qed.

End Encoder.

(** ** Insert *)

Section Insert.
Import JS.

Lemma firstHeadingAt_findIndex (lines : list string) (i : nat) :
  firstHeadingAt lines i ↔ findIndex isTasksHeading lines = Some i.
Proof. symmetry. apply findIndex_Some. Qed.

Lemma splice_lookup {A} (i : nat) (x : A) (xs : list A) :
  i ≤ length xs → splice i x xs !! i = Some x.
Proof.
  intros Hi. unfold splice.
  rewrite lookup_app_r by (rewrite length_take; lia).
  rewrite length_take. by replace (i - i `min` length xs) with 0 by lia.
Qed.

Lemma splice_take {A} (i : nat) (x : A) (xs : list A) :
  i ≤ length xs → take i (splice i x xs) = take i xs.
Proof.
  intros Hi. unfold splice.
  rewrite take_app_le by (rewrite length_take; lia).
  rewrite take_take. f_equal. lia.
Qed.

Lemma splice_drop {A} (i : nat) (x : A) (xs : list A) :
  i ≤ length xs → drop (S i) (splice i x xs) = drop i xs.
Proof.
  intros Hi. unfold splice.
  rewrite drop_app_ge by (rewrite length_take; lia).
  rewrite length_take. by replace (S i - i `min` length xs) with 1 by lia.
Qed.

(** C4. When the first heading line of the line array is at index [i],
    Insert returns the array in which the encoded line of the task is the
    element at index [i + 1]: the lines up to and including the heading
    are as before, and all the lines that followed the heading, whatever
    they are, follow the new line. *)
Theorem appendLines_first_after_heading
    (task : TaskData) (lines : list string) (i : nat) :
  firstHeadingAt lines i →
  ∃ lines',
    appendLines task lines = Some lines' ∧
    lines' !! (i + 1) = Some (formatTaskLine task) ∧
    take (i + 1) lines' = take (i + 1) lines ∧
    drop (i + 2) lines' = drop (i + 1) lines ∧
    length lines' = S (length lines).
Proof.
  intros Hi. pose proof Hi as Hfind. apply firstHeadingAt_findIndex in Hfind.
  pose proof (findIndex_lt _ _ _ Hfind) as Hlt.
  exists (splice (i + 1) (formatTaskLine task) lines).
  unfold appendLines. rewrite Hfind. simpl.
  split; [done |]. split; [apply splice_lookup; lia |].
  split; [apply splice_take; lia |]. split.
  - replace (i + 2) with (S (i + 1)) by lia. apply splice_drop. lia.
  - unfold splice. rewrite length_app, length_take. simpl. rewrite length_drop. lia.
Qed.

Lemma appendLines_first_after_heading_witness :
  ∃ lines',
    appendLines (mkTask "Buy milk" ["home"] "2024-05-01" false (Some "Plan") None)
                ["# Plan"; "## Tasks"; "- [x] Older task"; "## Notes"] = Some lines' ∧
    lines' !! (1 + 1)
      = Some (formatTaskLine (mkTask "Buy milk" ["home"] "2024-05-01" false (Some "Plan") None)) ∧
    take (1 + 1) lines' = take (1 + 1) ["# Plan"; "## Tasks"; "- [x] Older task"; "## Notes"] ∧
    drop (1 + 2) lines' = drop (1 + 1) ["# Plan"; "## Tasks"; "- [x] Older task"; "## Notes"] ∧
    length lines' = S (length ["# Plan"; "## Tasks"; "- [x] Older task"; "## Notes"]).
Proof.
  apply (appendLines_first_after_heading _ _ 1).
  split.
  - exists "## Tasks". split; reflexivity.
  - intros [|j] line Hj Hline; [| lia].
    simpl in Hline. injection Hline as <-. reflexivity.
Defined.

(** C10. The encoded line always ends with a line feed, and Insert puts it
    into the line array as one element before the lines are joined with
    line feeds. So in the text a successful Insert writes, the lines of
    the encoded task are followed at once by an empty line, before the
    lines that followed the heading. *)
Theorem appendStep_leaves_empty_line
    (task : TaskData) (content : string) (i : nat) :
  firstHeadingAt (split content) i →
  ∃ body text,
    formatTaskLine task = body +:+ NL ∧
    appendLines task (split content)
      = Some (take (i + 1) (split content)
                ++ formatTaskLine task :: drop (i + 1) (split content)) ∧
    appendStep task content = Changed text ∧
    split text = take (i + 1) (split content)
                   ++ split body ++ "" :: drop (i + 1) (split content).
Proof.
  intros Hfind%firstHeadingAt_findIndex.
  exists (inlineTaskLine task),
         (join (splice (i + 1) (formatTaskLine task) (split content))).
  split; [apply formatTaskLine_inline |].
  unfold appendStep, appendLines. rewrite Hfind. simpl.
  split; [done |]. split; [done |].
  pose proof (split_lines_oneLine content) as Hone.
  unfold splice. rewrite split_join by (by destruct (take (i + 1) (split content))).
  rewrite bind_app, bind_cons, split_formatTaskLine.
  rewrite !bind_split_oneLine by (by apply Forall_take || by apply Forall_drop).
  by rewrite <- app_assoc.
Qed.

Lemma appendStep_leaves_empty_line_witness :
  ∃ body text,
    formatTaskLine (mkTask "Buy milk" [] "" false (Some "Plan") None) = body +:+ NL ∧
    appendLines (mkTask "Buy milk" [] "" false (Some "Plan") None)
                (split ("## Tasks" +:+ NL +:+ "- [x] Older task"))
      = Some (take (0 + 1) (split ("## Tasks" +:+ NL +:+ "- [x] Older task"))
                ++ formatTaskLine (mkTask "Buy milk" [] "" false (Some "Plan") None)
                :: drop (0 + 1) (split ("## Tasks" +:+ NL +:+ "- [x] Older task"))) ∧
    appendStep (mkTask "Buy milk" [] "" false (Some "Plan") None)
               ("## Tasks" +:+ NL +:+ "- [x] Older task") = Changed text ∧
    split text = take (0 + 1) (split ("## Tasks" +:+ NL +:+ "- [x] Older task"))
                   ++ split body
                   ++ "" :: drop (0 + 1) (split ("## Tasks" +:+ NL +:+ "- [x] Older task")).
Proof.
  apply (appendStep_leaves_empty_line _ _ 0).
  split.
  - exists "## Tasks". split; reflexivity.
  - intros j line Hj. lia.
Defined.

End Insert.

(** ** The line matcher *)

Section Matcher.
Import JS Regex.
#[local] Arguments String.append !_ _ / : simpl nomatch.

Lemma matchAtoms_literal (c : ascii) (pat s : string) :
  isSpecial c = false →
  matchAtoms (String c pat) s
  = match s with
    | String d s' => if Ascii.eqb d c then matchAtoms pat s' else None
    | "" => None
    end.
Proof.
  destruct c as [[] [] [] [] [] [] [] []]; intros Hc; try discriminate Hc;
    by destruct pat.
Qed.

Lemma matchAtoms_escaped (c : ascii) (pat s : string) :
  matchAtoms (String "\" (String c pat)) s
  = match s with
    | String d s' => if Ascii.eqb d c then matchAtoms pat s' else None
    | "" => None
    end.
Proof. done. Qed.

(** The escaped name, as a pattern, stands for the name itself. *)
Lemma matchAtoms_escapedTaskName (n s : string) (rest : string) :
  matchAtoms (escapedTaskName n) s = Some rest ↔ s = n +:+ rest.
Proof.
  revert s. induction n as [|c n IH]; intros s; simpl.
  - split; [by intros [= ->] | by intros ->].
  - assert (matchAtoms (if isSpecial c
                        then String "\" (String c (escapedTaskName n))
                        else String c (escapedTaskName n)) s
            = match s with
              | String d s' => if Ascii.eqb d c then matchAtoms (escapedTaskName n) s' else None
              | "" => None
              end) as ->.
    { destruct (isSpecial c) eqn:Hc;
        [apply matchAtoms_escaped | by apply matchAtoms_literal]. }
    destruct s as [|d s]; [done |].
    destruct (Ascii.eqb_spec d c) as [->|Hdc].
    + rewrite IH. split; [by intros -> | by intros [= ->]].
    + split; [done | intros [= ? _]; done].
Qed.

(** The test accepts exactly the lines that start with the checklist
    prefix, any character but a line terminator between the brackets, and
    the name, character for character. *)
Lemma taskRegex_spec (n line : string) :
  taskRegex n line = true ↔
  ∃ c rest, isLineTerminator c = false ∧
            line = "- [" +:+ String c ("] " +:+ n +:+ rest).
Proof.
  unfold taskRegex. rewrite bool_decide_eq_true. unfold is_Some.
  split.
  - intros [rest H]. simpl in H.
    repeat match type of H with
           | context [match ?l with "" => _ | String _ _ => _ end] =>
               destruct l as [|? l]; [done |]
           | context [if Ascii.eqb ?d ?c then _ else _] =>
               destruct (Ascii.eqb_spec d c) as [->|]; [| done]
           | context [if isLineTerminator ?d then _ else _] =>
               destruct (isLineTerminator d) eqn:?; [done |]
           end.
    apply matchAtoms_escapedTaskName in H as ->. eauto.
  - intros (c & rest & Hc & ->). exists rest. simpl. rewrite Hc.
    by apply matchAtoms_escapedTaskName.
Qed.

Lemma taskRegex_inlineTaskLine (task : TaskData) :
  taskRegex (name task) (inlineTaskLine task) = true.
Proof.
  apply taskRegex_spec. unfold inlineTaskLine.
  exists (if checklist task then "x" else " ")%char. eexists.
  split; [by destruct (checklist task) |].
  destruct (checklist task); reflexivity.
Qed.

End Matcher.

(** ** UpdateInPlace *)

Section Update.
Import JS Regex.
#[local] Arguments String.append !_ _ / : simpl nomatch.

(** The loop of the edit modal stops at the first matching line, and only
    when no heading comes before it. *)
Lemma sectionLoop_Some (m : string) (k : nat) (rest : list string) (i : nat) :
  sectionLoop m k rest = Some i →
  k ≤ i ∧
  (∃ line, rest !! (i - k) = Some line ∧ taskRegex m line = true) ∧
  (∀ j line, j ≤ i - k → rest !! j = Some line → startsWith "#" line = false).
Proof.
  revert k. induction rest as [|l rest IH]; intros k; simpl; [done |].
  destruct (startsWith "#" l) eqn:Hl; [done |].
  destruct (taskRegex m l) eqn:Hm.
  - intros [= <-]. replace (k - k) with 0 by lia.
    split; [lia |]. split; [by exists l |].
    intros [|j] line Hj Hline; [| lia]. simpl in Hline. congruence.
  - intros (Hk & Hex & Hsec)%IH. split; [lia |].
    replace (i - k) with (S (i - S k)) by lia. split; [done |].
    intros [|j] line Hj Hline; simpl in Hline; [congruence |].
    apply (Hsec j); [lia | done].
Qed.

Lemma sectionLoop_insert (m : string) (k : nat) (rest : list string) (i : nat) (new : string) :
  sectionLoop m k rest = Some i →
  startsWith "#" new = false →
  taskRegex m new = true →
  sectionLoop m k (<[i - k := new]> rest) = Some i.
Proof.
  intros H Hnew Hm. revert k H.
  induction rest as [|l rest IH]; intros k; simpl; [done |].
  destruct (startsWith "#" l) eqn:Hl; [done |].
  destruct (taskRegex m l) eqn:Hml.
  - intros [= <-]. replace (k - k) with 0 by lia. simpl. by rewrite Hnew, Hm.
  - intros H. pose proof (sectionLoop_Some _ _ _ _ H) as [Hk _].
    replace (i - k) with (S (i - S k)) by lia. simpl.
    rewrite Hl, Hml. by apply IH.
Qed.

(** The line the edit modal writes starts with the checklist dash. *)
Lemma trim_formatTaskLine_cons (task : TaskData) :
  ∃ r, trim (formatTaskLine task) = String "-" r.
Proof.
  unfold formatTaskLine. simpl. unfold trim. simpl. eauto.
Qed.

Lemma trim_formatTaskLine_not_heading (task : TaskData) :
  startsWith "#" (trim (formatTaskLine task)) = false.
Proof. by destruct (trim_formatTaskLine_cons task) as [r ->]. Qed.

(** UpdateInPlace of the edit modal changes one line, and that line lies in
    the section: after the first heading and with no line starting with the
    heading marker between the heading and it. *)
Lemma updateLines_frame (m : string) (task : TaskData) (lines lines' : list string) :
  updateLines m task lines = Some lines' →
  ∃ tasksIndex i,
    firstHeadingAt lines tasksIndex ∧
    tasksIndex < i < length lines ∧
    lines' = <[i := trim (formatTaskLine task)]> lines ∧
    (∃ line, lines !! i = Some line ∧ taskRegex m line = true) ∧
    (∀ j line, tasksIndex < j ≤ i → lines !! j = Some line → startsWith "#" line = false).
Proof.
  unfold updateLines. intros H.
  destruct (findIndex isTasksHeading lines) as [ti|] eqn:Hti; [simpl in H | done].
  destruct (sectionLoop m (ti + 1) (drop (ti + 1) lines)) as [i|] eqn:Hi;
    [simpl in H | done].
  injection H as <-.
  apply sectionLoop_Some in Hi as (Hle & (line & Hline & Hm) & Hsec).
  rewrite lookup_drop in Hline. replace (ti + 1 + (i - (ti + 1))) with i in Hline by lia.
  exists ti, i. split; [by apply firstHeadingAt_findIndex |].
  split; [apply lookup_lt_Some in Hline; lia |]. split; [done |].
  split; [by exists line |].
  intros j l Hj Hl. apply (Hsec (j - (ti + 1))); [lia |].
  rewrite lookup_drop. by replace (ti + 1 + (j - (ti + 1))) with j by lia.
Qed.

Lemma findIndex_insert_gt {A} (p : A → bool) (xs : list A) (i k : nat) (x : A) :
  findIndex p xs = Some k → k < i → findIndex p (<[i := x]> xs) = Some k.
Proof.
  intros [(y & Hy & Hpy) Hmin]%findIndex_Some Hk. apply findIndex_Some. split.
  - exists y. by rewrite list_lookup_insert_ne by lia.
  - intros j z Hj. rewrite list_lookup_insert_ne by lia. by apply Hmin.
Qed.

Lemma findIndex_insert_eq {A} (p : A → bool) (xs : list A) (i : nat) (x : A) :
  findIndex p xs = Some i → p x = true → findIndex p (<[i := x]> xs) = Some i.
Proof.
  intros Hfind Hx. pose proof (findIndex_lt _ _ _ Hfind) as Hlt.
  apply findIndex_Some in Hfind as [_ Hmin]. apply findIndex_Some. split.
  - exists x. by rewrite list_lookup_insert_eq.
  - intros j z Hj. rewrite list_lookup_insert_ne by lia. by apply Hmin.
Qed.

(** Running the update again on its own result finds the same line, when
    the line written is itself matched by the match name. *)
Lemma updateLines_again (m : string) (task : TaskData) (lines lines' : list string) :
  taskRegex m (trim (formatTaskLine task)) = true →
  updateLines m task lines = Some lines' →
  updateLines m task lines' = Some lines'.
Proof.
  intros Hm H. unfold updateLines in *.
  destruct (findIndex isTasksHeading lines) as [ti|] eqn:Hti; [simpl in H | done].
  destruct (sectionLoop m (ti + 1) (drop (ti + 1) lines)) as [i|] eqn:Hi;
    [simpl in H | done].
  injection H as <-.
  pose proof (sectionLoop_Some _ _ _ _ Hi) as [Hle _].
  rewrite (findIndex_insert_gt _ _ _ _ _ Hti) by lia. simpl.
  rewrite drop_insert_ge by lia.
  rewrite (sectionLoop_insert _ _ _ _ _ Hi (trim_formatTaskLine_not_heading task) Hm).
  simpl. by rewrite list_insert_insert_eq.
Qed.

Lemma updateWholeLines_again (task : TaskData) (lines lines' : list string) :
  updateWholeLines task lines = Some lines' →
  updateWholeLines task lines' = Some lines'.
Proof.
  unfold updateWholeLines, wholeLoop. intros H.
  destruct (findIndex (taskRegex (name task)) lines) as [i|] eqn:Hi; [simpl in H | done].
  injection H as <-.
  rewrite (findIndex_insert_eq _ _ _ _ Hi (taskRegex_inlineTaskLine task)).
  simpl. by rewrite list_insert_insert_eq.
Qed.

Lemma Forall_oneLine_insert (lines : list string) (i : nat) (new : string) :
  oneLine new → Forall oneLine lines → Forall oneLine (<[i := new]> lines).
Proof. intros. by apply Forall_insert. Qed.

Lemma insert_nonempty {A} (xs : list A) (i : nat) (x : A) : xs ≠ [] → <[i := x]> xs ≠ [].
Proof. destruct xs; [done |]. by destruct i. Qed.

End Update.

(** ** Idempotence of UpdateInPlace *)

Section Idempotence.
Import JS Regex.
#[local] Arguments String.append !_ _ / : simpl nomatch.

Lemma trimEnd_app_NL (s : string) : trimEnd (s +:+ NL) = trimEnd s.
Proof. induction s as [|c s IH]; simpl; [done | by rewrite IH]. Qed.

Lemma trimEnd_prefix (s : string) : ∃ r, s = trimEnd s +:+ r.
Proof.
  induction s as [|c s [r IH]]; simpl; [by exists "" |].
  destruct (isWhiteSpace c && isEmpty (trimEnd s)).
  - by eexists.
  - exists r. simpl. by rewrite <- IH.
Qed.

Lemma oneLine_trimEnd (s : string) : oneLine s → oneLine (trimEnd s).
Proof.
  intros Hs. destruct (trimEnd_prefix s) as [r Hr]. rewrite Hr in Hs.
  by apply oneLine_app in Hs as [? _].
Qed.

(** What the edit modal writes is the line of the list view without its
    trailing white space. *)
Lemma trim_formatTaskLine (task : TaskData) :
  trim (formatTaskLine task) = trimEnd (inlineTaskLine task).
Proof.
  rewrite formatTaskLine_inline. unfold trim.
  assert (trimStart (inlineTaskLine task +:+ NL) = inlineTaskLine task +:+ NL) as ->
    by done.
  apply trimEnd_app_NL.
Qed.

Lemma updateInPlace_again (m : string) (task : TaskData) (content : string) :
  taskRegex m (trim (formatTaskLine task)) = true →
  oneLine (inlineTaskLine task) →
  updateInPlace m task (updateInPlace m task content) = updateInPlace m task content.
Proof.
  intros Hm Hone. unfold updateInPlace.
  destruct (updateStep m task content) as [| |text] eqn:E; simpl; try by rewrite E.
  unfold updateStep in E.
  destruct (findIndex isTasksHeading (split content)) as [ti|] eqn:Hti; [| done].
  destruct (updateLines m task (split content)) as [lines'|] eqn:Hup; [| done].
  injection E as <-.
  pose proof (updateLines_again _ _ _ _ Hm Hup) as Hagain.
  apply updateLines_frame in Hup as (? & i & _ & _ & Hl & _).
  assert (split (join lines') = lines') as Hsplit.
  { subst lines'. apply split_join_oneLine.
    - apply insert_nonempty, split_nonempty.
    - apply Forall_oneLine_insert; [| apply split_lines_oneLine].
      rewrite trim_formatTaskLine. by apply oneLine_trimEnd. }
  unfold updateStep. rewrite Hsplit, Hagain.
  unfold updateLines in Hagain.
  by destruct (findIndex isTasksHeading lines').
Qed.

Lemma updateInPlaceWhole_again (task : TaskData) (content : string) :
  oneLine (inlineTaskLine task) →
  updateInPlaceWhole task (updateInPlaceWhole task content)
  = updateInPlaceWhole task content.
Proof.
  intros Hone. unfold updateInPlaceWhole.
  destruct (updateWholeStep task content) as [| |text] eqn:E; simpl; try by rewrite E.
  unfold updateWholeStep in E.
  destruct (updateWholeLines task (split content)) as [lines'|] eqn:Hup; [| done].
  injection E as <-.
  pose proof (updateWholeLines_again _ _ _ Hup) as Hagain.
  assert (split (join lines') = lines') as Hsplit.
  { unfold updateWholeLines in Hup.
    destruct (wholeLoop (name task) (split content)); [simpl in Hup | done].
    injection Hup as <-. apply split_join_oneLine.
    - apply insert_nonempty, split_nonempty.
    - apply Forall_oneLine_insert; [done | apply split_lines_oneLine]. }
  unfold updateWholeStep. by rewrite Hsplit, Hagain.
Qed.

(** C7, as the claim states it, fails: when the task is renamed and two lines
    of the section carry the old name, the first call rewrites the first of
    them and the second call, finding the old name again, rewrites the
    other. *)
Lemma updateInPlace_twice_differs :
  let task := mkTask "Buy oat milk" [] "" false (Some "Plan") None in
  let content := "## Tasks" +:+ NL +:+ "- [ ] Buy milk" +:+ NL +:+ "- [ ] Buy milk" in
  updateInPlace "Buy milk" task content
    = "## Tasks" +:+ NL +:+ "- [ ] Buy oat milk" +:+ NL +:+ "- [ ] Buy milk" ∧
  updateInPlace "Buy milk" task (updateInPlace "Buy milk" task content)
    = "## Tasks" +:+ NL +:+ "- [ ] Buy oat milk" +:+ NL +:+ "- [ ] Buy oat milk" ∧
  updateInPlace "Buy milk" task (updateInPlace "Buy milk" task content)
    ≠ updateInPlace "Buy milk" task content.
Proof. vm_compute. repeat split; discriminate. Qed.

(** When a text does not end in white space, trimming what follows it
    leaves it alone. *)
Lemma trimEnd_app_plain (s r : string) :
  s ≠ "" → trimEnd s = s → trimEnd (s +:+ r) = s +:+ trimEnd r.
Proof.
  induction s as [|c s IH]; [done |]. intros _ Htrim. simpl in Htrim. simpl.
  destruct s as [|c' s'].
  - simpl in *. destruct (isWhiteSpace c); [done | reflexivity].
  - destruct (isWhiteSpace c && isEmpty (trimEnd (String c' s'))); [done |].
    injection Htrim as Htrim. rewrite (IH ltac:(done) Htrim).
    simpl. by rewrite andb_false_r.
Qed.

(** The line the edit modal writes is matched by the name of the task when
    the name is not empty and does not end in white space. *)
Lemma taskRegex_trimmed_line (task : TaskData) :
  name task ≠ "" → trimEnd (name task) = name task →
  taskRegex (name task) (trim (formatTaskLine task)) = true.
Proof.
  intros Hne Hplain. rewrite trim_formatTaskLine. apply taskRegex_spec.
  unfold inlineTaskLine.
  exists (if checklist task then "x" else " ")%char. eexists.
  split; [by destruct (checklist task) |].
  destruct (checklist task); simpl;
    rewrite (trimEnd_app_plain _ _ Hne Hplain);
    destruct (name task) as [|c n]; try done; simpl; rewrite !andb_false_r;
    reflexivity.
Qed.

(** C7, amended. For a task whose encoded line holds no line feed, applying
    UpdateInPlace twice with the same arguments gives the text that applying
    it once gives: for the update of the list view always; for the update of
    the edit modal when the line it writes is itself matched by the match
    name; and this is so when the match name is the name of the task,
    provided the name is not empty and does not end in white space. *)
Theorem updateInPlace_idempotent (m : string) (task : TaskData) (content : string) :
  oneLine (inlineTaskLine task) →
  updateInPlaceWhole task (updateInPlaceWhole task content)
  = updateInPlaceWhole task content ∧
  (taskRegex m (trim (formatTaskLine task)) = true →
   updateInPlace m task (updateInPlace m task content) = updateInPlace m task content) ∧
  (name task ≠ "" → trimEnd (name task) = name task →
   updateInPlace (name task) task (updateInPlace (name task) task content)
   = updateInPlace (name task) task content).
Proof.
  intros Hone. split; [| split].
  - by apply updateInPlaceWhole_again.
  - intros Hm. by apply updateInPlace_again.
  - intros Hne Hplain. apply updateInPlace_again; [| done].
    by apply taskRegex_trimmed_line.
Qed.

Lemma updateInPlace_idempotent_witness :
  let task := mkTask "Buy oat milk" ["home"] "2024-05-01" true (Some "Plan") None in
  let content := "## Tasks" +:+ NL +:+ "- [ ] Buy oat milk" +:+ NL +:+ "## Notes" in
  oneLine (inlineTaskLine task) ∧
  taskRegex "Buy oat" (trim (formatTaskLine task)) = true ∧
  name task ≠ "" ∧ trimEnd (name task) = name task ∧
  updateInPlaceWhole task (updateInPlaceWhole task content)
  = updateInPlaceWhole task content ∧
  updateInPlace "Buy oat" task (updateInPlace "Buy oat" task content)
  = updateInPlace "Buy oat" task content ∧
  updateInPlace (name task) task (updateInPlace (name task) task content)
  = updateInPlace (name task) task content.
Proof.
  assert (oneLine (inlineTaskLine
                     (mkTask "Buy oat milk" ["home"] "2024-05-01" true (Some "Plan") None)))
    as Hone by reflexivity.
  destruct (updateInPlace_idempotent "Buy oat"
              (mkTask "Buy oat milk" ["home"] "2024-05-01" true (Some "Plan") None)
              ("## Tasks" +:+ NL +:+ "- [ ] Buy oat milk" +:+ NL +:+ "## Notes") Hone)
    as (Hwhole & Hmodal & Hname).
  split; [exact Hone |]. split; [reflexivity |]. split; [discriminate |].
  split; [reflexivity |]. split; [exact Hwhole |].
  split; [apply Hmodal; reflexivity | apply Hname; [discriminate | reflexivity]].
Defined.

(** The condition on the name is needed: a name that ends in white space
    is cut by the trim, the line written is no longer matched by the name,
    and a second call rewrites the next line that carries it. *)
Example updateInPlace_twice_differs_trailing_space :
  let task := mkTask "Buy milk " [] "" false (Some "Plan") None in
  let content := "## Tasks" +:+ NL +:+ "- [ ] Buy milk " +:+ NL +:+ "- [ ] Buy milk " in
  taskRegex (name task) (trim (formatTaskLine task)) = false ∧
  updateInPlace (name task) task content
    = "## Tasks" +:+ NL +:+ "- [ ] Buy milk" +:+ NL +:+ "- [ ] Buy milk " ∧
  updateInPlace (name task) task (updateInPlace (name task) task content)
    = "## Tasks" +:+ NL +:+ "- [ ] Buy milk" +:+ NL +:+ "- [ ] Buy milk".
Proof. vm_compute. done. Qed.

(** The condition on line feeds is needed: a tag that holds a line feed
    makes the written line two lines of the text, and a second call appends
    the second of them again. *)
Example updateInPlaceWhole_twice_differs :
  let task := mkTask "Buy milk" ["a" +:+ NL +:+ "b"] "" false (Some "Plan") None in
  let content := "- [ ] Buy milk" in
  updateInPlaceWhole task content = "- [ ] Buy milk #a" +:+ NL +:+ "b" ∧
  updateInPlaceWhole task (updateInPlaceWhole task content)
  = "- [ ] Buy milk #a" +:+ NL +:+ "b" +:+ NL +:+ "b".
Proof. split; reflexivity. Qed.

End Idempotence.

(** ** Section scoping *)

Section Scoping.
Import JS Regex.

(** UpdateInPlace of the edit modal changes no line outside the section. *)
Lemma updateLines_outside_section
    (m : string) (task : TaskData) (lines lines' : list string) (j : nat) :
  updateLines m task lines = Some lines' →
  ¬ inSection lines j →
  lines' !! j = lines !! j.
Proof.
  intros (ti & i & Hti & Hi & -> & _ & Hsec)%updateLines_frame Hout.
  destruct (decide (i = j)) as [<-|Hne]; [| by apply list_lookup_insert_ne].
  destruct Hout. exists ti. split; [done |]. split; [lia | done].
Qed.

Lemma filterFrom_after {A} (q : A → bool) (ti k : nat) (xs : list A) :
  filterFrom (λ x index, if index <=? ti then true else q x) k xs
  = take (S ti - k) xs ++ List.filter q (drop (S ti - k) xs).
Proof.
  revert k. induction xs as [|x xs IH]; intros k; simpl.
  - by rewrite take_nil, drop_nil.
  - destruct (Nat.leb_spec k ti) as [Hk|Hk].
    + rewrite IH. replace (S ti - k) with (S (S ti - S k)) by lia. done.
    + rewrite IH. replace (S ti - S k) with 0 by lia.
      replace (ti - k) with 0 by lia. replace (S ti - k) with 0 by lia.
      simpl. rewrite drop_0. by destruct (q x).
Qed.

(** Remove keeps every line up to and including the heading, and filters
    all the lines after it, to the end of the document: of those it keeps the
    lines that start with the heading marker and the lines the matcher
    refuses. *)
Lemma removeLines_spec (n : string) (lines lines' : list string) :
  removeLines n lines = Some lines' ↔
  ∃ tasksIndex,
    firstHeadingAt lines tasksIndex ∧
    lines' = take (S tasksIndex) lines
             ++ List.filter (λ line, if startsWith "#" line then true
                                     else negb (taskRegex n line))
                            (drop (S tasksIndex) lines).
Proof.
  unfold removeLines. split.
  - destruct (findIndex isTasksHeading lines) as [ti|] eqn:Hti; [simpl | done].
    intros [= <-]. exists ti. split; [by apply firstHeadingAt_findIndex |].
    rewrite (filterFrom_after _ ti 0). by replace (S ti - 0) with (S ti) by lia.
  - intros (ti & Hti%firstHeadingAt_findIndex & ->). rewrite Hti. simpl.
    rewrite (filterFrom_after _ ti 0). by replace (S ti - 0) with (S ti) by lia.
Qed.

(** C1 fails on the code. Remove deletes a matching line of a later
    section, and UpdateInPlace of the list view rewrites a matching line
    that comes before the heading. *)
Theorem mutators_reach_outside_section :
  removeLines "Buy milk"
    ["## Tasks"; "- [ ] Buy milk"; "## Notes"; "- [ ] Buy milk"]
  = Some ["## Tasks"; "## Notes"] ∧
  updateWholeLines (mkTask "Buy milk" [] "" true (Some "Plan") None)
    ["## Ideas"; "- [ ] Buy milk"; "## Tasks"; "- [ ] Buy milk"]
  = Some ["## Ideas"; "- [x] Buy milk"; "## Tasks"; "- [ ] Buy milk"].
Proof. split; reflexivity. Qed.

End Scoping.

(** ** Writes *)

Section Writes.
Import JS Regex.

Lemma sectionLoop_no_match (m : string) (k : nat) (rest : list string) :
  Forall (λ line, taskRegex m line = false) rest → sectionLoop m k rest = None.
Proof.
  intros H. revert k. induction H as [|l rest Hl _ IH]; intros k; simpl; [done |].
  rewrite Hl. by destruct (startsWith "#" l).
Qed.

Lemma filter_all {A} (q : A → bool) (xs : list A) :
  Forall (λ x, q x = true) xs → List.filter q xs = xs.
Proof. induction 1 as [|x xs Hx _ IH]; simpl; [done | by rewrite Hx, IH]. Qed.

Lemma updateStep_nothingToDo (m : string) (task : TaskData) (content text : string) :
  nothingToDo m content → updateStep m task content ≠ Changed text.
Proof.
  unfold updateStep, updateLines. intros [Hno | Hno].
  - by rewrite Hno.
  - destruct (findIndex isTasksHeading (split content)) as [ti|]; [simpl | done].
    rewrite sectionLoop_no_match; [done | by apply Forall_drop].
Qed.

Lemma removeStep_nothingToDo (n : string) (content text : string) :
  nothingToDo n content → removeStep n content ≠ Changed text.
Proof.
  unfold removeStep. intros [Hno | Hno].
  - unfold removeLines. by rewrite Hno.
  - destruct (removeLines n (split content)) as [lines'|] eqn:E; [| done].
    apply removeLines_spec in E as (ti & _ & ->).
    rewrite filter_all, take_drop, Nat.eqb_refl; [done |].
    apply Forall_drop. eapply Forall_impl; [exact Hno |].
    intros l ->. by destruct (startsWith "#" l).
Qed.

(** With nothing to do, the text of the document stays as it is. *)
Lemma updateInPlace_nothingToDo (m : string) (task : TaskData) (content : string) :
  nothingToDo m content → updateInPlace m task content = content.
Proof.
  intros H. unfold updateInPlace.
  pose proof (updateStep_nothingToDo m task content) as Hstep.
  destruct (updateStep m task content) as [| |text]; [done | done |].
  by destruct (Hstep text H).
Qed.

Lemma remove_nothingToDo (n : string) (content : string) :
  nothingToDo n content → remove n content = content.
Proof.
  intros H. unfold remove.
  pose proof (removeStep_nothingToDo n content) as Hstep.
  destruct (removeStep n content) as [| |text]; [done | done |].
  by destruct (Hstep text H).
Qed.

(** The update of the list view looks for no heading: only the absence of a
    matching line keeps it from writing. *)
Lemma updateWholeStep_no_match (task : TaskData) (content text : string) :
  Forall (λ line, taskRegex (name task) line = false) (split content) →
  updateWholeStep task content ≠ Changed text.
Proof.
  intros Hno%findIndex_None. unfold updateWholeStep, updateWholeLines, wholeLoop.
  by rewrite Hno.
Qed.

Lemma quiet_consoleError (msg : string) : quiet (consoleError msg).
Proof. done. Qed.

Lemma quiet_mret {A} (a : A) : quiet (mret a : M A).
Proof. done. Qed.

(** Reading a document and finding nothing to change in it writes
    nothing. *)
Lemma applyEdit_no_write (file : TFile) (step : string → edit) (noSection : M ()) (w : World) :
  quiet noSection →
  (∀ content text, store w !! path file = Some content → step content ≠ Changed text) →
  store (applyEdit file step noSection w).2 = store w ∧
  writes (applyEdit file step noSection w).2 = writes w.
Proof.
  intros Hq Hstep. unfold applyEdit, mbind, M_bind, vaultRead.
  destruct (store w !! path file) as [content|] eqn:E; [| done].
  specialize (Hstep content). destruct (step content) as [| |text]; [apply Hq | done |].
  by destruct (Hstep text).
Qed.

Lemma tryCatch_applyEdit_no_write
    (file : TFile) (step : string → edit) (noSection : M ()) (msg : string) (w : World) :
  quiet noSection →
  (∀ content text, store w !! path file = Some content → step content ≠ Changed text) →
  let w' := (tryCatch (applyEdit file step noSection) (λ _, consoleError msg) w).2 in
  store w' = store w ∧ writes w' = writes w.
Proof.
  intros Hq Hstep. pose proof (applyEdit_no_write file step noSection w Hq Hstep) as H.
  unfold tryCatch. by destruct (applyEdit file step noSection w) as [[[]|e] w'].
Qed.

(** The update and the remove of the edit modal write nothing when every
    document has no heading or no matching line. *)
Lemma updateInProjectFile_no_write (this : EditTaskModal.t) (task : TaskData) (w : World) :
  (∀ p content, store w !! p = Some content →
                nothingToDo (name (EditTaskModal.originalTask this)) content) →
  let w' := (EditTaskModal.updateInProjectFile this task w).2 in
  store w' = store w ∧ writes w' = writes w.
Proof.
  intros Hdocs. unfold EditTaskModal.updateInProjectFile.
  destruct (truthy (project task)); [simpl | done].
  destruct (find _ _) as [file|]; [| done].
  apply tryCatch_applyEdit_no_write; [apply quiet_consoleError |].
  intros content text Hc. apply updateStep_nothingToDo. by eapply Hdocs.
Qed.

Lemma removeFromProjectFile_no_write (this : EditTaskModal.t) (task : TaskData) (w : World) :
  (∀ p content, store w !! p = Some content → nothingToDo (name task) content) →
  let w' := (EditTaskModal.removeFromProjectFile this task w).2 in
  store w' = store w ∧ writes w' = writes w.
Proof.
  intros Hdocs. unfold EditTaskModal.removeFromProjectFile.
  destruct (truthy (project task)); [simpl | done].
  destruct (find _ _) as [file|]; [| done].
  apply tryCatch_applyEdit_no_write; [apply quiet_mret |].
  intros content text Hc. apply removeStep_nothingToDo. by eapply Hdocs.
Qed.

Lemma updateTaskInProjectFile_no_write (task : TaskData) (w : World) :
  (∀ p content, store w !! p = Some content →
                Forall (λ line, taskRegex (name task) line = false) (split content)) →
  let w' := (ReminderView.updateTaskInProjectFile task w).2 in
  store w' = store w ∧ writes w' = writes w.
Proof.
  intros Hdocs. unfold ReminderView.updateTaskInProjectFile.
  destruct (truthy (project task)); [simpl | done].
  unfold mbind, M_bind, getProjectFiles.
  destruct (filterProjectFiles (markdownFiles w)) as [files|]; [| done].
  destruct (find _ files) as [file|]; [| done].
  apply tryCatch_applyEdit_no_write; [apply quiet_mret |].
  intros content text Hc. apply updateWholeStep_no_match. by eapply Hdocs.
Qed.

(** C5 fails on the code. On a project document with no heading line, the
    update of the list view still finds the line of the task and writes the
    document. *)
Theorem updateTaskInProjectFile_writes_without_heading :
  let task := mkTask "Buy milk" [] "" true (Some "Plan") None in
  let w := worldWith "- [ ] Buy milk" [task] in
  findIndex isTasksHeading (split "- [ ] Buy milk") = None ∧
  writes (ReminderView.updateTaskInProjectFile task w).2
  = [("Projects/Plan.md", "- [x] Buy milk")] ∧
  store (ReminderView.updateTaskInProjectFile task w).2 !! "Projects/Plan.md"
  = Some "- [x] Buy milk".
Proof. vm_compute. done. Qed.

End Writes.

(** ** The list of the view *)

Section ViewTasks.
Import JS.

Lemma keepsTasks_mret {A} (a : A) : keepsTasks (mret a : M A).
Proof. done. Qed.

Lemma keepsTasks_throw {A} (e : string) : keepsTasks (throw e : M A).
Proof. done. Qed.

Lemma keepsTasks_gets {A} (f : World → A) : keepsTasks (gets f).
Proof. done. Qed.

Lemma keepsTasks_consoleError (msg : string) : keepsTasks (consoleError msg).
Proof. done. Qed.

Lemma keepsTasks_vaultRead (file : TFile) : keepsTasks (vaultRead file).
Proof. intros w. unfold vaultRead. by destruct (store w !! path file). Qed.

Lemma keepsTasks_vaultModify (file : TFile) (text : string) :
  keepsTasks (vaultModify file text).
Proof. done. Qed.

Lemma keepsTasks_saveCallback : keepsTasks ReminderView.saveCallback.
Proof. done. Qed.

Lemma keepsTasks_close : keepsTasks TaskModal.close.
Proof. done. Qed.

Lemma keepsTasks_bind {A B} (m : M A) (k : A → M B) :
  keepsTasks m → (∀ a, keepsTasks (k a)) → keepsTasks (m ≫= k).
Proof.
  intros Hm Hk w. unfold mbind, M_bind. specialize (Hm w).
  destruct (m w) as [[a|e] w']; simpl in *; [| done].
  by rewrite Hk.
Qed.

Lemma keepsTasks_tryCatch (body : M ()) (handler : string → M ()) :
  keepsTasks body → (∀ e, keepsTasks (handler e)) → keepsTasks (tryCatch body handler).
Proof.
  intros Hm Hk w. unfold tryCatch. specialize (Hm w).
  destruct (body w) as [[a|e] w']; simpl in *; [done |].
  by rewrite Hk.
Qed.

Lemma keepsTasks_applyEdit (file : TFile) (step : string → edit) (noSection : M ()) :
  keepsTasks noSection → keepsTasks (applyEdit file step noSection).
Proof.
  intros Hno. apply keepsTasks_bind; [apply keepsTasks_vaultRead |].
  intros content. destruct (step content);
    [done | apply keepsTasks_mret | apply keepsTasks_vaultModify].
Qed.

Create HintDb keeps.
#[local] Hint Resolve keepsTasks_mret keepsTasks_throw keepsTasks_gets
  keepsTasks_consoleError keepsTasks_vaultRead keepsTasks_vaultModify
  keepsTasks_saveCallback keepsTasks_close : keeps.

(** Goes through the binds, handlers and branches of a computation. *)
Ltac keeps :=
  repeat first
    [ solve [auto with keeps]
    | apply keepsTasks_bind
    | apply keepsTasks_tryCatch
    | apply keepsTasks_applyEdit
    | progress intros
    | match goal with
      | |- keepsTasks (if ?b then _ else _) => destruct b
      | |- keepsTasks (match ?x with _ => _ end) => destruct x
      end ].

Lemma keepsTasks_getProjectFiles : keepsTasks getProjectFiles.
Proof.
  intros w. unfold getProjectFiles. by destruct (filterProjectFiles (markdownFiles w)).
Qed.

Lemma keepsTasks_updateTaskInProjectFile (task : TaskData) :
  keepsTasks (ReminderView.updateTaskInProjectFile task).
Proof.
  unfold ReminderView.updateTaskInProjectFile.
  destruct (negb (truthy (project task))); [apply keepsTasks_mret |].
  apply keepsTasks_bind; [apply keepsTasks_getProjectFiles |]. keeps.
Qed.

Lemma keepsTasks_findViewProjectFile (task : TaskData) :
  keepsTasks (ReminderView.findViewProjectFile task).
Proof. unfold ReminderView.findViewProjectFile. keeps. Qed.

Lemma keepsTasks_removeFromProjectFile (this : EditTaskModal.t) (task : TaskData) :
  keepsTasks (EditTaskModal.removeFromProjectFile this task).
Proof. unfold EditTaskModal.removeFromProjectFile. keeps. Qed.

Lemma keepsTasks_removeFromSourceFile (task : TaskData) :
  keepsTasks (EditTaskModal.removeFromSourceFile task).
Proof.
  unfold EditTaskModal.removeFromSourceFile, EditTaskModal.getFileByPath. keeps.
Qed.

#[local] Hint Resolve keepsTasks_updateTaskInProjectFile
  keepsTasks_findViewProjectFile keepsTasks_removeFromProjectFile
  keepsTasks_removeFromSourceFile : keeps.

(** A change of the list followed by steps that leave the list alone. *)
Lemma viewTasks_modify_then {A} (f : World → World) (rest : M A) (w : World) :
  keepsTasks rest → viewTasks ((modifyWorld f ≫= λ _, rest) w).2 = viewTasks (f w).
Proof. intros Hrest. unfold mbind, M_bind, modifyWorld. apply Hrest. Qed.

Lemma handleTaskDeletion_tasks (task : TaskData) (w : World) :
  viewTasks (ReminderView.handleTaskDeletion task w).2
  = List.filter (λ t, negb (ReminderView.sameNameAndDate task t)) (viewTasks w).
Proof.
  unfold ReminderView.handleTaskDeletion. rewrite viewTasks_modify_then; [done |].
  keeps.
Qed.

Lemma editCallback_update_tasks (task updated : TaskData) (w : World) :
  viewTasks (ReminderView.editCallback task (Some updated) w).2
  = match findIndex (ReminderView.sameNameAndDate task) (viewTasks w) with
    | Some taskIndex => <[taskIndex := updated]> (viewTasks w)
    | None => viewTasks w
    end.
Proof.
  unfold ReminderView.editCallback. rewrite viewTasks_modify_then by keeps.
  by destruct (findIndex _ _).
Qed.

Lemma mapsTasks_then_keeps {A B} f (m : M A) (k : A → M B) :
  mapsTasks f m → (∀ a, keepsTasks (k a)) → mapsTasks f (m ≫= k).
Proof.
  intros Hm Hk w. unfold mbind, M_bind. specialize (Hm w).
  destruct (m w) as [[a|e] w']; simpl in *; [| done].
  by rewrite Hk.
Qed.

Lemma mapsTasks_after_returns {A B} f (m : M A) (k : A → M B) :
  keepsTasks m → returns m → (∀ a, mapsTasks f (k a)) → mapsTasks f (m ≫= k).
Proof.
  intros Hm Hret Hk w. unfold mbind, M_bind. specialize (Hm w).
  destruct (Hret w) as (a & w' & E). rewrite E in *. simpl in *.
  by rewrite Hk, Hm.
Qed.

Lemma mapsTasks_tryCatch f (body : M ()) (handler : string → M ()) :
  mapsTasks f body → (∀ e, keepsTasks (handler e)) → mapsTasks f (tryCatch body handler).
Proof.
  intros Hm Hk w. unfold tryCatch. specialize (Hm w).
  destruct (body w) as [[a|e] w']; simpl in *; [done |].
  by rewrite Hk.
Qed.

Lemma returns_mret {A} (a : A) : returns (mret a : M A).
Proof. intros w. by eexists _, _. Qed.

Lemma returns_consoleError (msg : string) : returns (consoleError msg).
Proof. intros w. by eexists _, _. Qed.

Lemma returns_gets {A} (f : World → A) : returns (gets f).
Proof. intros w. by eexists _, _. Qed.

Lemma returns_bind {A B} (m : M A) (k : A → M B) :
  returns m → (∀ a, returns (k a)) → returns (m ≫= k).
Proof.
  intros Hm Hk w. unfold mbind, M_bind.
  destruct (Hm w) as (a & w' & ->). apply Hk.
Qed.

(** A handler that returns makes the whole [try] return. *)
Lemma returns_tryCatch (body : M ()) (handler : string → M ()) :
  (∀ e, returns (handler e)) → returns (tryCatch body handler).
Proof.
  intros Hk w. unfold tryCatch.
  destruct (body w) as [[[]|e] w']; [by eexists _, _ | apply Hk].
Qed.

Lemma returns_removeFromProjectFile (this : EditTaskModal.t) (task : TaskData) :
  returns (EditTaskModal.removeFromProjectFile this task).
Proof.
  unfold EditTaskModal.removeFromProjectFile.
  destruct (negb _); [apply returns_mret |].
  destruct (find _ _); [| apply returns_mret].
  apply returns_tryCatch. intros _. apply returns_consoleError.
Qed.

Lemma returns_removeFromSourceFile (task : TaskData) :
  returns (EditTaskModal.removeFromSourceFile task).
Proof.
  unfold EditTaskModal.removeFromSourceFile.
  destruct (fileId task) as [p|]; [| apply returns_mret].
  destruct (isEmpty p); [apply returns_mret |].
  apply returns_bind; [apply returns_gets |].
  intros [file|]; [| apply returns_mret].
  apply returns_tryCatch. intros _. apply returns_consoleError.
Qed.

Lemma mapsTasks_handleTaskDeletion (task : TaskData) :
  mapsTasks (List.filter (λ t, negb (ReminderView.sameNameAndDate task t)))
            (ReminderView.handleTaskDeletion task).
Proof. intros w. apply handleTaskDeletion_tasks. Qed.

Lemma mapsTasks_editCallback_delete (task : TaskData) :
  mapsTasks (List.filter (λ t, negb (ReminderView.sameNameAndDate task t)))
            (ReminderView.editCallback task None).
Proof.
  unfold ReminderView.editCallback.
  apply mapsTasks_then_keeps; [apply mapsTasks_handleTaskDeletion | keeps].
Qed.

(** The delete button: whatever happens to the documents, the list loses
    the records that share the name and the date of the task. *)
Lemma deleteFlow_tasks (this : EditTaskModal.t) :
  mapsTasks
    (List.filter
       (λ t, negb (ReminderView.sameNameAndDate (EditTaskModal.originalTask this) t)))
    (deleteFlow this).
Proof.
  unfold deleteFlow, EditTaskModal.deleteTask.
  apply mapsTasks_tryCatch; [| keeps].
  apply mapsTasks_after_returns.
  { keeps. }
  { destruct (truthy _); [apply returns_removeFromProjectFile | apply returns_mret]. }
  intros _. apply mapsTasks_after_returns.
  { keeps. }
  { destruct (truthy _); [apply returns_removeFromSourceFile | apply returns_mret]. }
  intros _. apply mapsTasks_then_keeps; [apply mapsTasks_editCallback_delete | keeps].
Qed.

Lemma sameNameAndDate_spec (task t : TaskData) :
  ReminderView.sameNameAndDate task t = true ↔
  name t = name task ∧ date t = date task.
Proof.
  unfold ReminderView.sameNameAndDate.
  rewrite andb_true_iff, !String.eqb_eq. done.
Qed.

(** C9. Deleting a task leaves in the list of the view exactly the records
    that differ from it in name or in date, so every record that shares both
    is removed at once; and the edit callback replaces the record at the
    first index found by the same test on name and date (and none when the
    test finds no record). *)
Theorem name_and_date_identify_the_record (task : TaskData) (w : World) :
  viewTasks (ReminderView.handleTaskDeletion task w).2
  = List.filter (λ t, negb (ReminderView.sameNameAndDate task t)) (viewTasks w) ∧
  (∀ t, t ∈ viewTasks (ReminderView.handleTaskDeletion task w).2 ↔
        t ∈ viewTasks w ∧ ¬ (name t = name task ∧ date t = date task)) ∧
  (∀ updated,
     viewTasks (ReminderView.editCallback task (Some updated) w).2
     = match findIndex (ReminderView.sameNameAndDate task) (viewTasks w) with
       | Some taskIndex => <[taskIndex := updated]> (viewTasks w)
       | None => viewTasks w
       end) ∧
  (∀ t, ReminderView.sameNameAndDate task t = true ↔
        name t = name task ∧ date t = date task).
Proof.
  split; [apply handleTaskDeletion_tasks |].
  split; [| split; [intros; apply editCallback_update_tasks
                   | intros; apply sameNameAndDate_spec]].
  intros t. rewrite handleTaskDeletion_tasks, list_elem_of_In, filter_In.
  rewrite <- list_elem_of_In, negb_true_iff, <- sameNameAndDate_spec.
  destruct (ReminderView.sameNameAndDate task t); split; intros [? ?]; split; done.
Qed.

End ViewTasks.

(** ** The flows *)

Section Flows.
Import JS.

(** C8. A submit of the create modal or of the edit modal with an empty
    task name stops at once: the callback is not called, so the list of the
    view and what is saved are as before, no document is written, the modal
    stays open, and the only effect is the inline message, which a timer
    removes after three seconds. *)
Theorem submit_with_empty_name_aborts
    (create : TaskModal.t) (edit : EditTaskModal.t)
    (addTaskCallback : TaskData → M ()) (updateCallback : option TaskData → M ())
    (w : World) :
  TaskModal.taskName create = "" →
  TaskModal.taskName (EditTaskModal.modal edit) = "" →
  let aborted :=
    setErrorMessages w (errorMessages w ++ [("Task name is required", 3000)]) in
  TaskModal.submitTask create addTaskCallback w = (Returned (), aborted) ∧
  EditTaskModal.submitTask edit updateCallback w = (Returned (), aborted) ∧
  viewTasks aborted = viewTasks w ∧ saved aborted = saved w ∧
  store aborted = store w ∧ writes aborted = writes w ∧
  modalClosed aborted = modalClosed w.
Proof.
  intros Hcreate Hedit. unfold TaskModal.submitTask, EditTaskModal.submitTask.
  by rewrite Hcreate, Hedit.
Qed.

Lemma submit_with_empty_name_aborts_witness :
  let create := TaskModal.mk "" ["home"] "2024-05-01" false "Plan" None [planFile] in
  let original := mkTask "Buy milk" [] "" false (Some "Plan") None in
  let edit := EditTaskModal.mk create original in
  let w := worldWith ("## Tasks" +:+ NL +:+ "- [ ] Buy milk") [original] in
  let aborted :=
    setErrorMessages w (errorMessages w ++ [("Task name is required", 3000)]) in
  createFlow create w = (Returned (), aborted) ∧
  editFlow edit w = (Returned (), aborted) ∧
  viewTasks aborted = viewTasks w ∧ saved aborted = saved w ∧
  store aborted = store w ∧ writes aborted = writes w ∧
  modalClosed aborted = modalClosed w.
Proof.
  apply (submit_with_empty_name_aborts
           (TaskModal.mk "" ["home"] "2024-05-01" false "Plan" None [planFile])
           (EditTaskModal.mk
              (TaskModal.mk "" ["home"] "2024-05-01" false "Plan" None [planFile])
              (mkTask "Buy milk" [] "" false (Some "Plan") None))).
  - reflexivity.
  - reflexivity.
Defined.

(** C2 fails on the code. The task "Buy milk" of the project "Plan" gets the
    tag "home" in the edit modal. The modal writes the encoded line of the
    updated task, then the callback of the list view runs its own update
    with the task as it was before the edit: it finds the line by the
    unchanged name and writes the old line back. The list of the view holds
    the updated task; the document does not. *)
Theorem editFlow_writes_old_line_back :
  let original := mkTask "Buy milk" [] "" false (Some "Plan") None in
  let updated := mkTask "Buy milk" ["home"] "" false (Some "Plan") None in
  let this := EditTaskModal.mk
                (TaskModal.mk "Buy milk" ["home"] "" false "Plan" None [planFile])
                original in
  let w := worldWith ("## Tasks" +:+ NL +:+ "- [ ] Buy milk") [original] in
  let w' := (editFlow this w).2 in
  viewTasks w' = [updated] ∧
  trim (formatTaskLine updated) = "- [ ] Buy milk #home" ∧
  writes w' = [("Projects/Plan.md", "## Tasks" +:+ NL +:+ "- [ ] Buy milk #home");
               ("Projects/Plan.md", "## Tasks" +:+ NL +:+ "- [ ] Buy milk")] ∧
  store w' !! "Projects/Plan.md" = Some ("## Tasks" +:+ NL +:+ "- [ ] Buy milk").
Proof. vm_compute. done. Qed.

(** The same on a state the list view can show: the task has a date, so a
    tab lists it, and its file id is the empty string the modal puts
    there. *)
Example editFlow_writes_old_line_back_dated :
  let original := mkTask "Buy milk" [] "2024-05-01" false (Some "Plan") (Some "") in
  let updated := mkTask "Buy milk" ["home"] "2024-05-01" false (Some "Plan") (Some "") in
  let this := EditTaskModal.mk
                (TaskModal.mk "Buy milk" ["home"] "2024-05-01" false "Plan" (Some "")
                   [planFile])
                original in
  let w := worldWith ("## Tasks" +:+ NL +:+ "- [ ] Buy milk (2024-05-01)") [original] in
  let w' := (editFlow this w).2 in
  original ∈ ReminderView.getTodayTasks "2024-05-01" (viewTasks w) ∧
  viewTasks w' = [updated] ∧
  writes w' = [("Projects/Plan.md",
                "## Tasks" +:+ NL +:+ "- [ ] Buy milk #home (2024-05-01)");
               ("Projects/Plan.md", "## Tasks" +:+ NL +:+ "- [ ] Buy milk (2024-05-01)")] ∧
  store w' !! "Projects/Plan.md"
  = Some ("## Tasks" +:+ NL +:+ "- [ ] Buy milk (2024-05-01)").
Proof. split; [by left |]. vm_compute. done. Qed.

(** The checkbox of the list view: the line of the task in the project
    document gets the mark, its tags and date stay. *)
Example toggle_marks_the_line :
  let task := mkTask "Buy milk" ["home"] "2024-05-01" false (Some "Plan") None in
  let w := worldWith ("## Tasks" +:+ NL +:+ "- [ ] Buy milk #home (2024-05-01)"
                      +:+ NL +:+ "## Notes") [task] in
  let w' := (ReminderView.toggle 0 true w).2 in
  store w' !! "Projects/Plan.md"
  = Some ("## Tasks" +:+ NL +:+ "- [x] Buy milk #home (2024-05-01)" +:+ NL +:+ "## Notes") ∧
  checklist <$> viewTasks w' = [true].
Proof. vm_compute. done. Qed.

(** Remove on the document of one task and a second section. *)
Example remove_scenario_B :
  removeLines "Buy milk" ["## Tasks"; "- [ ] Buy milk #home (2024-05-01)"; "## Notes"]
  = Some ["## Tasks"; "## Notes"].
Proof. reflexivity. Qed.

End Flows.

(** ** The round trip of the codec *)

Section RoundTrip.
Import JS Regex.
#[local] Arguments String.append !_ _ / : simpl nomatch.

Lemma tagsText_concat (tags : list string) :
  match tags with
  | [] => ""
  | _ => " " +:+ String.concat " " ((λ tag, "#" +:+ tag) <$> tags)
  end = tagsText tags.
Proof.
  induction tags as [|t ts IH]; [done |].
  destruct ts as [|t' ts].
  - simpl. by rewrite app_empty_r.
  - change (" " +:+ ("#" +:+ t) +:+ " " +:+ String.concat " " ((λ tag, "#" +:+ tag) <$> t' :: ts)
            = " #" +:+ t +:+ tagsText (t' :: ts)).
    rewrite <- IH. by rewrite <- !app_assoc'.
Qed.

(** The encoded line, in its segments. *)
Lemma inlineTaskLine_segments (task : TaskData) :
  inlineTaskLine task
  = String "-" (String " " (String "["
      (String (if checklist task then "x" else " ")%char (String "]" (String " "
         (name task +:+ tagsText (tags task) +:+ dateText (date task))))))).
Proof.
  unfold inlineTaskLine. rewrite tagsText_concat. unfold dateText.
  by destruct (checklist task).
Qed.

Lemma allChars_app (p : ascii → bool) (a b : string) :
  allChars p (a +:+ b) = allChars p a && allChars p b.
Proof. induction a as [|c a IH]; simpl; [done | by rewrite IH, andb_assoc]. Qed.

Lemma allChars_impl (p q : ascii → bool) (s : string) :
  (∀ c, p c = true → q c = true) → allChars p s = true → allChars q s = true.
Proof.
  intros Hpq. induction s as [|c s IH]; simpl; [done |].
  intros [Hc Hs]%andb_true_iff. by rewrite (Hpq c Hc), IH.
Qed.

Lemma lineTerminator_isWhiteSpace (c : ascii) :
  negb (isWhiteSpace c) = true → negb (isLineTerminator c) = true.
Proof. by destruct c as [[] [] [] [] [] [] [] []]. Qed.

Lemma oneLine_allChars (s : string) : noLineTerminator s → oneLine s.
Proof.
  unfold noLineTerminator. induction s as [|c s IH]; simpl; [done |].
  intros [Hc Hs]%andb_true_iff. apply oneLine_cons. split; [| by apply IH].
  intros ->. done.
Qed.

(** *** The tag expression *)

Lemma tagTokens_true_nonempty (s : string) : tagTokens true s ≠ [].
Proof.
  destruct s as [|c s]; simpl; [done |].
  destruct (isWhiteSpace c); [done |]. by destruct (tagTokens true s).
Qed.

Lemma tagTokens_false_cons (c : ascii) (s : string) :
  c ≠ "#"%char → tagTokens false (String c s) = tagTokens false s.
Proof.
  intros Hc. simpl. destruct s as [|d s]; [done |].
  by destruct (Ascii.eqb_spec c "#").
Qed.

Lemma stripTokens_false_cons (c : ascii) (s : string) :
  c ≠ "#"%char → stripTokens false (String c s) = String c (stripTokens false s).
Proof.
  intros Hc. simpl. destruct s as [|d s]; [done |].
  by destruct (Ascii.eqb_spec c "#").
Qed.

(** Inside a token, a text without white space is taken whole, up to the
    white space or the end that follows it. *)
Lemma tagTokens_true_app (t s : string) :
  noWhiteSpace t → spaceFirst s = true →
  tagTokens true (t +:+ s) = t :: tagTokens false s.
Proof.
  unfold noWhiteSpace. intros Ht Hs. induction t as [|c t IH]; simpl in *.
  - destruct s as [|d s]; [done |]. simpl in Hs.
    rewrite tagTokens_false_cons by (by intros ->). simpl. by rewrite Hs.
  - apply andb_true_iff in Ht as [Hc Ht]. apply negb_true_iff in Hc.
    by rewrite Hc, IH.
Qed.

Lemma stripTokens_true_app (t s : string) :
  noWhiteSpace t → spaceFirst s = true →
  stripTokens true (t +:+ s) = stripTokens false s.
Proof.
  unfold noWhiteSpace. intros Ht Hs. induction t as [|c t IH]; simpl in *.
  - destruct s as [|d s]; [done |]. simpl in Hs.
    rewrite stripTokens_false_cons by (by intros ->). simpl. by rewrite Hs.
  - apply andb_true_iff in Ht as [Hc Ht]. apply negb_true_iff in Hc.
    by rewrite Hc, IH.
Qed.

(** A marker followed by a tag is one token. *)
Lemma tagTokens_tag (tag s : string) :
  tag ≠ "" → noWhiteSpace tag → spaceFirst s = true →
  tagTokens false (" #" +:+ tag +:+ s) = ("#" +:+ tag) :: tagTokens false s.
Proof.
  intros Hne Hws Hs. destruct tag as [|c tag]; [done |].
  pose proof (tagTokens_true_app (String c tag) s Hws Hs) as Htok.
  unfold noWhiteSpace in Hws. simpl in Hws.
  apply andb_true_iff in Hws as [Hc _].
  change (" #" +:+ String c tag +:+ s)
    with (String " " (String "#" (String c tag +:+ s))).
  rewrite tagTokens_false_cons by done.
  change (tagTokens false (String "#" (String c tag +:+ s)))
    with (if Ascii.eqb "#" "#" && negb (isWhiteSpace c)
          then match tagTokens true (String c tag +:+ s) with
               | t :: ts => String "#" t :: ts
               | [] => ["#"]
               end
          else tagTokens false (String c tag +:+ s)).
  rewrite Hc. simpl andb. cbv iota. by rewrite Htok.
Qed.

Lemma stripTokens_tag (tag s : string) :
  tag ≠ "" → noWhiteSpace tag → spaceFirst s = true →
  stripTokens false (" #" +:+ tag +:+ s) = String " " (stripTokens false s).
Proof.
  intros Hne Hws Hs. destruct tag as [|c tag]; [done |].
  pose proof (stripTokens_true_app (String c tag) s Hws Hs) as Htok.
  unfold noWhiteSpace in Hws. simpl in Hws.
  apply andb_true_iff in Hws as [Hc _].
  change (" #" +:+ String c tag +:+ s)
    with (String " " (String "#" (String c tag +:+ s))).
  rewrite stripTokens_false_cons by done. f_equal.
  change (stripTokens false (String "#" (String c tag +:+ s)))
    with (if Ascii.eqb "#" "#" && negb (isWhiteSpace c)
          then stripTokens true (String c tag +:+ s)
          else String "#" (stripTokens false (String c tag +:+ s))).
  rewrite Hc. simpl andb. cbv iota. by rewrite Htok.
Qed.

(** A text without token, followed by white space, adds no token. *)
Lemma tagTokens_skip (a s : string) :
  tagTokens false a = [] → spaceFirst s = true →
  tagTokens false (a +:+ s) = tagTokens false s.
Proof.
  intros Ha Hs. induction a as [|c a IH]; [done |].
  destruct (Ascii.eqb_spec c "#") as [->|Hc].
  - destruct a as [|d a].
    + destruct s as [|e s]; [done |]. simpl in *. by rewrite Hs.
    + simpl in Ha. simpl. destruct (isWhiteSpace d) eqn:Hd; simpl in *.
      * by apply IH.
      * pose proof (tagTokens_true_nonempty a). by destruct (tagTokens true a).
  - rewrite tagTokens_false_cons in Ha by done.
    change (String c a +:+ s) with (String c (a +:+ s)).
    rewrite tagTokens_false_cons by done. by apply IH.
Qed.

Lemma stripTokens_skip (a s : string) :
  tagTokens false a = [] → spaceFirst s = true →
  stripTokens false (a +:+ s) = a +:+ stripTokens false s.
Proof.
  intros Ha Hs. induction a as [|c a IH]; [done |].
  destruct (Ascii.eqb_spec c "#") as [->|Hc].
  - destruct a as [|d a].
    + destruct s as [|e s]; [done |]. simpl in *. by rewrite Hs.
    + simpl in Ha. simpl. destruct (isWhiteSpace d) eqn:Hd; simpl in *.
      * f_equal. by apply IH.
      * pose proof (tagTokens_true_nonempty a). by destruct (tagTokens true a).
  - rewrite tagTokens_false_cons in Ha by done.
    change (String c a +:+ s) with (String c (a +:+ s)).
    rewrite stripTokens_false_cons by done. simpl. f_equal. by apply IH.
Qed.

Lemma spaceFirst_tagsText_app (tags : list string) (s : string) :
  spaceFirst s = true → spaceFirst (tagsText tags +:+ s) = true.
Proof. by destruct tags. Qed.

Lemma tagsText_cons_app (tag : string) (tags : list string) (s : string) :
  tagsText (tag :: tags) +:+ s = " #" +:+ tag +:+ tagsText tags +:+ s.
Proof. simpl. by rewrite !app_assoc'. Qed.

(** The tokens of the tags of an encoded line are the tags, each with its
    marker, in order. *)
Lemma tagTokens_tagsText (tags : list string) (s : string) :
  Forall (λ tag, tag ≠ "" ∧ noWhiteSpace tag) tags → spaceFirst s = true →
  tagTokens false (tagsText tags +:+ s)
  = ((λ tag, "#" +:+ tag) <$> tags) ++ tagTokens false s.
Proof.
  intros Htags Hs. induction Htags as [|tag tags [Hne Hws] _ IH]; [done |].
  rewrite tagsText_cons_app.
  rewrite tagTokens_tag by (done || by apply spaceFirst_tagsText_app).
  by rewrite IH.
Qed.

(** Taking the tokens out leaves the space before each of them. *)
Lemma stripTokens_tagsText (tags : list string) (s : string) :
  Forall (λ tag, tag ≠ "" ∧ noWhiteSpace tag) tags → spaceFirst s = true →
  stripTokens false (tagsText tags +:+ s)
  = spaces (length tags) +:+ stripTokens false s.
Proof.
  intros Htags Hs. induction Htags as [|tag tags [Hne Hws] _ IH]; [done |].
  rewrite tagsText_cons_app.
  rewrite stripTokens_tag by (done || by apply spaceFirst_tagsText_app).
  by rewrite IH.
Qed.

Lemma no_marker_no_token (s : string) :
  allChars (λ c, negb (Ascii.eqb c "#")) s = true →
  tagTokens false s = [] ∧ stripTokens false s = s.
Proof.
  induction s as [|c s IH]; [done |]. simpl allChars.
  intros [Hc Hs]%andb_true_iff.
  apply negb_true_iff, Ascii.eqb_neq in Hc.
  rewrite tagTokens_false_cons, stripTokens_false_cons by done.
  destruct (IH Hs) as [-> ->]. done.
Qed.

(** *** The date expression *)

Lemma dateChar_plain (c : ascii) :
  dateChar c = true →
  negb (Ascii.eqb c "#") = true ∧ negb (isWhiteSpace c) = true ∧
  negb (isLineTerminator c) = true.
Proof. by destruct c as [[] [] [] [] [] [] [] []]. Qed.

Lemma matchClasses_allChars (q : ascii → bool) (pat : list (ascii → bool))
    (s m r : string) :
  Forall (λ p : ascii → bool, ∀ c, p c = true → q c = true) pat →
  matchClasses pat s = Some (m, r) →
  allChars q m = true.
Proof.
  intros Hpat. revert s m r.
  induction Hpat as [|p pat Hp _ IH]; intros s m r; simpl.
  - by intros [= <- _].
  - destruct s as [|c s]; [done |]. destruct (p c) eqn:Hc; [| done].
    destruct (matchClasses pat s) as [[m' r']|] eqn:E; [simpl | done].
    intros [= <- _]. simpl. by rewrite (Hp c Hc), (IH s m' r' E).
Qed.

Lemma datePattern_dateChar :
  Forall (λ p : ascii → bool, ∀ c, p c = true → dateChar c = true) datePattern.
Proof.
  unfold datePattern, dateChar.
  repeat constructor; intros c Hc; rewrite Hc; by rewrite ?orb_true_r.
Qed.

Lemma isDate_dateChar (d : string) : isDate d → allChars dateChar d = true.
Proof. apply matchClasses_allChars, datePattern_dateChar. Qed.

Lemma matchClasses_app_Some (pat : list (ascii → bool)) (a b m r : string) :
  matchClasses pat a = Some (m, r) →
  matchClasses pat (a +:+ b) = Some (m, r +:+ b).
Proof.
  revert a m r. induction pat as [|p pat IH]; intros a m r; simpl.
  - by intros [= <- <-].
  - destruct a as [|c a]; [done |]. simpl. destruct (p c); [| done].
    destruct (matchClasses pat a) as [[m' r']|] eqn:E; [simpl | done].
    intros [= <- <-]. by rewrite (IH a m' r' E).
Qed.

(** A match that fails on a text fails on the text followed by white
    space, when no class takes white space. *)
Lemma matchClasses_app_None (pat : list (ascii → bool)) (a b : string) :
  Forall (λ p : ascii → bool, ∀ c, isWhiteSpace c = true → p c = false) pat →
  spaceFirst b = true →
  matchClasses pat a = None →
  matchClasses pat (a +:+ b) = None.
Proof.
  intros Hpat Hb. revert a. induction Hpat as [|p pat Hp _ IH]; intros a; simpl; [done |].
  destruct a as [|c a]; simpl.
  - intros _. destruct b as [|d b]; [done |]. simpl in Hb. by rewrite (Hp d Hb).
  - destruct (p c); [| done].
    destruct (matchClasses pat a) as [[m' r']|] eqn:E; [done |].
    intros _. by rewrite (IH a E).
Qed.

Lemma datePattern_no_space :
  Forall (λ p : ascii → bool, ∀ c, isWhiteSpace c = true → p c = false) datePattern.
Proof.
  unfold datePattern.
  repeat constructor; by intros [[] [] [] [] [] [] [] []].
Qed.

#[local] Arguments matchClasses : simpl never.

Lemma dateAt_cons (c : ascii) (r : string) :
  dateAt (String c r)
  = if Ascii.eqb c "("
    then '(d, r') ← matchClasses datePattern r;
         match r' with
         | String e rest => if Ascii.eqb e ")" then Some (d, rest) else None
         | "" => None
         end
    else None.
Proof.
  destruct (Ascii.eqb_spec c "(") as [->|Hc].
  - simpl. destruct (matchClasses datePattern r) as [[d r']|]; [simpl | done].
    destruct r' as [|e rest]; [done |].
    destruct (Ascii.eqb_spec e ")") as [->|He]; [done |].
    by destruct e as [[] [] [] [] [] [] [] []].
  - by destruct c as [[] [] [] [] [] [] [] []].
Qed.

Lemma matchDate_unfold (s : string) :
  matchDate s
  = match dateAt s with
    | Some (d, _) => Some d
    | None => match s with
              | "" => None
              | String _ r => matchDate r
              end
    end.
Proof. by destruct s. Qed.

Lemma dateAt_space (s : string) : spaceFirst s = true → dateAt s = None.
Proof.
  destruct s as [|c s]; [done |]. simpl spaceFirst. intros Hc.
  rewrite dateAt_cons. by destruct c as [[] [] [] [] [] [] [] []].
Qed.

Lemma dateAt_app_None (a b : string) :
  dateAt a = None → spaceFirst b = true → dateAt (a +:+ b) = None.
Proof.
  intros Ha Hb. destruct a as [|c a]; [by apply dateAt_space |].
  change (String c a +:+ b) with (String c (a +:+ b)).
  rewrite dateAt_cons in *. destruct (Ascii.eqb c "("); [| done].
  destruct (matchClasses datePattern a) as [[d r']|] eqn:E.
  - rewrite (matchClasses_app_Some _ _ b _ _ E). simpl in *.
    destruct r' as [|e rest]; simpl.
    + destruct b as [|f b]; [done |]. simpl in Hb.
      by destruct f as [[] [] [] [] [] [] [] []].
    + by destruct (Ascii.eqb e ")").
  - by rewrite (matchClasses_app_None _ _ _ datePattern_no_space Hb E).
Qed.

(** A text without date, followed by white space, adds no date. *)
Lemma matchDate_app (a b : string) :
  matchDate a = None → spaceFirst b = true → matchDate (a +:+ b) = matchDate b.
Proof.
  intros Ha Hb. induction a as [|c a IH]; [done |].
  rewrite matchDate_unfold in Ha.
  destruct (dateAt (String c a)) as [[d r]|] eqn:E; [done |].
  rewrite matchDate_unfold, (dateAt_app_None _ _ E Hb).
  by apply IH.
Qed.

Lemma matchDate_spaces (n : nat) (s : string) :
  matchDate (spaces n +:+ s) = matchDate s.
Proof.
  induction n as [|n IH]; [done |].
  change (spaces (S n) +:+ s) with (String " " (spaces n +:+ s)).
  by rewrite matchDate_unfold, dateAt_space.
Qed.

Lemma isDate_nonempty (d : string) : isDate d → isEmpty d = false.
Proof. by destruct d. Qed.

Lemma matchDate_dateText (d : string) : isDate d → matchDate (dateText d) = Some d.
Proof.
  intros Hd. unfold dateText. rewrite (isDate_nonempty d Hd).
  change (" (" +:+ d +:+ ")") with (String " " (String "(" (d +:+ ")"))).
  rewrite matchDate_unfold, dateAt_space by done.
  rewrite matchDate_unfold, dateAt_cons. simpl.
  by rewrite (matchClasses_app_Some _ _ ")" _ _ Hd).
Qed.

(** *** Trimming does not change the date that is found *)

Lemma matchDate_trimStart (s : string) : matchDate (trimStart s) = matchDate s.
Proof.
  induction s as [|c s IH]; [done |]. simpl trimStart.
  destruct (isWhiteSpace c) eqn:Hc; [| done].
  rewrite IH. symmetry. by rewrite matchDate_unfold, dateAt_space.
Qed.

Lemma matchClasses_trimEnd (pat : list (ascii → bool)) (s : string) :
  Forall (λ p : ascii → bool, ∀ c, isWhiteSpace c = true → p c = false) pat →
  matchClasses pat (trimEnd s) = (λ '(m, r), (m, trimEnd r)) <$> matchClasses pat s.
Proof.
  intros Hpat. revert s. induction Hpat as [|p pat Hp _ IH]; intros s; [done |].
  destruct s as [|c s]; [done |]. simpl trimEnd.
  assert (∀ r, matchClasses (p :: pat) (String c r)
               = if p c then '(m, rest) ← matchClasses pat r; Some (String c m, rest)
                 else None) as Hcons by done.
  destruct (isWhiteSpace c) eqn:Hc.
  - rewrite Hcons, (Hp c Hc). destruct (isEmpty (trimEnd s)); simpl; [done |].
    by rewrite Hcons, (Hp c Hc).
  - simpl andb. cbv iota. rewrite !Hcons. destruct (p c); [| done]. rewrite IH.
    by destruct (matchClasses pat s) as [[m r]|].
Qed.

Lemma trimEnd_cons_plain (c : ascii) (s : string) :
  isWhiteSpace c = false → trimEnd (String c s) = String c (trimEnd s).
Proof. intros Hc. simpl. by rewrite Hc. Qed.

Lemma dateAt_trimEnd (c : ascii) (s : string) :
  fst <$> dateAt (String c (trimEnd s)) = fst <$> dateAt (String c s).
Proof.
  rewrite !dateAt_cons. destruct (Ascii.eqb c "("); [| done].
  rewrite (matchClasses_trimEnd _ _ datePattern_no_space).
  destruct (matchClasses datePattern s) as [[d r]|]; [simpl | done].
  destruct r as [|e r]; [done |].
  destruct (Ascii.eqb_spec e ")") as [->|He].
  - rewrite trimEnd_cons_plain by done. done.
  - simpl. destruct (isWhiteSpace e && isEmpty (trimEnd r)); [done |].
    by destruct (Ascii.eqb_spec e ")").
Qed.

Lemma matchDate_trimEnd (s : string) : matchDate (trimEnd s) = matchDate s.
Proof.
  induction s as [|c s IH]; [done |]. simpl trimEnd.
  destruct (isWhiteSpace c && isEmpty (trimEnd s)) eqn:E.
  - apply andb_true_iff in E as [Hc He].
    rewrite (matchDate_unfold (String c s)), dateAt_space by done.
    rewrite <- IH. by destruct (trimEnd s).
  - rewrite (matchDate_unfold (String c s)), (matchDate_unfold (String c (trimEnd s))).
    pose proof (dateAt_trimEnd c s) as Hat. rewrite IH.
    destruct (dateAt (String c (trimEnd s))) as [[d r]|],
             (dateAt (String c s)) as [[d' r']|]; simpl in Hat; congruence.
Qed.

Lemma matchDate_trim (s : string) : matchDate (trim s) = matchDate s.
Proof. unfold trim. by rewrite matchDate_trimEnd, matchDate_trimStart. Qed.

(** *** Decoding an encoded line *)

Lemma spaceFirst_dateText (d : string) : spaceFirst (dateText d) = true.
Proof. unfold dateText. by destruct (isEmpty d). Qed.

Lemma spaceFirst_spaces_app (n : nat) (s : string) :
  spaceFirst s = true → spaceFirst (spaces n +:+ s) = true.
Proof. by destruct n. Qed.

Lemma allChars_dateText (q : ascii → bool) (d : string) :
  q " "%char = true → q "("%char = true → q ")"%char = true →
  (∀ c, dateChar c = true → q c = true) →
  d = "" ∨ isDate d →
  allChars q (dateText d) = true.
Proof.
  intros Hsp Hop Hcl Hq [->|Hd]; [done |].
  unfold dateText. rewrite (isDate_nonempty d Hd).
  change (" (" +:+ d +:+ ")") with (String " " (String "(" (d +:+ ")"))).
  simpl. rewrite Hsp, Hop, allChars_app. simpl. rewrite Hcl.
  by rewrite (allChars_impl _ _ _ Hq (isDate_dateChar d Hd)).
Qed.

Lemma allChars_tagsText (tags : list string) :
  Forall (λ tag, tag ≠ "" ∧ noWhiteSpace tag) tags →
  noLineTerminator (tagsText tags).
Proof.
  unfold noLineTerminator.
  induction 1 as [|tag tags [_ Hws] _ IH]; [done |].
  change (tagsText (tag :: tags)) with (String " " (String "#" (tag +:+ tagsText tags))).
  simpl. rewrite allChars_app, IH.
  by rewrite (allChars_impl _ _ _ lineTerminator_isWhiteSpace Hws).
Qed.

(** What follows the checklist prefix in the encoded line. *)
Lemma encoded_rest_plain (t : TaskData) :
  roundTripDomain t →
  isEmpty (name t +:+ tagsText (tags t) +:+ dateText (date t)) = false ∧
  noLineTerminator (name t +:+ tagsText (tags t) +:+ dateText (date t)).
Proof.
  intros (Hne & Hname & _ & _ & Htags & Hdate). split.
  - by destruct (name t).
  - unfold noLineTerminator. rewrite !allChars_app, Hname, (allChars_tagsText _ Htags).
    rewrite allChars_dateText; try done.
    intros c Hc. by apply dateChar_plain in Hc as (_ & _ & ?).
Qed.

Lemma encoded_rest_tags (t : TaskData) :
  roundTripDomain t →
  matchTags (name t +:+ tagsText (tags t) +:+ dateText (date t))
  = (λ tag, "#" +:+ tag) <$> tags t ∧
  removeTags (name t +:+ tagsText (tags t) +:+ dateText (date t))
  = name t +:+ spaces (length (tags t)) +:+ dateText (date t).
Proof.
  intros (_ & _ & Htok & _ & Htags & Hdate).
  assert (spaceFirst (tagsText (tags t) +:+ dateText (date t)) = true) as Hsp
    by apply spaceFirst_tagsText_app, spaceFirst_dateText.
  destruct (no_marker_no_token (dateText (date t))) as [Hnone Hsame].
  { apply allChars_dateText; try done.
    intros c Hc. by apply dateChar_plain in Hc as (? & _ & _). }
  unfold matchTags, removeTags. split.
  - rewrite (tagTokens_skip _ _ Htok Hsp).
    rewrite (tagTokens_tagsText _ _ Htags (spaceFirst_dateText _)), Hnone.
    by rewrite app_nil_r.
  - rewrite (stripTokens_skip _ _ Htok Hsp).
    by rewrite (stripTokens_tagsText _ _ Htags (spaceFirst_dateText _)), Hsame.
Qed.

Lemma encoded_rest_date (t : TaskData) (n : nat) :
  roundTripDomain t →
  matchDate (name t +:+ spaces n +:+ dateText (date t))
  = if isEmpty (date t) then None else Some (date t).
Proof.
  intros (_ & _ & _ & Hnodate & _ & Hdate).
  rewrite matchDate_app by (done || apply spaceFirst_spaces_app, spaceFirst_dateText).
  rewrite matchDate_spaces. destruct Hdate as [->|Hd]; [done |].
  by rewrite (isDate_nonempty _ Hd), matchDate_dateText.
Qed.

Lemma substring1_marked (tags : list string) :
  substring1 <$> ((λ tag, "#" +:+ tag) <$> tags) = tags.
Proof. induction tags as [|tag tags IH]; [done |]. rewrite !fmap_cons. by rewrite IH. Qed.

(** The fields of a decoded record, from the two groups of the line
    expression. *)
Lemma decodeLine_fields (line : string) (c : ascii) (rest : string) :
  matchTaskLine line = Some (c, rest) →
  ∃ t', decodeLine line = Some t' ∧
        checklist t' = Ascii.eqb c "x" ∧
        tags t' = substring1 <$> matchTags rest ∧
        date t' = default "" (matchDate (match matchTags rest with
                                         | [] => rest
                                         | _ => trim (removeTags rest)
                                         end)).
Proof.
  intros H. unfold decodeLine. rewrite H. simpl.
  destruct (matchTags rest) as [|m ms]; simpl.
  - destruct (matchDate rest); by eexists.
  - destruct (matchDate (trim (removeTags rest))); by eexists.
Qed.

(** The decoder, on the encoded line without its line feed, gives back the
    checklist value, the date and the tags. *)
Lemma decodeLine_inlineTaskLine (t : TaskData) :
  roundTripDomain t →
  ∃ t', decodeLine (inlineTaskLine t) = Some t' ∧
        checklist t' = checklist t ∧ date t' = date t ∧ tags t' = tags t.
Proof.
  intros Hdom.
  destruct (encoded_rest_plain t Hdom) as [Hne Hplain].
  destruct (encoded_rest_tags t Hdom) as [Htags Hstrip].
  pose proof (encoded_rest_date t (length (tags t)) Hdom) as Hdate.
  rewrite inlineTaskLine_segments.
  set (rest := name t +:+ tagsText (tags t) +:+ dateText (date t)) in *.
  destruct (decodeLine_fields
              (String "-" (String " " (String "["
                (String (if checklist t then "x" else " ")%char
                   (String "]" (String " " rest))))))
              (if checklist t then "x" else " ")%char rest)
    as (t' & Hdec & Hc & Ht & Hd).
  { unfold noLineTerminator in Hplain. simpl. rewrite Hne, Hplain.
    by destruct (checklist t). }
  exists t'. split; [done |]. split; [by rewrite Hc; destruct (checklist t) |].
  rewrite Htags in Ht, Hd. rewrite substring1_marked in Ht. split; [| done].
  assert (matchDate (match (λ tag, "#" +:+ tag) <$> tags t with
                     | [] => rest
                     | _ => trim (removeTags rest)
                     end)
          = if isEmpty (date t) then None else Some (date t)) as Hfound.
  { destruct (tags t) as [|tag tags'] eqn:Etags.
    - exact Hdate.
    - rewrite fmap_cons. cbv iota. by rewrite matchDate_trim, Hstrip. }
  rewrite Hd, Hfound. by destruct (date t).
Qed.

Lemma inlineTaskLine_not_heading (t : TaskData) :
  isTasksHeading (inlineTaskLine t) = false ∧ startsWith "#" (inlineTaskLine t) = false.
Proof.
  rewrite inlineTaskLine_segments. split; [| done].
  unfold isTasksHeading, trim. simpl trimStart. by rewrite trimEnd_cons_plain.
Qed.

Lemma oneLine_inlineTaskLine (t : TaskData) :
  roundTripDomain t → oneLine (inlineTaskLine t).
Proof.
  intros Hdom. destruct (encoded_rest_plain t Hdom) as [_ Hplain].
  apply oneLine_allChars. rewrite inlineTaskLine_segments.
  unfold noLineTerminator in *. simpl. rewrite Hplain. by destruct (checklist t).
Qed.

(** Reading the encoded line back under a heading decodes the line without
    its line feed. *)
Lemma decodeInDocument_formatTaskLine (t t' : TaskData) :
  oneLine (inlineTaskLine t) →
  decodeLine (inlineTaskLine t) = Some t' →
  decodeInDocument (formatTaskLine t) = Some t'.
Proof.
  intros Hone Hdec. unfold decodeInDocument, parseProjectTasks.
  rewrite split_app_nl, split_formatTaskLine, Hone.
  destruct (inlineTaskLine_not_heading t) as [Hh Hs].
  simpl. by rewrite ?Hh, ?Hs, Hdec.
Qed.

Lemma roundTrip_in_domain (t : TaskData) :
  roundTripDomain t →
  ∃ t', decodeInDocument (formatTaskLine t) = Some t' ∧
        checklist t' = checklist t ∧ date t' = date t ∧ tags t' = tags t.
Proof.
  intros Hdom. destruct (decodeLine_inlineTaskLine t Hdom) as (t' & Hdec & H).
  exists t'. split; [| done].
  apply decodeInDocument_formatTaskLine; [by apply oneLine_inlineTaskLine | done].
Qed.

(** C3, as the claim states it, fails. The name "Buy milk" holds no
    parenthesized date and no token of the tag expression, but the tag
    "my tag" comes back as "my": the tag expression stops at white space.
    And the encoded line itself, with its final line feed, is no line the
    decoder accepts. *)
Lemma roundTrip_fails_on_tag_with_space :
  let t := mkTask "Buy milk" ["my tag"] "2024-05-01" false None None in
  noDateLike (name t) ∧ noTagToken (name t) ∧
  decodeLine (formatTaskLine t) = None ∧
  decodeInDocument (formatTaskLine t)
  = Some (mkTask "Buy milk  tag" ["my"] "2024-05-01" false None None) ∧
  ¬ roundTrip decodeLine t ∧
  ¬ roundTrip decodeInDocument t.
Proof.
  split; [done |]. split; [done |]. split; [done |]. split; [done |]. split.
  - by intros (t' & [=] & _).
  - intros (t' & [= <-] & _ & _ & Htags).
    assert ("my tag" ∈ ["my"]) as Hin by (apply Htags; simpl; by left).
    apply list_elem_of_singleton in Hin. discriminate Hin.
Qed.

(** C3, amended. For every task record whose name is not empty and holds
    no line terminator, no parenthesized date and no token of the tag
    expression, whose tags are not empty and hold no white space, and whose
    date is empty or of the form of four digits, two digits and two digits
    between dashes: reading the encoded line back as the line under the
    heading of a document, that is without its final line feed, gives a
    record with the same checklist value, the same date and the same tags. *)
Theorem roundTrip_of_encoded_line (t : TaskData) :
  roundTripDomain t → roundTrip decodeInDocument t.
Proof.
  intros Hdom. destruct (roundTrip_in_domain t Hdom) as (t' & Hdec & Hc & Hd & Ht).
  exists t'. split; [done |]. split; [done |]. split; [done |].
  intros tag. by rewrite Ht.
Qed.

Lemma roundTrip_of_encoded_line_witness :
  roundTrip decodeInDocument
    (mkTask "Buy milk" ["home"; "shop"] "2024-05-01" true (Some "Plan") None).
Proof.
  apply roundTrip_of_encoded_line.
  unfold roundTripDomain. simpl.
  split; [discriminate |]. split; [reflexivity |]. split; [reflexivity |].
  split; [reflexivity |]. split.
  - repeat constructor; discriminate.
  - right. reflexivity.
Defined.

(** Each condition on the tags and on the date is needed: an empty tag is
    no token, a date of another form is not found, and a name that holds a
    carriage return is refused by the line expression. *)
Example roundTrip_needs_the_domain :
  decodeInDocument (formatTaskLine (mkTask "Buy milk" [""] "" false None None))
  = Some (mkTask "Buy milk #" [] "" false None None) ∧
  decodeInDocument (formatTaskLine (mkTask "Buy milk" [] "tomorrow" false None None))
  = Some (mkTask "Buy milk (tomorrow)" [] "" false None None) ∧
  decodeInDocument
    (formatTaskLine (mkTask (String "013" "Buy milk") ["home"] "" true None None))
  = None ∧
  decodeInDocument (formatTaskLine (mkTask "" [] "" true None None)) = None.
Proof. repeat split; reflexivity. Qed.

End RoundTrip.

(** ** More on the matcher and the mutators *)

Section Mutators.
Import JS Regex.
#[local] Arguments String.append !_ _ / : simpl nomatch.

(** X1. The test built from the escaped task name accepts a line exactly
    when the line starts with the checklist prefix, any one character but a
    line terminator between the brackets, a space, and then the task name
    character for character: a character of the name that is special in an
    expression stands for itself only. *)
Theorem taskRegex_matches_name_literally (n line : string) :
  taskRegex n line = true ↔
  ∃ c rest, isLineTerminator c = false ∧
            line = "- [" +:+ String c ("] " +:+ n +:+ rest).
Proof. apply taskRegex_spec. Qed.

Lemma filter_In_not {A} (q : A → bool) (x : A) (xs : list A) :
  q x = false → x ∉ List.filter q xs.
Proof.
  intros Hq Hin. apply list_elem_of_In, filter_In in Hin as [_ Hx]. congruence.
Qed.

(** X2. The test is a test of a prefix: the name [n] matches the encoded
    line of every task whose name starts with [n]. So a remove keyed by [n]
    deletes the line of such a task too. *)
Theorem taskRegex_accepts_longer_names
    (n suffix : string) (task : TaskData) (lines : list string) :
  name task = n +:+ suffix →
  taskRegex n (inlineTaskLine task) = true ∧
  inlineTaskLine task ∉ removeWholeLines n lines.
Proof.
  intros Hname.
  assert (taskRegex n (inlineTaskLine task) = true) as Hm.
  { apply taskRegex_spec. rewrite inlineTaskLine_segments, Hname.
    exists (if checklist task then "x" else " ")%char. eexists.
    split; [by destruct (checklist task) |].
    simpl. by rewrite app_assoc'. }
  split; [done |]. apply filter_In_not. by rewrite Hm.
Qed.

Lemma taskRegex_accepts_longer_names_witness :
  taskRegex "Buy" (inlineTaskLine (mkTask "Buy milk" ["home"] "" false None None)) = true ∧
  inlineTaskLine (mkTask "Buy milk" ["home"] "" false None None)
    ∉ removeWholeLines "Buy" ["# Today"; "- [ ] Buy milk #home"; "- [x] Buy"].
Proof.
  apply (taskRegex_accepts_longer_names "Buy" " milk").
  reflexivity.
Defined.

Lemma sectionLoop_first (m : string) (k : nat) (rest : list string) (i : nat) :
  sectionLoop m k rest = Some i →
  ∀ j line, j < i - k → rest !! j = Some line → taskRegex m line = false.
Proof.
  revert k. induction rest as [|l rest IH]; intros k; simpl; [done |].
  destruct (startsWith "#" l) eqn:Hl; [done |].
  destruct (taskRegex m l) eqn:Hm.
  - intros [= <-] j line Hj. lia.
  - intros H [|j] line Hj Hline; simpl in Hline; [congruence |].
    pose proof (sectionLoop_Some _ _ _ _ H) as [Hk _].
    apply (IH _ H j); [lia | done].
Qed.

Lemma firstHeadingAt_unique (lines : list string) (i j : nat) :
  firstHeadingAt lines i → firstHeadingAt lines j → i = j.
Proof. intros Hi%firstHeadingAt_findIndex Hj%firstHeadingAt_findIndex. congruence. Qed.

(** X3. When the update of the edit modal changes the line array, it
    replaces one line by the trimmed encoded line of the task: a line of the
    section that the match name matches, and the first such line of the
    section. All other lines, in and out of the section, stay. *)
Theorem updateLines_rewrites_first_match_of_section
    (m : string) (task : TaskData) (lines lines' : list string) :
  updateLines m task lines = Some lines' →
  ∃ i line,
    inSection lines i ∧ lines !! i = Some line ∧ taskRegex m line = true ∧
    (∀ j l, inSection lines j → j < i → lines !! j = Some l → taskRegex m l = false) ∧
    lines' = <[i := trim (formatTaskLine task)]> lines.
Proof.
  unfold updateLines. intros H.
  destruct (findIndex isTasksHeading lines) as [ti|] eqn:Hti; [simpl in H | done].
  destruct (sectionLoop m (ti + 1) (drop (ti + 1) lines)) as [i|] eqn:Hloop;
    [simpl in H | done].
  injection H as <-. apply firstHeadingAt_findIndex in Hti.
  pose proof (sectionLoop_Some _ _ _ _ Hloop) as (Hle & (line & Hline & Hm) & Hsec).
  rewrite lookup_drop in Hline. replace (ti + 1 + (i - (ti + 1))) with i in Hline by lia.
  exists i, line. split.
  { exists ti. split; [done |]. split; [lia |].
    intros k l Hk Hl. apply (Hsec (k - (ti + 1))); [lia |].
    rewrite lookup_drop. by replace (ti + 1 + (k - (ti + 1))) with k by lia. }
  split; [done |]. split; [done |]. split; [| done].
  intros j l (ti' & Hti' & Hj & _) Hji Hl.
  rewrite <- (firstHeadingAt_unique _ _ _ Hti Hti') in Hj.
  apply (sectionLoop_first _ _ _ _ Hloop (j - (ti + 1)) l); [lia |].
  rewrite lookup_drop. by replace (ti + 1 + (j - (ti + 1))) with j by lia.
Qed.

Lemma updateLines_rewrites_first_match_of_section_witness :
  ∃ i line,
    inSection ["## Tasks"; "- [ ] Call Ann"; "- [ ] Buy milk"; "## Notes"; "- [ ] Buy milk"] i ∧
    ["## Tasks"; "- [ ] Call Ann"; "- [ ] Buy milk"; "## Notes"; "- [ ] Buy milk"] !! i
      = Some line ∧
    taskRegex "Buy milk" line = true ∧
    (∀ j l,
       inSection ["## Tasks"; "- [ ] Call Ann"; "- [ ] Buy milk"; "## Notes"; "- [ ] Buy milk"] j →
       j < i →
       ["## Tasks"; "- [ ] Call Ann"; "- [ ] Buy milk"; "## Notes"; "- [ ] Buy milk"] !! j
         = Some l →
       taskRegex "Buy milk" l = false) ∧
    ["## Tasks"; "- [ ] Call Ann"; "- [x] Buy oat milk"; "## Notes"; "- [ ] Buy milk"]
    = <[i := trim (formatTaskLine (mkTask "Buy oat milk" [] "" true (Some "Plan") None))]>
        ["## Tasks"; "- [ ] Call Ann"; "- [ ] Buy milk"; "## Notes"; "- [ ] Buy milk"].
Proof.
  apply (updateLines_rewrites_first_match_of_section "Buy milk").
  reflexivity.
Defined.

(** X4. The update of the list view changes the line array exactly when
    some line of the whole document is matched by the name of the task, and
    then it replaces the first such line, wherever it stands, by the encoded
    line of the task and leaves all other lines. *)
Theorem updateWholeLines_rewrites_first_match (task : TaskData) (lines lines' : list string) :
  updateWholeLines task lines = Some lines' ↔
  ∃ i line,
    lines !! i = Some line ∧ taskRegex (name task) line = true ∧
    (∀ j l, j < i → lines !! j = Some l → taskRegex (name task) l = false) ∧
    lines' = <[i := inlineTaskLine task]> lines.
Proof.
  unfold updateWholeLines, wholeLoop. split.
  - destruct (findIndex (taskRegex (name task)) lines) as [i|] eqn:Hi; [simpl | done].
    intros [= <-]. apply findIndex_Some in Hi as [(line & Hline & Hm) Hmin].
    by exists i, line.
  - intros (i & line & Hline & Hm & Hmin & ->).
    assert (findIndex (taskRegex (name task)) lines = Some i) as ->; [| done].
    apply findIndex_Some. split; [by exists line | done].
Qed.

End Mutators.

(** ** More on Remove *)

Section Removal.
Import JS Regex.
#[local] Arguments String.append !_ _ / : simpl nomatch.

Lemma filter_sublist {A} (q : A → bool) (xs : list A) :
  List.filter q xs `sublist_of` xs.
Proof.
  induction xs as [|x xs IH]; simpl; [done |].
  destruct (q x); [by apply sublist_skip | by apply sublist_cons].
Qed.

Lemma filter_again {A} (q : A → bool) (xs : list A) :
  List.filter q (List.filter q xs) = List.filter q xs.
Proof.
  induction xs as [|x xs IH]; simpl; [done |].
  destruct (q x) eqn:Hx; simpl; [by rewrite Hx, IH | done].
Qed.

Lemma Forall_filter_list {A} (P : A → Prop) (q : A → bool) (xs : list A) :
  Forall P xs → Forall P (List.filter q xs).
Proof.
  induction 1 as [|x xs Hx _ IH]; simpl; [done |].
  destruct (q x); [by constructor | done].
Qed.

Lemma findIndex_app_take {A} (p : A → bool) (xs ys : list A) (i : nat) :
  findIndex p xs = Some i → findIndex p (take (S i) xs ++ ys) = Some i.
Proof.
  intros Hfind. pose proof (findIndex_lt _ _ _ Hfind) as Hlt.
  apply findIndex_Some in Hfind as [(x & Hx & Hpx) Hmin]. apply findIndex_Some.
  split.
  - exists x. by rewrite lookup_app_l, lookup_take_lt by (rewrite ?length_take; lia).
  - intros j y Hj. rewrite lookup_app_l, lookup_take_lt by (rewrite ?length_take; lia).
    by apply Hmin.
Qed.

Lemma taskRegex_empty_line (n : string) : taskRegex n "" = false.
Proof. done. Qed.

Lemma removeLines_result (n : string) (lines lines' : list string) :
  removeLines n lines = Some lines' ↔
  ∃ tasksIndex,
    findIndex isTasksHeading lines = Some tasksIndex ∧
    lines' = take (S tasksIndex) lines
             ++ List.filter (keptByRemove n) (drop (S tasksIndex) lines).
Proof.
  rewrite removeLines_spec. split; intros (ti & Hti & ->); exists ti;
    (split; [by apply firstHeadingAt_findIndex | done]).
Qed.

(** X5. When Remove finds the heading, its result is exactly this: the
    lines up to and including the first heading line as they are, followed
    by those lines after the heading, in their order and with their
    repetitions, that start with the heading marker or that the matcher
    refuses. So every matching line after the heading goes, not only the
    first one, and no other line goes. *)
Theorem removeLines_deletes_every_match_after_heading
    (n : string) (lines lines' : list string) :
  removeLines n lines = Some lines' →
  ∃ tasksIndex,
    firstHeadingAt lines tasksIndex ∧
    lines' = take (S tasksIndex) lines
             ++ List.filter (keptByRemove n) (drop (S tasksIndex) lines) ∧
    Forall (λ line, startsWith "#" line = true ∨ taskRegex n line = false)
           (drop (S tasksIndex) lines').
Proof.
  intros (ti & Hti & ->)%removeLines_result. exists ti.
  pose proof (findIndex_lt _ _ _ Hti) as Hlt.
  assert (length (take (S ti) lines) = S ti) as Hlen by (rewrite length_take; lia).
  split; [by apply firstHeadingAt_findIndex |]. split; [done |].
  rewrite drop_app_length' by done. apply Forall_forall.
  intros line [_ Hkept]%list_elem_of_In%filter_In. unfold keptByRemove in Hkept.
  destruct (startsWith "#" line); [by left | right].
  by destruct (taskRegex n line).
Qed.

Lemma removeLines_deletes_every_match_after_heading_witness :
  ∃ tasksIndex,
    firstHeadingAt ["- [ ] Buy milk"; "## Tasks"; ""; "- [ ] Buy milk"; "";
                    "- [x] Buy milk #home"] tasksIndex ∧
    ["- [ ] Buy milk"; "## Tasks"; ""; ""]
    = take (S tasksIndex)
        ["- [ ] Buy milk"; "## Tasks"; ""; "- [ ] Buy milk"; ""; "- [x] Buy milk #home"]
      ++ List.filter (keptByRemove "Buy milk")
           (drop (S tasksIndex)
              ["- [ ] Buy milk"; "## Tasks"; ""; "- [ ] Buy milk"; "";
               "- [x] Buy milk #home"]) ∧
    Forall (λ line, startsWith "#" line = true ∨ taskRegex "Buy milk" line = false)
           (drop (S tasksIndex) ["- [ ] Buy milk"; "## Tasks"; ""; ""]).
Proof.
  apply (removeLines_deletes_every_match_after_heading "Buy milk").
  reflexivity.
Defined.

Lemma remove_again (n : string) (content : string) :
  remove n (remove n content) = remove n content.
Proof.
  unfold remove.
  destruct (removeStep n content) as [| |text] eqn:E; simpl; try by rewrite E.
  unfold removeStep in E.
  destruct (removeLines n (split content)) as [lines'|] eqn:Hr; [| done].
  destruct (length (split content) =? length lines'); [done |].
  injection E as <-.
  apply removeLines_result in Hr as (ti & Hti & ->).
  pose proof (findIndex_lt _ _ _ Hti) as Hlt.
  assert (length (take (S ti) (split content)) = S ti) as Hlen
    by (rewrite length_take; lia).
  set (kept := take (S ti) (split content)
               ++ List.filter (keptByRemove n) (drop (S ti) (split content))).
  assert (split (join kept) = kept) as Hsplit.
  { apply split_join_oneLine.
    - unfold kept. destruct (split content); simpl in *; [lia | done].
    - apply Forall_app. split.
      + apply Forall_take, split_lines_oneLine.
      + apply Forall_filter_list, Forall_drop, split_lines_oneLine. }
  assert (removeLines n kept = Some kept) as Hagain.
  { apply removeLines_result. exists ti. split; [by apply findIndex_app_take |].
    unfold kept at 2 3. by rewrite take_app_length', drop_app_length', filter_again. }
  unfold removeStep. by rewrite Hsplit, Hagain, Nat.eqb_refl.
Qed.

Lemma removeWhole_again (n : string) (content : string) :
  removeWhole n (removeWhole n content) = removeWhole n content.
Proof.
  unfold removeWhole.
  destruct (removeWholeStep n content) as [| |text] eqn:E; simpl; try by rewrite E.
  unfold removeWholeStep in E.
  destruct (length (split content) =? length (removeWholeLines n (split content)));
    [done |].
  injection E as <-. unfold removeWholeLines.
  set (kept := List.filter (λ line, negb (taskRegex n line)) (split content)).
  destruct kept as [|l kept'] eqn:Ekept; [done |].
  assert (split (join (l :: kept')) = l :: kept') as Hsplit.
  { apply split_join_oneLine; [done |]. rewrite <- Ekept.
    apply Forall_filter_list, split_lines_oneLine. }
  unfold removeWholeStep, removeWholeLines.
  rewrite Hsplit, <- Ekept. unfold kept. by rewrite filter_again, Nat.eqb_refl.
Qed.

(** X6. Remove is idempotent on the text of a document, in its form
    scoped to the section and in its form for the origin file: a second
    remove with the same name finds nothing more to delete and leaves the
    text of the first. *)
Theorem remove_idempotent (n : string) (content : string) :
  remove n (remove n content) = remove n content ∧
  removeWhole n (removeWhole n content) = removeWhole n content.
Proof. split; [apply remove_again | apply removeWhole_again]. Qed.

End Removal.

(** ** Insert, then Remove or the parser *)

Section AfterInsert.
Import JS Regex.
#[local] Arguments String.append !_ _ / : simpl nomatch.

(** The lines of the text that Insert writes, for a task whose encoded line
    is one line. *)
Lemma appendStep_lines (task : TaskData) (content : string) (i : nat) :
  findIndex isTasksHeading (split content) = Some i →
  oneLine (inlineTaskLine task) →
  ∃ text,
    appendStep task content = Changed text ∧
    split text = take (S i) (split content)
                   ++ inlineTaskLine task :: "" :: drop (S i) (split content).
Proof.
  intros Hfind Hone. unfold appendStep, appendLines. rewrite Hfind. simpl.
  eexists. split; [done |].
  replace (i + 1) with (S i) by lia. unfold splice.
  pose proof (findIndex_lt _ _ _ Hfind) as Hlt.
  rewrite split_join by (destruct (split content); simpl in *; [lia | done]).
  rewrite bind_app, bind_cons, split_formatTaskLine, Hone.
  rewrite !bind_split_oneLine
    by (apply Forall_take, split_lines_oneLine || apply Forall_drop, split_lines_oneLine).
  done.
Qed.

Lemma keptByRemove_inlineTaskLine (task : TaskData) :
  keptByRemove (name task) (inlineTaskLine task) = false.
Proof.
  unfold keptByRemove. destruct (inlineTaskLine_not_heading task) as [_ ->].
  by rewrite taskRegex_inlineTaskLine.
Qed.

(** X7. Insert followed by Remove of the same task does not give the
    document back: when the encoded line is one line and no other line after
    the heading is matched by the name, the text after the two operations is
    the original text with one empty line added after the heading, the one
    that the line feed at the end of the encoded line made. *)
Theorem insert_then_remove_leaves_empty_line
    (task : TaskData) (content : string) (i : nat) :
  firstHeadingAt (split content) i →
  oneLine (inlineTaskLine task) →
  Forall (λ line, keptByRemove (name task) line = true) (drop (S i) (split content)) →
  ∃ text,
    appendStep task content = Changed text ∧
    remove (name task) text
    = join (take (S i) (split content) ++ "" :: drop (S i) (split content)).
Proof.
  intros Hfind%firstHeadingAt_findIndex Hone Hkept.
  destruct (appendStep_lines task content i Hfind Hone) as (text & Happ & Hsplit).
  exists text. split; [done |].
  pose proof (findIndex_lt _ _ _ Hfind) as Hlt.
  assert (length (take (S i) (split content)) = S i) as Hlen
    by (rewrite length_take; lia).
  assert (removeLines (name task) (split text)
          = Some (take (S i) (split content) ++ "" :: drop (S i) (split content)))
    as Hremove.
  { apply removeLines_result. exists i. rewrite Hsplit.
    split; [by apply findIndex_app_take |].
    rewrite take_app_length', drop_app_length' by done. simpl.
    by rewrite keptByRemove_inlineTaskLine, filter_all. }
  unfold remove, removeStep. rewrite Hremove, Hsplit.
  rewrite !length_app. simpl.
  by destruct (Nat.eqb_spec
                 (length (take (S i) (split content))
                  + S (S (length (drop (S i) (split content)))))
                 (length (take (S i) (split content))
                  + S (length (drop (S i) (split content))))); [lia |].
Qed.

Lemma insert_then_remove_leaves_empty_line_witness :
  ∃ text,
    appendStep (mkTask "Buy milk" ["home"] "" false (Some "Plan") None)
               ("## Tasks" +:+ NL +:+ "- [x] Call Ann") = Changed text ∧
    remove (name (mkTask "Buy milk" ["home"] "" false (Some "Plan") None)) text
    = join (take 1 (split ("## Tasks" +:+ NL +:+ "- [x] Call Ann"))
            ++ "" :: drop 1 (split ("## Tasks" +:+ NL +:+ "- [x] Call Ann"))).
Proof.
  apply (insert_then_remove_leaves_empty_line _ _ 0).
  - split; [by exists "## Tasks" | intros j line Hj; lia].
  - reflexivity.
  - repeat constructor.
Defined.

(** The parser skips what comes before the first heading. *)
Lemma parseLines_from_heading (lines : list string) (i : nat) :
  findIndex isTasksHeading lines = Some i →
  parseLines false lines = parseLines true (drop (S i) lines).
Proof.
  revert i. induction lines as [|l lines IH]; intros i; simpl; [done |].
  destruct (isTasksHeading l) eqn:Hl.
  - by intros [= <-].
  - destruct (findIndex isTasksHeading lines) as [k|]; [simpl | done].
    intros [= <-]. by apply IH.
Qed.

Lemma parseLines_without_heading (lines : list string) :
  findIndex isTasksHeading lines = None → parseLines false lines = [].
Proof.
  intros H%findIndex_None. induction H as [|l lines Hl _ IH]; simpl; [done |].
  by rewrite Hl.
Qed.

(** X8. Insert and the parser agree: after Insert of a task of the domain
    of the round trip into a document with a heading, the parser reads the
    records it read before, preceded by one new record that has the
    checklist value, the date and the tags of the task. *)
Theorem insert_then_parse (task : TaskData) (content : string) (i : nat) :
  roundTripDomain task →
  firstHeadingAt (split content) i →
  ∃ text task',
    appendStep task content = Changed text ∧
    parseProjectTasks text = task' :: parseProjectTasks content ∧
    checklist task' = checklist task ∧ date task' = date task ∧
    tags task' = tags task.
Proof.
  intros Hdom Hfind%firstHeadingAt_findIndex.
  pose proof (oneLine_inlineTaskLine task Hdom) as Hone.
  destruct (appendStep_lines task content i Hfind Hone) as (text & Happ & Hsplit).
  destruct (decodeLine_inlineTaskLine task Hdom) as (task' & Hdec & Hfields).
  exists text, task'. split; [done |]. split; [| done].
  pose proof (findIndex_lt _ _ _ Hfind) as Hlt.
  assert (length (take (S i) (split content)) = S i) as Hlen
    by (rewrite length_take; lia).
  unfold parseProjectTasks.
  rewrite (parseLines_from_heading (split content) i Hfind).
  rewrite (parseLines_from_heading (split text) i)
    by (rewrite Hsplit; by apply findIndex_app_take).
  rewrite Hsplit, drop_app_length' by done.
  destruct (inlineTaskLine_not_heading task) as [Hh Hs].
  simpl. by rewrite ?Hh, ?Hs, Hdec.
Qed.

Lemma insert_then_parse_witness :
  ∃ text task',
    appendStep (mkTask "Buy milk" ["home"] "2024-05-01" false (Some "Plan") None)
               ("# Plan" +:+ NL +:+ "## Tasks" +:+ NL +:+ "- [x] Call Ann") = Changed text ∧
    parseProjectTasks text
    = task' :: parseProjectTasks ("# Plan" +:+ NL +:+ "## Tasks" +:+ NL +:+ "- [x] Call Ann") ∧
    checklist task' = checklist (mkTask "Buy milk" ["home"] "2024-05-01" false (Some "Plan") None) ∧
    date task' = date (mkTask "Buy milk" ["home"] "2024-05-01" false (Some "Plan") None) ∧
    tags task' = tags (mkTask "Buy milk" ["home"] "2024-05-01" false (Some "Plan") None).
Proof.
  apply (insert_then_parse _ _ 1).
  - unfold roundTripDomain. simpl.
    split; [discriminate |]. split; [reflexivity |]. split; [reflexivity |].
    split; [reflexivity |]. split.
    + repeat constructor; discriminate.
    + right. reflexivity.
  - split; [by exists "## Tasks" |].
    intros [|j] line Hj Hline; [| lia]. simpl in Hline. by injection Hline as <-.
Defined.

End AfterInsert.

(** ** More on the parser *)

Section Parser.
Import JS Regex.
#[local] Arguments String.append !_ _ / : simpl nomatch.

Lemma parseLines_section (sec rest : list string) :
  Forall (λ line, isTasksHeading line = true ∨ startsWith "#" line = false) sec →
  match rest with
  | [] => True
  | h :: _ => startsWith "#" h = true ∧ isTasksHeading h = false
  end →
  parseLines true (sec ++ rest)
  = omap decodeLine (List.filter (λ line, negb (isTasksHeading line)) sec).
Proof.
  intros Hsec Hrest. induction Hsec as [|l sec Hl _ IH]; simpl.
  - destruct rest as [|h rest]; [done |]. destruct Hrest as [Hs Hh]. simpl.
    by rewrite Hh, Hs.
  - destruct (isTasksHeading l) eqn:Hh; simpl; [exact IH |].
    destruct Hl as [Hl | Hs]; [done |].
    rewrite Hs, IH. by destruct (decodeLine l).
Qed.

(** X9. The parser reads the section and nothing else. The section
    starts after the first heading line and ends before the first later
    line that starts with the heading marker and is not itself a heading
    line, or at the end of the document; a further heading line does not
    end it and is passed over. The records returned are the decoded lines
    of the section [sec] that are no heading lines, in order, the lines that
    are no checklist lines being skipped. Nothing before the first heading
    and nothing after the section is read. *)
Theorem parseProjectTasks_reads_only_the_section
    (content : string) (i : nat) (sec rest : list string) :
  firstHeadingAt (split content) i →
  drop (S i) (split content) = sec ++ rest →
  Forall (λ line, isTasksHeading line = true ∨ startsWith "#" line = false) sec →
  match rest with
  | [] => True
  | h :: _ => startsWith "#" h = true ∧ isTasksHeading h = false
  end →
  parseProjectTasks content
  = omap decodeLine (List.filter (λ line, negb (isTasksHeading line)) sec).
Proof.
  intros Hfind%firstHeadingAt_findIndex Hdrop Hsec Hrest. unfold parseProjectTasks.
  rewrite (parseLines_from_heading _ i Hfind), Hdrop.
  by apply parseLines_section.
Qed.

Lemma parseProjectTasks_reads_only_the_section_witness :
  parseProjectTasks ("- [ ] Before" +:+ NL +:+ "## Tasks" +:+ NL +:+ "- [x] Call Ann"
                     +:+ NL +:+ "some note" +:+ NL +:+ "## Tasks" +:+ NL +:+ "- [ ] Buy milk"
                     +:+ NL +:+ "## Notes" +:+ NL +:+ "- [ ] After")
  = omap decodeLine
      (List.filter (λ line, negb (isTasksHeading line))
         ["- [x] Call Ann"; "some note"; "## Tasks"; "- [ ] Buy milk"]).
Proof.
  apply (parseProjectTasks_reads_only_the_section _ 1 _ ["## Notes"; "- [ ] After"]).
  - split; [by exists "## Tasks" |].
    intros [|j] line Hj Hline; [| lia]. simpl in Hline. by injection Hline as <-.
  - reflexivity.
  - repeat constructor; by (left + right).
  - split; reflexivity.
Defined.

(** X10. On a document with no heading line the parser returns no
    record, whatever checklist lines the document holds. *)
Theorem parseProjectTasks_without_heading (content : string) :
  Forall (λ line, isTasksHeading line = false) (split content) →
  parseProjectTasks content = [].
Proof.
  intros H%findIndex_None. by apply parseLines_without_heading.
Qed.

Lemma parseProjectTasks_without_heading_witness :
  parseProjectTasks ("# Plan" +:+ NL +:+ "- [ ] Buy milk" +:+ NL +:+ "### Tasks") = [].
Proof.
  apply parseProjectTasks_without_heading.
  repeat constructor.
Defined.

(** *** The records of the decoder *)

Lemma tagTokens_true_cons (c : ascii) (s : string) :
  isWhiteSpace c = false →
  ∃ t ts, tagTokens true s = t :: ts ∧ tagTokens true (String c s) = String c t :: ts.
Proof.
  intros Hc. simpl. rewrite Hc.
  pose proof (tagTokens_true_nonempty s).
  destruct (tagTokens true s) as [|t ts]; [done |]. by exists t, ts.
Qed.

(** The tokens found outside a token are tokens of the expression; inside a
    token, the first is the rest of the current token. *)
Lemma tagTokens_shape (s : string) :
  Forall tagToken (tagTokens false s) ∧
  (∀ t ts, tagTokens true s = t :: ts → noWhiteSpace t ∧ Forall tagToken ts).
Proof.
  induction s as [|c s [IHf IHt]]; [split; [done | by intros t ts [= <- <-]] |].
  split.
  - simpl. destruct s as [|d s']; [done |].
    destruct (Ascii.eqb_spec c "#") as [->|Hc]; [| done].
    destruct (isWhiteSpace d) eqn:Hd; [done |]. simpl.
    destruct (tagTokens_true_cons d s' Hd) as (t & ts & Hs & Hds).
    destruct (IHt _ _ Hds) as [Hws Hts].
    rewrite Hd, Hs. constructor; [| done]. by exists (String d t).
  - intros t ts. simpl. destruct (isWhiteSpace c) eqn:Hc.
    + by intros [= <- <-].
    + pose proof (tagTokens_true_nonempty s).
      destruct (tagTokens true s) as [|t' ts'] eqn:E; [done |].
      intros [= <- <-]. destruct (IHt t' ts' eq_refl) as [Hws Hts].
      split; [| done]. unfold noWhiteSpace in *. simpl. by rewrite Hc, Hws.
Qed.

Lemma substring1_tagToken (tokens : list string) :
  Forall tagToken tokens →
  Forall (λ tag, tag ≠ "" ∧ noWhiteSpace tag) (substring1 <$> tokens).
Proof.
  induction 1 as [|token tokens (tag & -> & Hne & Hws) _ IH]; [done |].
  rewrite fmap_cons. by constructor.
Qed.

Lemma matchClasses_self (pat : list (ascii → bool)) (s m r : string) :
  matchClasses pat s = Some (m, r) → matchClasses pat m = Some (m, "").
Proof.
  revert s m r. induction pat as [|p pat IH]; intros s m r.
  - by intros [= <- _].
  - destruct s as [|c s]; [done |].
    change (matchClasses (p :: pat) (String c s))
      with (if p c then '(m, rest) ← matchClasses pat s; Some (String c m, rest)
            else None).
    destruct (p c) eqn:Hc; [| done].
    destruct (matchClasses pat s) as [[m' r']|] eqn:E; [simpl | done].
    intros [= <- _].
    change (matchClasses (p :: pat) (String c m'))
      with (if p c then '(m, rest) ← matchClasses pat m'; Some (String c m, rest)
            else None).
    by rewrite Hc, (IH s m' r' E).
Qed.

Lemma matchDate_isDate (s d : string) : matchDate s = Some d → isDate d.
Proof.
  induction s as [|c s IH]; [done |]. rewrite matchDate_unfold.
  destruct (dateAt (String c s)) as [[d' rest]|] eqn:E; [| done].
  intros [= ->]. rewrite dateAt_cons in E.
  destruct (Ascii.eqb c "("); [| done].
  destruct (matchClasses datePattern s) as [[m r]|] eqn:Hm; [simpl in E | done].
  destruct r as [|e r]; [done |]. destruct (Ascii.eqb e ")"); [| done].
  injection E as <- _. by eapply matchClasses_self.
Qed.

(** X11. Every record the decoder returns is well formed: each of its
    tags is not empty and holds no white space, its date is empty or has the
    form of the date expression, and it carries no project and no file. *)
Theorem decodeLine_gives_well_formed_record (line : string) (task : TaskData) :
  decodeLine line = Some task →
  Forall (λ tag, tag ≠ "" ∧ noWhiteSpace tag) (tags task) ∧
  (date task = "" ∨ isDate (date task)) ∧
  project task = None ∧ fileId task = None.
Proof.
  unfold decodeLine.
  destruct (matchTaskLine line) as [[c rest]|]; [simpl | done].
  pose proof (substring1_tagToken _ (proj1 (tagTokens_shape rest))) as Htags.
  unfold matchTags.
  destruct (tagTokens false rest) as [|m ms]; simpl.
  - destruct (matchDate rest) as [d|] eqn:Hd; intros [= <-]; simpl.
    + split; [done |]. split; [right; by eapply matchDate_isDate | done].
    + split; [done |]. split; [by left | done].
  - destruct (matchDate (trim (removeTags rest))) as [d|] eqn:Hd; intros [= <-]; simpl.
    + split; [done |]. split; [right; by eapply matchDate_isDate | done].
    + split; [done |]. split; [by left | done].
Qed.

Lemma decodeLine_gives_well_formed_record_witness :
  Forall (λ tag, tag ≠ "" ∧ noWhiteSpace tag)
         (tags (mkTask "Buy milk" ["home"; "shop"] "2024-05-01" true None None)) ∧
  (date (mkTask "Buy milk" ["home"; "shop"] "2024-05-01" true None None) = "" ∨
   isDate (date (mkTask "Buy milk" ["home"; "shop"] "2024-05-01" true None None))) ∧
  project (mkTask "Buy milk" ["home"; "shop"] "2024-05-01" true None None) = None ∧
  fileId (mkTask "Buy milk" ["home"; "shop"] "2024-05-01" true None None) = None.
Proof.
  apply (decodeLine_gives_well_formed_record "- [x] Buy milk #home #shop (2024-05-01)").
  reflexivity.
Defined.

End Parser.

(** ** What the mutators leave alone *)

Section Frame.
Import JS.

Context {B : Type} (f : World → B) (Haside : aside f).

Lemma keeps_mret {A} (a : A) : keeps f (mret a : M A).
Proof. done. Qed.

Lemma keeps_throw {A} (e : string) : keeps f (throw e : M A).
Proof. done. Qed.

Lemma keeps_gets {A} (g : World → A) : keeps f (gets g).
Proof. done. Qed.

Lemma keeps_consoleError (msg : string) : keeps f (consoleError msg).
Proof. intros w. apply Haside. Qed.

Lemma keeps_vaultRead (file : TFile) : keeps f (vaultRead file).
Proof. intros w. unfold vaultRead. by destruct (store w !! path file). Qed.

Lemma keeps_vaultModify (file : TFile) (text : string) : keeps f (vaultModify file text).
Proof. intros w. apply Haside. Qed.

Lemma keeps_bind {A C} (m : M A) (k : A → M C) :
  keeps f m → (∀ a, keeps f (k a)) → keeps f (m ≫= k).
Proof.
  intros Hm Hk w. unfold mbind, M_bind. specialize (Hm w).
  destruct (m w) as [[a|e] w']; simpl in *; [| done].
  by rewrite Hk.
Qed.

Lemma keeps_tryCatch (body : M ()) (handler : string → M ()) :
  keeps f body → (∀ e, keeps f (handler e)) → keeps f (tryCatch body handler).
Proof.
  intros Hm Hk w. unfold tryCatch. specialize (Hm w).
  destruct (body w) as [[a|e] w']; simpl in *; [done |].
  by rewrite Hk.
Qed.

Lemma keeps_applyEdit (file : TFile) (step : string → edit) (noSection : M ()) :
  keeps f noSection → keeps f (applyEdit file step noSection).
Proof.
  intros Hno. apply keeps_bind; [apply keeps_vaultRead |].
  intros content. destruct (step content);
    [done | apply keeps_mret | apply keeps_vaultModify].
Qed.

(** Goes through the binds, handlers and branches of a computation. *)
Ltac frame :=
  repeat first
    [ apply keeps_mret | apply keeps_throw | apply keeps_gets
    | apply keeps_consoleError | apply keeps_vaultRead | apply keeps_vaultModify
    | apply keeps_bind
    | apply keeps_tryCatch
    | apply keeps_applyEdit
    | progress intros
    | match goal with
      | |- keeps _ (if ?b then _ else _) => destruct b
      | |- keeps _ (match ?x with _ => _ end) => destruct x
      end ].

Lemma keeps_TaskModal_appendToProjectFile (this : TaskModal.t) (task : TaskData) :
  keeps f (TaskModal.appendToProjectFile this task).
Proof. unfold TaskModal.appendToProjectFile. frame. Qed.

Lemma keeps_appendToProjectFile (this : EditTaskModal.t) (task : TaskData) :
  keeps f (EditTaskModal.appendToProjectFile this task).
Proof. unfold EditTaskModal.appendToProjectFile. frame. Qed.

Lemma keeps_removeFromProjectFile (this : EditTaskModal.t) (task : TaskData) :
  keeps f (EditTaskModal.removeFromProjectFile this task).
Proof. unfold EditTaskModal.removeFromProjectFile. frame. Qed.

Lemma keeps_updateInProjectFile (this : EditTaskModal.t) (task : TaskData) :
  keeps f (EditTaskModal.updateInProjectFile this task).
Proof. unfold EditTaskModal.updateInProjectFile. frame. Qed.

Lemma keeps_removeFromSourceFile (task : TaskData) :
  keeps f (EditTaskModal.removeFromSourceFile task).
Proof.
  unfold EditTaskModal.removeFromSourceFile, EditTaskModal.getFileByPath. frame.
Qed.

Lemma keeps_getProjectFiles : keeps f getProjectFiles.
Proof.
  intros w. unfold getProjectFiles. by destruct (filterProjectFiles (markdownFiles w)).
Qed.

Lemma keeps_updateTaskInProjectFile (task : TaskData) :
  keeps f (ReminderView.updateTaskInProjectFile task).
Proof.
  unfold ReminderView.updateTaskInProjectFile.
  destruct (negb (truthy (project task))); [apply keeps_mret |].
  apply keeps_bind; [apply keeps_getProjectFiles |]. frame.
Qed.

Lemma keeps_updateTaskInFile (task : TaskData) :
  keeps f (ReminderView.updateTaskInFile task).
Proof.
  unfold ReminderView.updateTaskInFile, EditTaskModal.getFileByPath. frame.
Qed.

Lemma maps_then_keeps {A C} (h : B → B) (m : M A) (k : A → M C) :
  maps f h m → (∀ a, keeps f (k a)) → maps f h (m ≫= k).
Proof.
  intros Hm Hk w. unfold mbind, M_bind. specialize (Hm w).
  destruct (m w) as [[a|e] w']; simpl in *; [| done].
  by rewrite Hk.
Qed.

Lemma maps_after_returns {A C} (h : B → B) (m : M A) (k : A → M C) :
  keeps f m → returns m → (∀ a, maps f h (k a)) → maps f h (m ≫= k).
Proof.
  intros Hm Hret Hk w. unfold mbind, M_bind. specialize (Hm w).
  destruct (Hret w) as (a & w' & E). rewrite E in *. simpl in *.
  by rewrite Hk, Hm.
Qed.

Lemma maps_tryCatch (h : B → B) (body : M ()) (handler : string → M ()) :
  maps f h body → (∀ e, keeps f (handler e)) → maps f h (tryCatch body handler).
Proof.
  intros Hm Hk w. unfold tryCatch. specialize (Hm w).
  destruct (body w) as [[a|e] w']; simpl in *; [done |].
  by rewrite Hk.
Qed.

End Frame.

Section Returns.
Import JS.

Lemma aside_lists : aside lists.
Proof. by split. Qed.

Lemma aside_modalClosed : aside modalClosed.
Proof. by split. Qed.

Lemma aside_viewProjectFiles : aside viewProjectFiles.
Proof. by split. Qed.

Lemma returns_vaultModify (file : TFile) (text : string) : returns (vaultModify file text).
Proof. intros w. by eexists _, _. Qed.

Lemma returns_guarded_applyEdit
    (file : TFile) (step : string → edit) (noSection : M ()) (msg : string) :
  returns (tryCatch (applyEdit file step noSection) (λ _, consoleError msg)).
Proof. apply returns_tryCatch. intros _. apply returns_consoleError. Qed.

Lemma returns_TaskModal_appendToProjectFile (this : TaskModal.t) (task : TaskData) :
  returns (TaskModal.appendToProjectFile this task).
Proof.
  unfold TaskModal.appendToProjectFile.
  destruct (negb _); [apply returns_mret |].
  destruct (find _ _); [apply returns_guarded_applyEdit | apply returns_consoleError].
Qed.

Lemma returns_appendToProjectFile (this : EditTaskModal.t) (task : TaskData) :
  returns (EditTaskModal.appendToProjectFile this task).
Proof.
  unfold EditTaskModal.appendToProjectFile.
  destruct (negb _); [apply returns_mret |].
  destruct (find _ _); [apply returns_guarded_applyEdit | apply returns_consoleError].
Qed.

Lemma returns_updateInProjectFile (this : EditTaskModal.t) (task : TaskData) :
  returns (EditTaskModal.updateInProjectFile this task).
Proof.
  unfold EditTaskModal.updateInProjectFile.
  destruct (negb _); [apply returns_mret |].
  destruct (find _ _); [apply returns_guarded_applyEdit | apply returns_mret].
Qed.

(** [getProjectFiles] returns exactly when it can read the types. *)
Lemma filterProjectFiles_readable (files : list TFile) :
  typesReadable files ↔ is_Some (filterProjectFiles files).
Proof.
  unfold typesReadable. induction files as [|file rest IH]; simpl.
  - split; [by eexists | constructor].
  - rewrite Forall_cons, IH. unfold isProjectFile.
    destruct (frontmatterType file) as [[ty|]|];
      destruct (filterProjectFiles rest) as [kept|];
      (split; [intros [H1 H2] | intros H]);
      first [ done | by eexists | by destruct H2 as [? ?] | by destruct H as [? ?]
            | by (split; [| eexists]) ].
Qed.

Lemma getProjectFiles_readable (w : World) :
  typesReadable (markdownFiles w) → ∃ files, getProjectFiles w = (Returned files, w).
Proof.
  intros [files E]%filterProjectFiles_readable. exists files.
  unfold getProjectFiles. by rewrite E.
Qed.

Lemma getProjectFiles_unreadable (w : World) :
  ¬ typesReadable (markdownFiles w) → ∃ e, getProjectFiles w = (Thrown e, w).
Proof.
  intros H. unfold getProjectFiles.
  destruct (filterProjectFiles (markdownFiles w)) as [files|] eqn:E; [| by eexists].
  destruct H. apply filterProjectFiles_readable. by exists files.
Qed.

Lemma updateTaskInProjectFile_after_files (task : TaskData) (files : list TFile) (w : World) :
  getProjectFiles w = (Returned files, w) →
  ∃ w', ReminderView.updateTaskInProjectFile task w = (Returned (), w').
Proof.
  intros E. unfold ReminderView.updateTaskInProjectFile.
  destruct (negb (truthy (project task))); [by eexists |].
  unfold mbind, M_bind. rewrite E.
  destruct (find (hasBasename (project task)) files) as [file|]; [| by eexists].
  destruct (returns_guarded_applyEdit file (updateWholeStep task) (mret ())
              "Error updating task in project file" w) as ([] & w' & E').
  by exists w'.
Qed.

Lemma updateTaskInProjectFile_readable (task : TaskData) (w : World) :
  typesReadable (markdownFiles w) →
  ∃ w', ReminderView.updateTaskInProjectFile task w = (Returned (), w').
Proof.
  intros [files E]%getProjectFiles_readable.
  by apply updateTaskInProjectFile_after_files with files.
Qed.

Lemma updateTaskInProjectFile_unreadable (task : TaskData) (w : World) :
  truthy (project task) = true → ¬ typesReadable (markdownFiles w) →
  ∃ e, ReminderView.updateTaskInProjectFile task w = (Thrown e, w).
Proof.
  intros Ht [e E]%getProjectFiles_unreadable. exists e.
  unfold ReminderView.updateTaskInProjectFile. rewrite Ht. simpl.
  unfold mbind, M_bind. by rewrite E.
Qed.

Lemma returns_updateTaskInFile (task : TaskData) :
  returns (ReminderView.updateTaskInFile task).
Proof.
  unfold ReminderView.updateTaskInFile.
  destruct (fileId task) as [p|]; [| apply returns_mret].
  destruct (isEmpty p); [apply returns_mret |].
  apply returns_bind; [apply returns_gets |].
  intros [file|]; [apply returns_guarded_applyEdit | apply returns_mret].
Qed.


(** X28. The update of the project document by the list view calls
    [getProjectFiles] before its try. For a task with a project it returns
    exactly when the type entry of the frontmatter of every markdown file of
    the vault is absent or a string; when one file has an entry of another
    kind it throws the TypeError of [getProjectFiles], and the world is as
    before. *)
Theorem updateTaskInProjectFile_throws_on_unreadable_type (task : TaskData) (w : World) :
  truthy (project task) = true →
  ((∃ w', ReminderView.updateTaskInProjectFile task w = (Returned (), w'))
   ↔ typesReadable (markdownFiles w)) ∧
  (¬ typesReadable (markdownFiles w) →
   ∃ e, ReminderView.updateTaskInProjectFile task w = (Thrown e, w)).
Proof.
  intros Ht. split; [split |].
  - intros [w' E]. apply filterProjectFiles_readable.
    unfold ReminderView.updateTaskInProjectFile in E. rewrite Ht in E. simpl in E.
    unfold mbind, M_bind, getProjectFiles in E.
    destruct (filterProjectFiles (markdownFiles w)) as [files|]; [by exists files | done].
  - apply updateTaskInProjectFile_readable.
  - by apply updateTaskInProjectFile_unreadable.
Qed.

Lemma updateTaskInProjectFile_throws_on_unreadable_type_witness :
  let task := mkTask "Buy milk" [] "2024-05-01" true (Some "Plan") (Some "") in
  let w := mkWorld [planFile; mkFile "Notes/Count.md" "Count" (Some FmOther)]
                   {[ "Projects/Plan.md" := "## Tasks" ]} [] [] [] false [task] None [task] in
  ((∃ w', ReminderView.updateTaskInProjectFile task w = (Returned (), w'))
   ↔ typesReadable (markdownFiles w)) ∧
  (¬ typesReadable (markdownFiles w) →
   ∃ e, ReminderView.updateTaskInProjectFile task w = (Thrown e, w)).
Proof.
  apply (updateTaskInProjectFile_throws_on_unreadable_type
           (mkTask "Buy milk" [] "2024-05-01" true (Some "Plan") (Some ""))).
  reflexivity.
Defined.

End Returns.

(** ** The flows and the two lists *)

Section FlowLists.
Import JS.

Lemma aside_besideDocuments : aside besideDocuments.
Proof. by split. Qed.

Lemma keeps_findViewProjectFile {B} (f : World → B) (task : TaskData) :
  keeps f (ReminderView.findViewProjectFile task).
Proof.
  unfold ReminderView.findViewProjectFile.
  apply keeps_bind; [apply keeps_gets |]. intros [files|]; [apply keeps_mret | apply keeps_throw].
Qed.

Lemma keeps_lists_close : keeps lists TaskModal.close.
Proof. done. Qed.

Lemma bind_returned {A C} (m : M A) (k : A → M C) (w w' : World) (a : A) :
  m w = (Returned a, w') → (m ≫= k) w = k a w'.
Proof. intros E. unfold mbind, M_bind. by rewrite E. Qed.

Lemma bind_thrown {A C} (m : M A) (k : A → M C) (w w' : World) (e : string) :
  m w = (Thrown e, w') → (m ≫= k) w = (Thrown e, w').
Proof. intros E. unfold mbind, M_bind. by rewrite E. Qed.

(** A change of the list of the view, then the save, then steps that leave
    the two lists alone. *)
Lemma lists_modify_save {A} (g : World → World) (rest : M A) (w : World) :
  keeps lists rest →
  lists ((modifyWorld g ≫= λ _, ReminderView.saveCallback ≫= λ _, rest) w).2
  = (viewTasks (g w), viewTasks (g w)).
Proof.
  intros Hrest. unfold mbind, M_bind, modifyWorld, ReminderView.saveCallback.
  simpl. by rewrite Hrest.
Qed.

(** What [addTask] does after the push and the save. *)
Lemma keeps_addTask_rest {B} (f : World → B) (task : TaskData) :
  aside f →
  keeps f
    ((if truthy (fileId task) then ReminderView.updateTaskInFile task else mret ()) ≫= λ _,
     if truthy (project task)
     then projectFile ← ReminderView.findViewProjectFile task;
          match projectFile with
          | Some _ => ReminderView.updateTaskInProjectFile task
          | None => mret ()
          end
     else mret ()).
Proof.
  intros Haside. apply keeps_bind.
  - destruct (truthy _); [by apply keeps_updateTaskInFile | apply keeps_mret].
  - intros _. destruct (truthy _); [| apply keeps_mret].
    apply keeps_bind; [apply keeps_findViewProjectFile |].
    intros [file|]; [by apply keeps_updateTaskInProjectFile | apply keeps_mret].
Qed.

Lemma maps_lists_addTask (task : TaskData) :
  maps lists (λ l, (l.1 ++ [task], l.1 ++ [task])) (ReminderView.addTask task).
Proof.
  intros w. unfold ReminderView.addTask.
  rewrite lists_modify_save; [done |].
  apply keeps_addTask_rest, aside_lists.
Qed.

(** X13. The create flow, with a task name that is not empty: whatever
    happens to the documents, and whether or not the flow ends with an
    error, the list of the view gets the new task at its end and this list
    is what is saved. *)
Theorem createFlow_appends_and_saves (this : TaskModal.t) (w : World) :
  TaskModal.taskName this ≠ "" →
  viewTasks (createFlow this w).2 = viewTasks w ++ [TaskModal.taskOf this] ∧
  saved (createFlow this w).2 = viewTasks w ++ [TaskModal.taskOf this].
Proof.
  intros Hname.
  assert (maps lists (λ l, (l.1 ++ [TaskModal.taskOf this], l.1 ++ [TaskModal.taskOf this]))
               (createFlow this)) as Hmaps.
  { unfold createFlow, TaskModal.submitTask.
    destruct (TaskModal.taskName this) as [|c n]; [done |]. simpl isEmpty. cbv iota.
    apply maps_after_returns.
    - destruct (truthy _); [| apply keeps_mret].
      apply keeps_TaskModal_appendToProjectFile, aside_lists.
    - destruct (truthy _); [apply returns_TaskModal_appendToProjectFile | apply returns_mret].
    - intros _. apply maps_then_keeps; [apply maps_lists_addTask |].
      intros _. apply keeps_lists_close. }
  specialize (Hmaps w). unfold lists in Hmaps. simpl in Hmaps.
  by injection Hmaps as -> ->.
Qed.

Lemma createFlow_appends_and_saves_witness :
  let this := TaskModal.mk "Buy milk" ["home"] "2024-05-01" false "Plan" None [planFile] in
  let w := worldWith ("## Tasks" +:+ NL +:+ "- [x] Call Ann") [] in
  viewTasks (createFlow this w).2 = viewTasks w ++ [TaskModal.taskOf this] ∧
  saved (createFlow this w).2 = viewTasks w ++ [TaskModal.taskOf this].
Proof.
  apply (createFlow_appends_and_saves
           (TaskModal.mk "Buy milk" ["home"] "2024-05-01" false "Plan" None [planFile])).
  discriminate.
Defined.

(** The mutators return, and leave alone what is beside the documents. *)
Lemma runs_beside {A} (m : M A) (w : World) :
  returns m → keeps besideDocuments m →
  ∃ a w', m w = (Returned a, w') ∧ besideDocuments w' = besideDocuments w.
Proof.
  intros Hret Hkeeps. destruct (Hret w) as (a & w' & E). exists a, w'.
  split; [done |]. specialize (Hkeeps w). by rewrite E in Hkeeps.
Qed.

(** X14. The create flow for a task with a project stops with an error
    when the list of project files of the view has not been assigned, as
    nothing in the code assigns it: the task is in the list of the view and
    saved, but the modal is not closed. *)
Theorem createFlow_with_project_throws (this : TaskModal.t) (w : World) :
  TaskModal.taskName this ≠ "" →
  TaskModal.taskProject this ≠ "" →
  viewProjectFiles w = None →
  ∃ e w',
    createFlow this w = (Thrown e, w') ∧
    modalClosed w' = modalClosed w ∧
    viewTasks w' = viewTasks w ++ [TaskModal.taskOf this] ∧
    saved w' = viewTasks w ++ [TaskModal.taskOf this].
Proof.
  intros Hname Hproject Hfiles.
  unfold createFlow, TaskModal.submitTask.
  destruct (TaskModal.taskName this) as [|c n] eqn:En; [done |].
  change (isEmpty (String c n)) with false. cbv iota.
  set (task := TaskModal.taskOf this).
  assert (truthy (project task) = true) as Htruthy.
  { unfold task, TaskModal.taskOf. simpl.
    by destruct (TaskModal.taskProject this). }
  rewrite Htruthy.
  destruct (runs_beside (TaskModal.appendToProjectFile this task) w) as ([] & w1 & E1 & H1).
  { apply returns_TaskModal_appendToProjectFile. }
  { apply keeps_TaskModal_appendToProjectFile, aside_besideDocuments. }
  rewrite (bind_returned _ _ _ _ _ E1).
  unfold ReminderView.addTask.
  set (w2 := setSaved (setViewTasks w1 (viewTasks w1 ++ [task])) (viewTasks w1 ++ [task])).
  destruct (runs_beside
              (if truthy (fileId task) then ReminderView.updateTaskInFile task else mret ()) w2)
    as ([] & w3 & E3 & H3).
  { destruct (truthy (fileId task)); [apply returns_updateTaskInFile | apply returns_mret]. }
  { destruct (truthy (fileId task)); [| apply keeps_mret].
    apply keeps_updateTaskInFile, aside_besideDocuments. }
  unfold besideDocuments in H1, H3. simpl in H3.
  injection H1 as Ht1 Hs1 Hf1 Hc1. injection H3 as Ht3 Hs3 Hf3 Hc3.
  exists "TypeError: this.projectFiles is undefined", w3.
  split; [| by rewrite Hc3, Hc1, Ht3, Hs3, Ht1].
  unfold mbind at 1. unfold M_bind at 1.
  unfold mbind at 1. unfold M_bind at 1. unfold modifyWorld at 1.
  unfold mbind at 1. unfold M_bind at 1. unfold ReminderView.saveCallback at 1.
  unfold modifyWorld at 1. simpl viewTasks. fold w2.
  rewrite (bind_returned _ _ _ _ _ E3), Htruthy.
  unfold ReminderView.findViewProjectFile, mbind, M_bind, gets, throw.
  by rewrite Hf3, Hf1, Hfiles.
Qed.

Lemma createFlow_with_project_throws_witness :
  let this := TaskModal.mk "Buy milk" ["home"] "2024-05-01" false "Plan" None [planFile] in
  let w := worldWith ("## Tasks" +:+ NL +:+ "- [x] Call Ann") [] in
  ∃ e w',
    createFlow this w = (Thrown e, w') ∧
    modalClosed w' = modalClosed w ∧
    viewTasks w' = viewTasks w ++ [TaskModal.taskOf this] ∧
    saved w' = viewTasks w ++ [TaskModal.taskOf this].
Proof.
  apply (createFlow_with_project_throws
           (TaskModal.mk "Buy milk" ["home"] "2024-05-01" false "Plan" None [planFile])).
  - discriminate.
  - discriminate.
  - reflexivity.
Defined.

Lemma keeps_editCallback_rest {B} (f : World → B) (task : TaskData) :
  aside f →
  keeps f (if truthy (project task)
           then ReminderView.updateTaskInProjectFile task else mret ()).
Proof.
  intros Haside. destruct (truthy (project task)); [| apply keeps_mret].
  by apply keeps_updateTaskInProjectFile.
Qed.

Lemma maps_lists_editCallback (task updated : TaskData) :
  maps lists (λ l, (withReplaced task updated l.1, withReplaced task updated l.1))
       (ReminderView.editCallback task (Some updated)).
Proof.
  intros w. unfold ReminderView.editCallback.
  rewrite lists_modify_save by apply keeps_editCallback_rest, aside_lists.
  unfold withReplaced. simpl.
  by destruct (findIndex (ReminderView.sameNameAndDate task) (viewTasks w)).
Qed.

(** The steps of the submit of the edit modal on the project documents. *)
Lemma projectSteps_run_beside (this : EditTaskModal.t) (updated : TaskData) :
  let steps :=
    if bool_decide (project updated ≠ project (EditTaskModal.originalTask this)) then
      (if truthy (project (EditTaskModal.originalTask this))
       then EditTaskModal.removeFromProjectFile this (EditTaskModal.originalTask this)
       else mret ());;
      (if truthy (project updated)
       then EditTaskModal.appendToProjectFile this updated else mret ())
    else if truthy (project updated) then EditTaskModal.updateInProjectFile this updated
    else mret () in
  returns steps ∧ ∀ B (f : World → B), aside f → keeps f steps.
Proof.
  simpl. split.
  - destruct (bool_decide _).
    + apply returns_bind.
      * destruct (truthy (project (EditTaskModal.originalTask this)));
          [apply returns_removeFromProjectFile | apply returns_mret].
      * intros _. destruct (truthy (project updated));
          [apply returns_appendToProjectFile | apply returns_mret].
    + destruct (truthy (project updated));
        [apply returns_updateInProjectFile | apply returns_mret].
  - intros B f Haside. destruct (bool_decide _).
    + apply keeps_bind.
      * destruct (truthy (project (EditTaskModal.originalTask this)));
          [by apply keeps_removeFromProjectFile | apply keeps_mret].
      * intros _. destruct (truthy (project updated));
          [by apply keeps_appendToProjectFile | apply keeps_mret].
    + destruct (truthy (project updated));
        [by apply keeps_updateInProjectFile | apply keeps_mret].
Qed.

(** The body of the submit of the edit modal, for any steps on the
    documents that return and leave the lists alone. *)
Lemma guarded_edit_lists (steps : M ()) (task updated : TaskData) (w : World) :
  returns steps → keeps lists steps →
  let flow := tryCatch
                (steps;; ReminderView.editCallback task (Some updated);; TaskModal.close)
                (λ _, consoleError "Error updating task") in
  (∃ w', flow w = (Returned (), w')) ∧
  viewTasks (flow w).2 = withReplaced task updated (viewTasks w) ∧
  saved (flow w).2 = withReplaced task updated (viewTasks w).
Proof.
  intros Hret Hkeeps flow. split.
  - destruct (returns_tryCatch
                (steps;; ReminderView.editCallback task (Some updated);; TaskModal.close)
                (λ _, consoleError "Error updating task")
                (λ _, returns_consoleError _) w) as ([] & w' & E).
    by exists w'.
  - assert (maps lists
              (λ l, (withReplaced task updated l.1, withReplaced task updated l.1)) flow)
      as Hmaps.
    { apply maps_tryCatch; [| intros e; apply keeps_consoleError, aside_lists].
      apply maps_after_returns; [done | done |].
      intros _. apply maps_then_keeps; [apply maps_lists_editCallback |].
      intros _. apply keeps_lists_close. }
    specialize (Hmaps w). unfold lists in Hmaps.
    by apply pair_equal_spec in Hmaps.
Qed.

(** X15. The edit flow, with a task name that is not empty: whatever
    happens to the documents, the first record of the list of the view that
    has the name and the date of the task as it was is replaced by the
    record built from the fields of the modal (the list stays as it is when
    there is no such record), and this list is what is saved. The flow
    itself never throws. *)
Theorem editFlow_replaces_and_saves (this : EditTaskModal.t) (w : World) :
  TaskModal.taskName (EditTaskModal.modal this) ≠ "" →
  let updated := TaskModal.taskOf (EditTaskModal.modal this) in
  let replaced := withReplaced (EditTaskModal.originalTask this) updated (viewTasks w) in
  (∃ w', editFlow this w = (Returned (), w')) ∧
  viewTasks (editFlow this w).2 = replaced ∧
  saved (editFlow this w).2 = replaced.
Proof.
  intros Hname. cbv zeta.
  destruct (projectSteps_run_beside this (TaskModal.taskOf (EditTaskModal.modal this)))
    as [Hret Hkeeps].
  unfold editFlow, EditTaskModal.submitTask.
  destruct (TaskModal.taskName (EditTaskModal.modal this)) as [|c n]; [done |].
  change (isEmpty (String c n)) with false. cbv iota zeta.
  apply guarded_edit_lists; [done | apply Hkeeps, aside_lists].
Qed.

Lemma editFlow_replaces_and_saves_witness :
  let original := mkTask "Buy milk" [] "" false (Some "Plan") None in
  let this := EditTaskModal.mk
                (TaskModal.mk "Buy oat milk" ["home"] "" false "Plan" None [planFile])
                original in
  let w := worldWith ("## Tasks" +:+ NL +:+ "- [ ] Buy milk") [original] in
  let updated := TaskModal.taskOf (EditTaskModal.modal this) in
  let replaced := withReplaced (EditTaskModal.originalTask this) updated (viewTasks w) in
  (∃ w', editFlow this w = (Returned (), w')) ∧
  viewTasks (editFlow this w).2 = replaced ∧
  saved (editFlow this w).2 = replaced.
Proof.
  apply (editFlow_replaces_and_saves
           (EditTaskModal.mk
              (TaskModal.mk "Buy oat milk" ["home"] "" false "Plan" None [planFile])
              (mkTask "Buy milk" [] "" false (Some "Plan") None))).
  discriminate.
Defined.

Lemma editCallback_delete_without_project (task : TaskData) (w : World) :
  truthy (project task) = false →
  ∃ w', (ReminderView.editCallback task None ≫= λ _, TaskModal.close) w = (Returned (), w') ∧
        viewTasks w' = withoutTask task (viewTasks w) ∧
        saved w' = withoutTask task (viewTasks w) ∧
        modalClosed w' = true.
Proof.
  intros Hproject. eexists. split.
  - unfold ReminderView.editCallback, ReminderView.handleTaskDeletion.
    rewrite Hproject. reflexivity.
  - done.
Qed.

Lemma editCallback_delete_throws (task : TaskData) (w : World) :
  truthy (project task) = true →
  viewProjectFiles w = None →
  (ReminderView.editCallback task None ≫= λ _, TaskModal.close) w
  = (Thrown "TypeError: this.projectFiles is undefined",
     setViewTasks w (withoutTask task (viewTasks w))).
Proof.
  intros Hproject Hfiles.
  unfold ReminderView.editCallback, ReminderView.handleTaskDeletion,
    ReminderView.findViewProjectFile.
  rewrite Hproject. unfold mbind, M_bind, modifyWorld, gets, throw. simpl.
  by rewrite Hfiles.
Qed.

(** The two removes of the delete button, one after the other. *)
Lemma removes_run_beside (this : EditTaskModal.t) (k : M ()) (w : World) :
  let task := EditTaskModal.originalTask this in
  ∃ w',
    besideDocuments w' = besideDocuments w ∧
    ((if truthy (project task) then EditTaskModal.removeFromProjectFile this task
      else mret ());;
     (if truthy (fileId task) then EditTaskModal.removeFromSourceFile task else mret ());;
     k) w = k w'.
Proof.
  intros task.
  destruct (runs_beside
              (if truthy (project task) then EditTaskModal.removeFromProjectFile this task
               else mret ()) w) as ([] & w1 & E1 & H1).
  { destruct (truthy (project task));
      [apply returns_removeFromProjectFile | apply returns_mret]. }
  { destruct (truthy (project task)); [| apply keeps_mret].
    apply keeps_removeFromProjectFile, aside_besideDocuments. }
  destruct (runs_beside
              (if truthy (fileId task) then EditTaskModal.removeFromSourceFile task
               else mret ()) w1) as ([] & w2 & E2 & H2).
  { destruct (truthy (fileId task));
      [apply returns_removeFromSourceFile | apply returns_mret]. }
  { destruct (truthy (fileId task)); [| apply keeps_mret].
    apply keeps_removeFromSourceFile, aside_besideDocuments. }
  exists w2. split; [by rewrite H2 |].
  by rewrite (bind_returned _ _ _ _ _ E1), (bind_returned _ _ _ _ _ E2).
Qed.

(** X16. The delete flow for a task without project: the records that
    share the name and the date of the task leave the list of the view, the
    list is saved, and the modal is closed; the flow does not throw. *)
Theorem deleteFlow_without_project_saves (this : EditTaskModal.t) (w : World) :
  truthy (project (EditTaskModal.originalTask this)) = false →
  ∃ w',
    deleteFlow this w = (Returned (), w') ∧
    viewTasks w' = withoutTask (EditTaskModal.originalTask this) (viewTasks w) ∧
    saved w' = withoutTask (EditTaskModal.originalTask this) (viewTasks w) ∧
    modalClosed w' = true.
Proof.
  intros Hproject. unfold deleteFlow, EditTaskModal.deleteTask, tryCatch.
  destruct (removes_run_beside this
              (ReminderView.editCallback (EditTaskModal.originalTask this) None;;
               TaskModal.close) w) as (w2 & H2 & ->).
  destruct (editCallback_delete_without_project _ w2 Hproject)
    as (w3 & -> & Ht & Hs & Hc).
  exists w3. unfold besideDocuments in H2. injection H2 as Ht2 _ _ _.
  by rewrite Ht, Hs, Ht2.
Qed.

Lemma deleteFlow_without_project_saves_witness :
  let original := mkTask "Buy milk" [] "2024-05-01" false None (Some "Daily.md") in
  let this := EditTaskModal.mk
                (TaskModal.mk "Buy milk" [] "2024-05-01" false "" (Some "Daily.md") [planFile])
                original in
  let w := worldWith "## Tasks"
             [original; mkTask "Call Ann" [] "" false None None;
              mkTask "Buy milk" ["home"] "2024-05-01" true None None] in
  ∃ w',
    deleteFlow this w = (Returned (), w') ∧
    viewTasks w' = withoutTask (EditTaskModal.originalTask this) (viewTasks w) ∧
    saved w' = withoutTask (EditTaskModal.originalTask this) (viewTasks w) ∧
    modalClosed w' = true.
Proof.
  apply (deleteFlow_without_project_saves
           (EditTaskModal.mk
              (TaskModal.mk "Buy milk" [] "2024-05-01" false "" (Some "Daily.md") [planFile])
              (mkTask "Buy milk" [] "2024-05-01" false None (Some "Daily.md")))).
  reflexivity.
Defined.

(** X17. The delete flow for a task with a project, when the list of
    project files of the view has not been assigned, as nothing in the code
    assigns it: the records leave the list of the view, but the handler of
    the view throws before the save, so what is saved stays as it was; the
    edit modal catches the error, logs it, and is not closed. *)
Theorem deleteFlow_with_project_is_not_saved (this : EditTaskModal.t) (w : World) :
  truthy (project (EditTaskModal.originalTask this)) = true →
  viewProjectFiles w = None →
  ∃ w',
    deleteFlow this w = (Returned (), w') ∧
    viewTasks w' = withoutTask (EditTaskModal.originalTask this) (viewTasks w) ∧
    saved w' = saved w ∧
    modalClosed w' = modalClosed w ∧
    last (console w') = Some "Error deleting task".
Proof.
  intros Hproject Hfiles. unfold deleteFlow, EditTaskModal.deleteTask, tryCatch.
  destruct (removes_run_beside this
              (ReminderView.editCallback (EditTaskModal.originalTask this) None;;
               TaskModal.close) w) as (w2 & H2 & ->).
  unfold besideDocuments in H2. injection H2 as Ht2 Hs2 Hf2 Hc2.
  rewrite editCallback_delete_throws by (done || by rewrite Hf2).
  eexists. split; [reflexivity |]. simpl.
  rewrite Ht2, Hs2, Hc2. repeat split. apply last_snoc.
Qed.

Lemma deleteFlow_with_project_is_not_saved_witness :
  let original := mkTask "Buy milk" [] "2024-05-01" false (Some "Plan") None in
  let this := EditTaskModal.mk
                (TaskModal.mk "Buy milk" [] "2024-05-01" false "Plan" None [planFile])
                original in
  let w := worldWith ("## Tasks" +:+ NL +:+ "- [ ] Buy milk (2024-05-01)") [original] in
  ∃ w',
    deleteFlow this w = (Returned (), w') ∧
    viewTasks w' = withoutTask (EditTaskModal.originalTask this) (viewTasks w) ∧
    saved w' = saved w ∧
    modalClosed w' = modalClosed w ∧
    last (console w') = Some "Error deleting task".
Proof.
  apply (deleteFlow_with_project_is_not_saved
           (EditTaskModal.mk
              (TaskModal.mk "Buy milk" [] "2024-05-01" false "Plan" None [planFile])
              (mkTask "Buy milk" [] "2024-05-01" false (Some "Plan") None))).
  - reflexivity.
  - reflexivity.
Defined.

Lemma returns_modifyWorld (g : World → World) : returns (modifyWorld g).
Proof. intros w. by eexists _, _. Qed.




Lemma appendToProjectFile_override (this : EditTaskModal.t) (task : TaskData) :
  EditTaskModal.appendToProjectFile this task
  = TaskModal.appendToProjectFile (EditTaskModal.modal this) task.
Proof. done. Qed.

(** X19. Insert fails without a sound: for a task with a project, when
    no project file has the basename of the project, or the file cannot be
    read, or its text holds no heading line, the append of the create modal
    and the one of the edit modal return normally, and the world is as
    before but for one message on the console: no document is written. *)
Theorem appendToProjectFile_fails_silently
    (this : EditTaskModal.t) (task : TaskData) (w : World) :
  truthy (project task) = true →
  cannotInsert (TaskModal.projectFiles (EditTaskModal.modal this)) task w →
  ∃ msg,
    TaskModal.appendToProjectFile (EditTaskModal.modal this) task w
    = (Returned (), setConsole w (console w ++ [msg])) ∧
    EditTaskModal.appendToProjectFile this task w
    = (Returned (), setConsole w (console w ++ [msg])).
Proof.
  intros Hproject Hcannot. rewrite appendToProjectFile_override.
  unfold TaskModal.appendToProjectFile, cannotInsert in *. rewrite Hproject. simpl.
  destruct (find _ _) as [file|]; [| by eexists].
  unfold tryCatch, applyEdit, mbind, M_bind, vaultRead, appendStep, appendLines.
  destruct (store w !! path file) as [content|]; [| by eexists].
  rewrite Hcannot. by eexists.
Qed.

Lemma appendToProjectFile_fails_silently_witness :
  let this := EditTaskModal.mk
                (TaskModal.mk "Buy milk" [] "" false "Plan" None [planFile])
                (mkTask "Buy milk" [] "" false None None) in
  let task := mkTask "Buy milk" [] "" false (Some "Plan") None in
  let w := worldWith ("# Plan" +:+ NL +:+ "### Tasks") [] in
  ∃ msg,
    TaskModal.appendToProjectFile (EditTaskModal.modal this) task w
    = (Returned (), setConsole w (console w ++ [msg])) ∧
    EditTaskModal.appendToProjectFile this task w
    = (Returned (), setConsole w (console w ++ [msg])).
Proof.
  apply (appendToProjectFile_fails_silently
           (EditTaskModal.mk
              (TaskModal.mk "Buy milk" [] "" false "Plan" None [planFile])
              (mkTask "Buy milk" [] "" false None None))).
  - reflexivity.
  - vm_compute. reflexivity.
Defined.

End FlowLists.

(** ** The tabs of the list view *)

Section Tabs.
Import JS.

Lemma stringGt_spec (a b : string) :
  ReminderView.stringGt a b = true ↔ String.compare b a = Lt.
Proof.
  unfold ReminderView.stringGt, String.ltb. by destruct (String.compare b a).
Qed.

Lemma compare_refl (a : string) : String.compare a a = Eq.
Proof.
  induction a as [|c a IH]; [done |]. simpl.
  unfold Ascii.compare. by rewrite N.compare_refl.
Qed.

(** Of two strings, one sorts before the other or they are equal, and only
    one of the three. *)
Lemma string_order_cases (a b : string) :
  (a = b ∧ ReminderView.stringGt a b = false ∧ ReminderView.stringGt b a = false) ∨
  (a ≠ b ∧ ReminderView.stringGt a b = true ∧ ReminderView.stringGt b a = false) ∨
  (a ≠ b ∧ ReminderView.stringGt a b = false ∧ ReminderView.stringGt b a = true).
Proof.
  unfold ReminderView.stringGt, String.ltb.
  rewrite (String.compare_antisym a b).
  destruct (String.compare b a) eqn:E; simpl.
  - left. by apply String.compare_eq_iff in E.
  - right. left. split; [| done]. intros ->. by rewrite compare_refl in E.
  - right. right. split; [| done]. intros ->. by rewrite compare_refl in E.
Qed.

Lemma in_filter {A} (q : A → bool) (x : A) (xs : list A) :
  x ∈ List.filter q xs ↔ x ∈ xs ∧ q x = true.
Proof. by rewrite !list_elem_of_In, filter_In. Qed.

(** X20. Every task of the list is in exactly one of four groups: the
    Completed tab, the Today tab, the Scheduled tab, or the open tasks whose
    date sorts before the day, which no tab shows; an open task without
    date is one of these on every day. *)
Theorem task_is_in_one_tab_or_overdue
    (today : string) (tasks : list TaskData) (t : TaskData) :
  t ∈ tasks →
  let completed := t ∈ ReminderView.getCompletedTasks tasks in
  let dueToday := t ∈ ReminderView.getTodayTasks today tasks in
  let scheduled := t ∈ ReminderView.getScheduledTasks today tasks in
  (completed ∨ dueToday ∨ scheduled ∨ overdue today t) ∧
  ¬ (completed ∧ dueToday) ∧ ¬ (completed ∧ scheduled) ∧ ¬ (dueToday ∧ scheduled) ∧
  (overdue today t → ¬ completed ∧ ¬ dueToday ∧ ¬ scheduled) ∧
  (checklist t = false → date t = "" → today ≠ "" → overdue today t).
Proof.
  intros Hin. cbv zeta.
  unfold ReminderView.getCompletedTasks, ReminderView.getTodayTasks,
    ReminderView.getScheduledTasks, overdue.
  rewrite !in_filter, !andb_true_iff, !negb_true_iff, String.eqb_eq.
  assert (date t = "" → today ≠ "" → ReminderView.stringGt today (date t) = true)
    as Hundated.
  { intros -> Hday. by destruct today. }
  destruct (string_order_cases (date t) today)
    as [(He & H1 & H2) | [(He & H1 & H2) | (He & H1 & H2)]];
    rewrite H1, H2 in *; destruct (checklist t); intuition congruence.
Qed.

Lemma task_is_in_one_tab_or_overdue_witness :
  let t := mkTask "Buy milk" [] "" false None None in
  let tasks := [mkTask "Call Ann" [] "2024-05-02" false None None; t] in
  let completed := t ∈ ReminderView.getCompletedTasks tasks in
  let dueToday := t ∈ ReminderView.getTodayTasks "2024-05-01" tasks in
  let scheduled := t ∈ ReminderView.getScheduledTasks "2024-05-01" tasks in
  (completed ∨ dueToday ∨ scheduled ∨ overdue "2024-05-01" t) ∧
  ¬ (completed ∧ dueToday) ∧ ¬ (completed ∧ scheduled) ∧ ¬ (dueToday ∧ scheduled) ∧
  (overdue "2024-05-01" t → ¬ completed ∧ ¬ dueToday ∧ ¬ scheduled) ∧
  (checklist t = false → date t = "" → "2024-05-01" ≠ "" → overdue "2024-05-01" t).
Proof.
  apply (task_is_in_one_tab_or_overdue "2024-05-01"
           [mkTask "Call Ann" [] "2024-05-02" false None None;
            mkTask "Buy milk" [] "" false None None]
           (mkTask "Buy milk" [] "" false None None)).
  apply list_elem_of_In. simpl. right. left. reflexivity.
Defined.

(** *** Dates as strings *)

Lemma matchClasses_Forall2 (pat : list (ascii → bool)) (s m r : string) :
  Regex.matchClasses pat s = Some (m, r) →
  Forall2 (λ (p : ascii → bool) c, p c = true) pat (list_ascii_of_string m).
Proof.
  revert s m r. induction pat as [|p pat IH]; intros s m r; simpl.
  - intros [= <- _]. constructor.
  - destruct s as [|c s]; [done |]. destruct (p c) eqn:Hc; [| done].
    destruct (Regex.matchClasses pat s) as [[m' r']|] eqn:E; [simpl | done].
    intros [= <- _]. simpl. constructor; [done | by eapply IH].
Qed.

Lemma isDate_shape (d : string) :
  isDate d →
  ∃ y1 y2 y3 y4 m1 m2 d1 d2,
    d = String y1 (String y2 (String y3 (String y4 (String "-"
          (String m1 (String m2 (String "-" (String d1 (String d2 ""))))))))) ∧
    Forall (λ c, isDigit c = true) [y1; y2; y3; y4; m1; m2; d1; d2].
Proof.
  intros H%matchClasses_Forall2. unfold Regex.datePattern in H.
  rewrite <- (string_of_list_ascii_of_string d).
  repeat match goal with
         | H : Forall2 _ (_ :: _) _ |- _ => inversion H; subst; clear H
         | H : Forall2 _ [] _ |- _ => inversion H; subst; clear H
         | H : Regex.isChar _ _ = true |- _ => apply Ascii.eqb_eq in H; subst
         end.
  eexists _, _, _, _, _, _, _, _. split; [reflexivity |]. by repeat constructor.
Qed.

Lemma digit_le (c : ascii) : isDigit c = true → digitOf c ≤ 9.
Proof.
  destruct c as [[] [] [] [] [] [] [] []]; intros H; try discriminate H;
    vm_compute; lia.
Qed.

Lemma digit_compare (c c' : ascii) :
  isDigit c = true → isDigit c' = true →
  Ascii.compare c c' = Nat.compare (digitOf c) (digitOf c').
Proof.
  destruct c as [[] [] [] [] [] [] [] []]; intros H; try discriminate H;
    destruct c' as [[] [] [] [] [] [] [] []]; intros H'; try discriminate H';
    reflexivity.
Qed.

(** For two dates of the form YYYY-MM-DD, the order of the strings is the
    order of the days. *)
Lemma stringGt_dates (a b : string) :
  isDate a → isDate b → (ReminderView.stringGt a b = true ↔ earlier b a).
Proof.
  intros (y1 & y2 & y3 & y4 & m1 & m2 & d1 & d2 & -> & Ha)%isDate_shape
         (z1 & z2 & z3 & z4 & n1 & n2 & e1 & e2 & -> & Hb)%isDate_shape.
  rewrite stringGt_spec.
  repeat match goal with
         | H : Forall _ (_ :: _) |- _ => inversion H; subst; clear H
         | H : Forall _ [] |- _ => clear H
         end.
  repeat match goal with
         | H : isDigit ?c = true |- _ =>
             lazymatch goal with
             | _ : digitOf c ≤ 9 |- _ => fail
             | _ => pose proof (digit_le c H)
             end
         end.
  unfold earlier, yearOf, monthOf, dayOf. simpl String.substring. simpl numberOf.
  simpl String.compare.
  rewrite !digit_compare by done.
  change (Ascii.compare "-" "-") with Eq. cbv iota.
  repeat match goal with
         | |- context [Nat.compare ?x ?y] => destruct (Nat.compare_spec x y); cbv iota
         end;
    (split; [intros Hlt; try discriminate Hlt; lia | intros Hearlier; try done; exfalso; lia]).
Qed.

(** X21. For a day and an open task whose dates have the form
    YYYY-MM-DD, the Scheduled tab shows the task exactly when its day comes
    after the day, and the Today tab exactly when the two dates are the
    same: on such dates the comparison of the strings is the comparison of
    the days. *)
Theorem scheduled_tab_shows_later_days
    (today : string) (tasks : list TaskData) (t : TaskData) :
  isDate today → isDate (date t) → checklist t = false → t ∈ tasks →
  (t ∈ ReminderView.getScheduledTasks today tasks ↔ earlier today (date t)) ∧
  (t ∈ ReminderView.getTodayTasks today tasks ↔ date t = today).
Proof.
  intros Htoday Hdate Hopen Hin.
  unfold ReminderView.getScheduledTasks, ReminderView.getTodayTasks.
  rewrite !in_filter, !andb_true_iff, !negb_true_iff, String.eqb_eq.
  rewrite (stringGt_dates _ _ Hdate Htoday). tauto.
Qed.

Lemma scheduled_tab_shows_later_days_witness :
  let t := mkTask "Buy milk" [] "2024-10-01" false None None in
  (t ∈ ReminderView.getScheduledTasks "2024-09-30" [t] ↔ earlier "2024-09-30" (date t)) ∧
  (t ∈ ReminderView.getTodayTasks "2024-09-30" [t] ↔ date t = "2024-09-30").
Proof.
  apply (scheduled_tab_shows_later_days "2024-09-30"
           [mkTask "Buy milk" [] "2024-10-01" false None None]
           (mkTask "Buy milk" [] "2024-10-01" false None None)).
  - reflexivity.
  - reflexivity.
  - reflexivity.
  - apply list_elem_of_In. simpl. left. reflexivity.
Defined.

End Tabs.

(** ** The tags of the modal *)

Section Tags.
Import JS.
#[local] Arguments String.append !_ _ / : simpl nomatch.

Lemma withoutFirstMarker_plain (tag : string) :
  noMarker tag → TaskModal.withoutFirstMarker tag = tag.
Proof.
  unfold noMarker. induction tag as [|c tag IH]; [done |]. simpl.
  intros [Hc Htag]%andb_true_iff. apply negb_true_iff in Hc.
  by rewrite Hc, IH.
Qed.

Lemma filter_other_all (tag : string) (tags : list string) :
  tag ∉ tags → List.filter (λ t, negb (String.eqb t tag)) tags = tags.
Proof.
  intros Hnot. apply filter_all, Forall_forall. intros t Ht.
  apply negb_true_iff, String.eqb_neq. by intros ->.
Qed.

(** X22. Adding a tag that holds no marker keeps the tags of the modal
    distinct, and afterwards the tag is one of them unless it is empty; an
    empty tag and a tag that is already there change nothing. *)
Theorem addTag_keeps_tags_distinct (this : TaskModal.t) (tag : string) :
  NoDup (TaskModal.taskTags this) → noMarker tag →
  NoDup (TaskModal.taskTags (TaskModal.addTag this tag)) ∧
  (tag ≠ "" → tag ∈ TaskModal.taskTags (TaskModal.addTag this tag)) ∧
  (tag = "" ∨ tag ∈ TaskModal.taskTags this → TaskModal.addTag this tag = this).
Proof.
  intros Hdistinct Hplain. unfold TaskModal.addTag.
  rewrite (withoutFirstMarker_plain tag Hplain).
  destruct tag as [|c tag].
  { simpl. split_and!; [done | intros H; by destruct H | done]. }
  change (isEmpty (String c tag)) with false. simpl negb at 1. simpl andb.
  case_bool_decide as Hin; simpl.
  - split_and!; done.
  - split_and!.
    + apply NoDup_app. split_and!; [done | | apply NoDup_singleton].
      intros t Ht ->%list_elem_of_singleton. done.
    + intros _. apply elem_of_app. right. by apply list_elem_of_singleton.
    + by intros [|].
Qed.

Lemma addTag_keeps_tags_distinct_witness :
  let this := TaskModal.mk "Buy milk" ["home"] "" false "" None [] in
  NoDup (TaskModal.taskTags (TaskModal.addTag this "shop")) ∧
  ("shop" ≠ "" → "shop" ∈ TaskModal.taskTags (TaskModal.addTag this "shop")) ∧
  ("shop" = "" ∨ "shop" ∈ TaskModal.taskTags this → TaskModal.addTag this "shop" = this).
Proof.
  apply (addTag_keeps_tags_distinct (TaskModal.mk "Buy milk" ["home"] "" false "" None [])).
  - repeat constructor. intros H. apply list_elem_of_In in H. simpl in H. tauto.
  - reflexivity.
Defined.

(** X23. The test of [addTag] looks for the tag as it was typed, and the
    list gets it without its first marker: a tag typed with the marker and
    not in the list in that form is stored without the marker at the end of
    the list, also when the list holds the tag without marker already, and
    also when nothing is left of it. *)
Theorem addTag_stores_tag_without_marker (this : TaskModal.t) (tag : string) :
  ("#" +:+ tag) ∉ TaskModal.taskTags this →
  TaskModal.taskTags (TaskModal.addTag this ("#" +:+ tag))
  = TaskModal.taskTags this ++ [tag].
Proof.
  intros Hnot. unfold TaskModal.addTag. simpl isEmpty.
  by rewrite bool_decide_eq_false_2.
Qed.

Lemma addTag_stores_tag_without_marker_witness :
  TaskModal.taskTags
    (TaskModal.addTag (TaskModal.mk "Buy milk" ["home"] "" false "" None []) ("#" +:+ "home"))
  = TaskModal.taskTags (TaskModal.mk "Buy milk" ["home"] "" false "" None []) ++ ["home"].
Proof.
  apply (addTag_stores_tag_without_marker
           (TaskModal.mk "Buy milk" ["home"] "" false "" None []) "home").
  intros H. apply list_elem_of_In in H. simpl in H.
  destruct H as [H | H]; [discriminate H | exact H].
Defined.

(** X24. Adding a new tag without marker and removing it again gives the
    modal back. *)
Theorem removeTag_after_addTag (this : TaskModal.t) (tag : string) :
  noMarker tag → tag ≠ "" → tag ∉ TaskModal.taskTags this →
  TaskModal.removeTag (TaskModal.addTag this tag) tag = this.
Proof.
  intros Hplain Hne Hnot. unfold TaskModal.addTag.
  rewrite (withoutFirstMarker_plain tag Hplain).
  rewrite bool_decide_eq_false_2 by done.
  assert (isEmpty tag = false) as -> by (by destruct tag).
  unfold TaskModal.removeTag, TaskModal.setTaskTags. simpl.
  rewrite List.filter_app, (filter_other_all _ _ Hnot).
  assert (List.filter (λ t, negb (String.eqb t tag)) [tag] = []) as ->.
  { simpl. by rewrite String.eqb_refl. }
  rewrite app_nil_r. by destruct this.
Qed.

Lemma removeTag_after_addTag_witness :
  TaskModal.removeTag
    (TaskModal.addTag (TaskModal.mk "Buy milk" ["home"] "" false "" None []) "shop") "shop"
  = TaskModal.mk "Buy milk" ["home"] "" false "" None [].
Proof.
  apply (removeTag_after_addTag (TaskModal.mk "Buy milk" ["home"] "" false "" None [])).
  - reflexivity.
  - discriminate.
  - intros H. apply list_elem_of_In in H. simpl in H.
    destruct H as [H | H]; [discriminate H | exact H].
Defined.

End Tags.

(** ** What the mutators do to the documents *)

Section Documents.
Import JS Regex.

(** A read that succeeds, then the decision of the mutator. *)
Lemma guarded_applyEdit_edits
    (file : TFile) (step : string → edit) (noSection : M ()) (msg : string)
    (w : World) (content : string) :
  quiet noSection → store w !! path file = Some content →
  editsDocument (tryCatch (applyEdit file step noSection) (λ _, consoleError msg))
                w file content (step content).
Proof.
  intros Hq Hc. unfold editsDocument, tryCatch, applyEdit, mbind, M_bind, vaultRead.
  rewrite Hc. destruct (step content) as [| |text]; simpl.
  - rewrite insert_id, app_nil_r by done.
    destruct (Hq w) as [Hs Hw]. revert Hs Hw.
    by destruct (noSection w) as [[[]|e] w'].
  - by rewrite insert_id, app_nil_r.
  - done.
Qed.

(** *** When the line functions hand over a text *)

Lemma appendStep_writes (task : TaskData) (content : string) :
  writesText (appendStep task content) ↔ ∃ i, firstHeadingAt (split content) i.
Proof.
  unfold writesText, appendStep, appendLines. split.
  - intros [text H].
    destruct (findIndex isTasksHeading (split content)) as [i|] eqn:E; [| done].
    exists i. by apply firstHeadingAt_findIndex.
  - intros [i Hi%firstHeadingAt_findIndex]. rewrite Hi. simpl. by eexists.
Qed.

Lemma sectionLoop_finds (m : string) (k : nat) (rest : list string) (j : nat) (line : string) :
  rest !! j = Some line → taskRegex m line = true →
  (∀ j' l, j' ≤ j → rest !! j' = Some l → startsWith "#" l = false) →
  is_Some (sectionLoop m k rest).
Proof.
  revert k j. induction rest as [|l rest IH]; intros k j Hline Hm Hsec; [done |].
  simpl. rewrite (Hsec 0 l) by (done || lia).
  destruct (taskRegex m l) eqn:Hl; [by eexists |].
  destruct j as [|j]; simpl in Hline; [congruence |].
  apply (IH (S k) j); [done | done |].
  intros j' l' Hj' Hl'. apply (Hsec (S j')); [lia | done].
Qed.

Lemma updateStep_writes (m : string) (task : TaskData) (content : string) :
  writesText (updateStep m task content) ↔
  ∃ i line, inSection (split content) i ∧ split content !! i = Some line ∧
            taskRegex m line = true.
Proof.
  unfold writesText, updateStep. split.
  - intros [text H].
    destruct (findIndex isTasksHeading (split content)); [| done].
    destruct (updateLines m task (split content)) as [lines'|] eqn:Hup; [| done].
    apply updateLines_frame in Hup as (ti & i & Hti & Hi & _ & (line & Hline & Hm) & Hsec).
    exists i, line. split; [| done]. exists ti. split; [done |]. split; [lia | done].
  - intros (i & line & (ti & Hti & Hlt & Hsec) & Hline & Hm).
    apply firstHeadingAt_findIndex in Hti. rewrite Hti. unfold updateLines. rewrite Hti.
    simpl.
    destruct (sectionLoop_finds m (ti + 1) (drop (ti + 1) (split content))
                (i - (ti + 1)) line) as [i' ->].
    + rewrite lookup_drop. by replace (ti + 1 + (i - (ti + 1))) with i by lia.
    + done.
    + intros j' l Hj' Hl. rewrite lookup_drop in Hl.
      apply (Hsec (ti + 1 + j')); [lia | done].
    + simpl. by eexists.
Qed.

Lemma filter_length_all {A} (q : A → bool) (xs : list A) :
  length xs = length (List.filter q xs) ↔ Forall (λ x, q x = true) xs.
Proof.
  induction xs as [|x xs IH]; simpl; [by split |].
  pose proof (List.filter_length_le q xs) as Hle.
  destruct (q x) eqn:Hx; simpl.
  - rewrite Forall_cons, <- IH. split; [intros [= ?]; by split | by intros [_ ->]].
  - split; [lia | inversion 1; congruence].
Qed.

Lemma filter_length_some {A} (q : A → bool) (xs : list A) :
  Nat.eqb (length xs) (length (List.filter q xs)) = false ↔
  ∃ x, x ∈ xs ∧ q x = false.
Proof.
  rewrite Nat.eqb_neq, filter_length_all. split.
  - intros (x & Hx & Hq)%not_Forall_Exists%Exists_exists; [| apply _].
    exists x. split; [done |]. simpl in Hq. by destruct (q x).
  - intros (x & Hx & Hq) Hall. rewrite Forall_forall in Hall.
    specialize (Hall x Hx). congruence.
Qed.

Lemma writesText_if (b : bool) (text : string) :
  writesText (if b then NoChange else Changed text) ↔ b = false.
Proof. destruct b; split; try done; [by intros [? ?] | by eexists]. Qed.

Lemma removeStep_writes (n : string) (content : string) :
  writesText (removeStep n content) ↔
  ∃ i line, firstHeadingAt (split content) i ∧ line ∈ drop (S i) (split content) ∧
            startsWith "#" line = false ∧ taskRegex n line = true.
Proof.
  unfold removeStep.
  destruct (removeLines n (split content)) as [lines'|] eqn:E.
  - apply removeLines_result in E as (ti & Hti & ->).
    assert (Nat.eqb (length (split content))
              (length (take (S ti) (split content)
                       ++ List.filter (keptByRemove n) (drop (S ti) (split content))))
            = Nat.eqb (length (drop (S ti) (split content)))
                (length (List.filter (keptByRemove n) (drop (S ti) (split content)))))
      as ->.
    { rewrite length_app. rewrite <- (take_drop (S ti) (split content)) at 1.
      rewrite length_app.
      destruct (Nat.eqb_spec
                  (length (take (S ti) (split content))
                   + length (drop (S ti) (split content)))
                  (length (take (S ti) (split content))
                   + length (List.filter (keptByRemove n) (drop (S ti) (split content))))),
               (Nat.eqb_spec
                  (length (drop (S ti) (split content)))
                  (length (List.filter (keptByRemove n) (drop (S ti) (split content)))));
        (done || lia). }
    rewrite writesText_if, filter_length_some. unfold keptByRemove. split.
    + intros (line & Hin & Hq). exists ti, line.
      split; [by apply firstHeadingAt_findIndex |]. split; [done |].
      destruct (startsWith "#" line); [done |]. by destruct (taskRegex n line).
    + intros (i & line & Hi%firstHeadingAt_findIndex & Hin & Hs & Hm).
      assert (i = ti) as -> by congruence.
      exists line. split; [done |]. by rewrite Hs, Hm.
  - unfold removeLines in E.
    destruct (findIndex isTasksHeading (split content)) as [ti|] eqn:Hti; [done |].
    split; [by intros [? ?] |].
    intros (i & line & Hi%firstHeadingAt_findIndex & _). congruence.
Qed.

Lemma updateWholeStep_writes (task : TaskData) (content : string) :
  writesText (updateWholeStep task content) ↔
  ∃ line, line ∈ split content ∧ taskRegex (name task) line = true.
Proof.
  unfold writesText, updateWholeStep, updateWholeLines, wholeLoop.
  destruct (findIndex (taskRegex (name task)) (split content)) as [i|] eqn:E; simpl.
  - apply findIndex_Some in E as [(line & Hline & Hm) _].
    split; [| by eexists]. intros _. exists line.
    split; [by eapply list_elem_of_lookup_2 | done].
  - apply findIndex_None in E. rewrite Forall_forall in E.
    split; [by intros [? ?] |]. intros (line & Hin & Hm).
    specialize (E line Hin). congruence.
Qed.

Lemma removeWholeStep_writes (n : string) (content : string) :
  writesText (removeWholeStep n content) ↔
  ∃ line, line ∈ split content ∧ taskRegex n line = true.
Proof.
  unfold removeWholeStep, removeWholeLines.
  rewrite writesText_if, filter_length_some.
  split; intros (line & Hin & Hm); exists line; (split; [done |]);
    by destruct (taskRegex n line).
Qed.

(** X25. The append of the two modals, and the update and the remove of
    the edit modal, for a task with a project whose file is in the list of
    the modal and can be read: each replaces the text of that one document
    by the text its line function hands over, with one call of
    [app.vault.modify], and writes nothing when the line function hands over
    no text; no other document is touched. The append hands over a text
    exactly when the document has a heading line. The update does so exactly
    when a line of the section is matched by the name of the original task,
    whether or not the new line differs from the old one. The remove does
    so exactly when some line after the heading that does not start with
    the heading marker is matched by the name of the task. *)
Theorem modal_mutators_edit_one_document
    (this : EditTaskModal.t) (task : TaskData) (file : TFile) (content : string)
    (w : World) :
  truthy (project task) = true →
  find (hasBasename (project task)) (TaskModal.projectFiles (EditTaskModal.modal this))
  = Some file →
  store w !! path file = Some content →
  editsDocument (TaskModal.appendToProjectFile (EditTaskModal.modal this) task)
                w file content (appendStep task content) ∧
  editsDocument (EditTaskModal.appendToProjectFile this task)
                w file content (appendStep task content) ∧
  editsDocument (EditTaskModal.updateInProjectFile this task)
                w file content
                (updateStep (name (EditTaskModal.originalTask this)) task content) ∧
  editsDocument (EditTaskModal.removeFromProjectFile this task)
                w file content (removeStep (name task) content) ∧
  (writesText (appendStep task content) ↔ ∃ i, firstHeadingAt (split content) i) ∧
  (writesText (updateStep (name (EditTaskModal.originalTask this)) task content) ↔
   ∃ i line, inSection (split content) i ∧ split content !! i = Some line ∧
             taskRegex (name (EditTaskModal.originalTask this)) line = true) ∧
  (writesText (removeStep (name task) content) ↔
   ∃ i line, firstHeadingAt (split content) i ∧ line ∈ drop (S i) (split content) ∧
             startsWith "#" line = false ∧ taskRegex (name task) line = true).
Proof.
  intros Ht Hf Hc.
  unfold TaskModal.appendToProjectFile, EditTaskModal.appendToProjectFile,
    EditTaskModal.updateInProjectFile, EditTaskModal.removeFromProjectFile.
  rewrite Ht, Hf. simpl.
  split; [| split; [| split; [| split; [| split; [| split]]]]];
    first [ apply appendStep_writes | apply updateStep_writes | apply removeStep_writes
          | apply guarded_applyEdit_edits;
            first [exact Hc | apply quiet_consoleError | apply quiet_mret] ].
Qed.

Lemma modal_mutators_edit_one_document_witness :
  let task := mkTask "Buy milk" ["home"] "" true (Some "Plan") None in
  let this := EditTaskModal.mk
                (TaskModal.mk "Buy milk" ["home"] "" true "Plan" None [planFile])
                (mkTask "Buy milk" [] "" false (Some "Plan") None) in
  let content := "## Tasks" +:+ NL +:+ "- [ ] Buy milk" in
  let w := worldWith content [] in
  editsDocument (TaskModal.appendToProjectFile (EditTaskModal.modal this) task)
                w planFile content (appendStep task content) ∧
  editsDocument (EditTaskModal.appendToProjectFile this task)
                w planFile content (appendStep task content) ∧
  editsDocument (EditTaskModal.updateInProjectFile this task)
                w planFile content
                (updateStep (name (EditTaskModal.originalTask this)) task content) ∧
  editsDocument (EditTaskModal.removeFromProjectFile this task)
                w planFile content (removeStep (name task) content) ∧
  (writesText (appendStep task content) ↔ ∃ i, firstHeadingAt (split content) i) ∧
  (writesText (updateStep (name (EditTaskModal.originalTask this)) task content) ↔
   ∃ i line, inSection (split content) i ∧ split content !! i = Some line ∧
             taskRegex (name (EditTaskModal.originalTask this)) line = true) ∧
  (writesText (removeStep (name task) content) ↔
   ∃ i line, firstHeadingAt (split content) i ∧ line ∈ drop (S i) (split content) ∧
             startsWith "#" line = false ∧ taskRegex (name task) line = true).
Proof.
  apply (modal_mutators_edit_one_document
           (EditTaskModal.mk
              (TaskModal.mk "Buy milk" ["home"] "" true "Plan" None [planFile])
              (mkTask "Buy milk" [] "" false (Some "Plan") None))).
  - reflexivity.
  - vm_compute. reflexivity.
  - vm_compute. reflexivity.
Defined.

(** The update writes also when the line it puts is the line it found: the
    document is handed to the vault with the text it had. *)
Example updateInProjectFile_writes_same_text :
  let task := mkTask "Buy milk" [] "" false (Some "Plan") None in
  let this := EditTaskModal.mk
                (TaskModal.mk "Buy milk" [] "" false "Plan" None [planFile]) task in
  let content := "## Tasks" +:+ NL +:+ "- [ ] Buy milk" in
  let w := worldWith content [task] in
  writes (EditTaskModal.updateInProjectFile this task w).2
  = [("Projects/Plan.md", content)] ∧
  store (EditTaskModal.updateInProjectFile this task w).2 = store w.
Proof. vm_compute. done. Qed.

(** The update of the list view on the project document. *)
Lemma updateTaskInProjectFile_edits
    (task : TaskData) (files : list TFile) (file : TFile) (content : string) (w : World) :
  truthy (project task) = true →
  getProjectFiles w = (Returned files, w) →
  find (hasBasename (project task)) files = Some file →
  store w !! path file = Some content →
  editsDocument (ReminderView.updateTaskInProjectFile task)
                w file content (updateWholeStep task content).
Proof.
  intros Ht Hfiles Hf Hc. unfold ReminderView.updateTaskInProjectFile.
  rewrite Ht. simpl. unfold editsDocument, mbind, M_bind.
  rewrite Hfiles, Hf. apply guarded_applyEdit_edits; [apply quiet_mret | exact Hc].
Qed.

(** X26. The two functions that work on the origin file of a task, the
    update of the list view and the remove of the edit modal: when the task
    names a file of the vault that can be read, each replaces the text of
    that one document by the text its line function hands over, with one
    call of [app.vault.modify], and writes nothing when the line function
    hands over no text; no other document is touched. Both hand over a text
    exactly when some line of the whole document is matched by the name of
    the task; the update does so whether or not the new line differs from
    the old one. *)
Theorem origin_file_mutators_edit_one_document
    (task : TaskData) (p : string) (file : TFile) (content : string) (w : World) :
  fileId task = Some p → p ≠ "" →
  find (λ f, String.eqb (path f) p) (markdownFiles w) = Some file →
  store w !! path file = Some content →
  editsDocument (ReminderView.updateTaskInFile task)
                w file content (updateWholeStep task content) ∧
  editsDocument (EditTaskModal.removeFromSourceFile task)
                w file content (removeWholeStep (name task) content) ∧
  (writesText (updateWholeStep task content) ↔
   ∃ line, line ∈ split content ∧ taskRegex (name task) line = true) ∧
  (writesText (removeWholeStep (name task) content) ↔
   ∃ line, line ∈ split content ∧ taskRegex (name task) line = true).
Proof.
  intros Hid Hp Hf Hc.
  unfold ReminderView.updateTaskInFile, EditTaskModal.removeFromSourceFile.
  rewrite Hid. assert (isEmpty p = false) as -> by (by destruct p).
  unfold editsDocument, mbind, M_bind, EditTaskModal.getFileByPath, gets.
  rewrite Hf.
  split; [| split; [| split]];
    first [ apply updateWholeStep_writes | apply removeWholeStep_writes
          | apply guarded_applyEdit_edits; first [exact Hc | apply quiet_mret] ].
Qed.

Lemma origin_file_mutators_edit_one_document_witness :
  let task := mkTask "Buy milk" [] "" true None (Some "Projects/Plan.md") in
  let content := "- [ ] Buy milk" +:+ NL +:+ "- [ ] Buy milk" in
  let w := worldWith content [] in
  editsDocument (ReminderView.updateTaskInFile task)
                w planFile content (updateWholeStep task content) ∧
  editsDocument (EditTaskModal.removeFromSourceFile task)
                w planFile content (removeWholeStep (name task) content) ∧
  (writesText (updateWholeStep task content) ↔
   ∃ line, line ∈ split content ∧ taskRegex (name task) line = true) ∧
  (writesText (removeWholeStep (name task) content) ↔
   ∃ line, line ∈ split content ∧ taskRegex (name task) line = true).
Proof.
  apply (origin_file_mutators_edit_one_document
           (mkTask "Buy milk" [] "" true None (Some "Projects/Plan.md"))
           "Projects/Plan.md").
  - reflexivity.
  - discriminate.
  - vm_compute. reflexivity.
  - vm_compute. reflexivity.
Defined.

Example updateTaskInFile_writes_same_text :
  let task := mkTask "Buy milk" [] "" false None (Some "Projects/Plan.md") in
  let content := "- [ ] Buy milk" in
  let w := worldWith content [task] in
  writes (ReminderView.updateTaskInFile task w).2 = [("Projects/Plan.md", content)] ∧
  store (ReminderView.updateTaskInFile task w).2 = store w.
Proof. vm_compute. done. Qed.

(** ** The edit flow and the project document *)

Lemma aside_markdownFiles : aside markdownFiles.
Proof. by split. Qed.

Lemma updateInProjectFile_edits
    (this : EditTaskModal.t) (task : TaskData) (file : TFile) (content : string)
    (w : World) :
  truthy (project task) = true →
  find (hasBasename (project task)) (TaskModal.projectFiles (EditTaskModal.modal this))
  = Some file →
  store w !! path file = Some content →
  editsDocument (EditTaskModal.updateInProjectFile this task)
                w file content
                (updateStep (name (EditTaskModal.originalTask this)) task content).
Proof.
  intros Ht Hf Hc. unfold EditTaskModal.updateInProjectFile. rewrite Ht, Hf. simpl.
  apply guarded_applyEdit_edits; [apply quiet_consoleError | exact Hc].
Qed.

(** The callback of the list view after an update: the project document of
    the task as it was gets the update of the list view. *)
Lemma getProjectFiles_same_files (w w' : World) (files : list TFile) :
  markdownFiles w' = markdownFiles w →
  getProjectFiles w = (Returned files, w) → getProjectFiles w' = (Returned files, w').
Proof.
  unfold getProjectFiles. intros ->.
  destruct (filterProjectFiles (markdownFiles w)); [| done].
  intros [= ->]. done.
Qed.

Lemma editCallback_edits
    (task updated : TaskData) (files : list TFile) (file : TFile) (content : string)
    (w : World) :
  truthy (project task) = true →
  getProjectFiles w = (Returned files, w) →
  find (hasBasename (project task)) files = Some file →
  store w !! path file = Some content →
  ∃ w', ReminderView.editCallback task (Some updated) w = (Returned (), w') ∧
        store w' = <[path file := updateInPlaceWhole task content]> (store w).
Proof.
  intros Ht Hfiles Hf Hc. unfold ReminderView.editCallback. rewrite Ht.
  unfold mbind, M_bind, modifyWorld, ReminderView.saveCallback.
  set (w1 := match findIndex (ReminderView.sameNameAndDate task) (viewTasks w) with
             | Some taskIndex => setViewTasks w (<[taskIndex := updated]> (viewTasks w))
             | None => w
             end).
  assert (markdownFiles w1 = markdownFiles w ∧ store w1 = store w) as [Hm Hs].
  { unfold w1. by destruct (findIndex _ _). }
  set (w2 := setSaved w1 (viewTasks w1)).
  assert (getProjectFiles w2 = (Returned files, w2)) as Hfiles2.
  { apply getProjectFiles_same_files with w; [| exact Hfiles]. unfold w2. simpl. exact Hm. }
  destruct (updateTaskInProjectFile_after_files task files w2 Hfiles2) as (w' & E).
  exists w'. split; [exact E |].
  destruct (updateTaskInProjectFile_edits task files file content w2) as [Hstore _].
  - exact Ht.
  - exact Hfiles2.
  - exact Hf.
  - unfold w2. simpl. by rewrite Hs.
  - rewrite E in Hstore. simpl in Hstore. rewrite Hstore. unfold w2. simpl.
    by rewrite Hs.
Qed.

(** X27. The edit flow for a task that keeps its project, when the file of
    the project is in the list of the modal and is the project file the
    list view finds, and can be read: the text of the document after the
    flow is the update of the list view, done with the record as it was
    before the edit, applied to the text that the update of the edit modal
    has written for the new record. No other document changes. *)
Theorem editFlow_same_project_document
    (this : EditTaskModal.t) (files : list TFile) (file : TFile) (content : string)
    (w : World) :
  TaskModal.taskName (EditTaskModal.modal this) ≠ "" →
  truthy (project (EditTaskModal.originalTask this)) = true →
  project (TaskModal.taskOf (EditTaskModal.modal this))
  = project (EditTaskModal.originalTask this) →
  find (hasBasename (project (EditTaskModal.originalTask this)))
       (TaskModal.projectFiles (EditTaskModal.modal this)) = Some file →
  getProjectFiles w = (Returned files, w) →
  find (hasBasename (project (EditTaskModal.originalTask this))) files = Some file →
  store w !! path file = Some content →
  store (editFlow this w).2
  = <[path file :=
        updateInPlaceWhole (EditTaskModal.originalTask this)
          (updateInPlace (name (EditTaskModal.originalTask this))
             (TaskModal.taskOf (EditTaskModal.modal this)) content)]> (store w).
Proof.
  intros Hname Ht Hproj Hf Hfiles Hf' Hc.
  unfold editFlow, EditTaskModal.submitTask.
  assert (isEmpty (TaskModal.taskName (EditTaskModal.modal this)) = false) as ->.
  { revert Hname. by destruct (TaskModal.taskName (EditTaskModal.modal this)). }
  cbv zeta.
  rewrite bool_decide_eq_false_2 by (intros H; exact (H Hproj)).
  rewrite Hproj, Ht.
  set (updated := TaskModal.taskOf (EditTaskModal.modal this)) in *.
  destruct (returns_updateInProjectFile this updated w) as ([] & w1 & E1).
  destruct (updateInProjectFile_edits this updated file content w) as [Hs1 _].
  { by rewrite Hproj. }
  { by rewrite Hproj. }
  { exact Hc. }
  pose proof (keeps_updateInProjectFile markdownFiles aside_markdownFiles this updated w)
    as Hm1.
  rewrite E1 in Hs1, Hm1. simpl in Hs1, Hm1.
  destruct (editCallback_edits (EditTaskModal.originalTask this) updated files file
              (updateInPlace (name (EditTaskModal.originalTask this)) updated content) w1)
    as (w2 & E2 & Hs2).
  { exact Ht. }
  { by apply getProjectFiles_same_files with w. }
  { exact Hf'. }
  { rewrite Hs1. apply lookup_insert_eq. }
  unfold tryCatch, mbind, M_bind. rewrite E1, E2. simpl.
  by rewrite Hs2, Hs1, insert_insert_eq.
Qed.

Lemma editFlow_same_project_document_witness :
  let original := mkTask "Buy milk" [] "" false (Some "Plan") None in
  let this := EditTaskModal.mk
                (TaskModal.mk "Buy oat milk" ["home"] "" false "Plan" None [planFile])
                original in
  let content := "## Tasks" +:+ NL +:+ "- [ ] Buy milk" in
  let w := worldWith content [original] in
  store (editFlow this w).2
  = <[path planFile :=
        updateInPlaceWhole original
          (updateInPlace (name original)
             (TaskModal.taskOf (EditTaskModal.modal this)) content)]> (store w).
Proof.
  apply (editFlow_same_project_document
           (EditTaskModal.mk
              (TaskModal.mk "Buy oat milk" ["home"] "" false "Plan" None [planFile])
              (mkTask "Buy milk" [] "" false (Some "Plan") None))
           [planFile] planFile).
  - discriminate.
  - reflexivity.
  - reflexivity.
  - vm_compute. reflexivity.
  - reflexivity.
  - vm_compute. reflexivity.
  - vm_compute. reflexivity.
Defined.

End Documents.
